(** * Supernote / Apple Notes unifier: state tracking and bidirectional sync

    A shallow embedding of the state store ([unifier/state.py]), the Mirror
    change detector ([unifier/sync/supernote_watcher.py]), the reverse applier
    ([unifier/sync/reverse.py]), the bidirectional driver
    ([unifier/sync/engine.py]) and the forward loop
    ([unifier/orchestrator.py]), followed by the properties of the
    specification stated over it.

    Conventions.
    - The [note_state] table is a list of rows in rowid order; the primary key
      is maintained by the writers ([INSERT OR REPLACE] removes the old row and
      appends the new one, [UPDATE] rewrites rows in place).  Columns are kept
      at the types [get_note_state] decodes them to.
    - The Mirror filesystem is a finite map from absolute path to file,
      with the list of its directories; a path is kept as its text.
    - The state database and the directories on the host (the state
      directory, the backup directory) are taken to be usable: opening the
      database, its statements and the creation of those directories do
      not fail.
    - The Swift bridge is an oracle: its answer is a function of the command
      and of everything the program has done so far (the trace).
    - Python exceptions are results [Raise]; [try]/[except] is [catch]. *)

From Stdlib Require Import String Ascii ZArith List Bool Lia.
From stdpp Require Import base option list strings gmap.

Open Scope string_scope.
Open Scope Z_scope.

(** ** Python strings and paths *)

Module PyStr.

(** Truthiness of a [str]. *)
Definition truthy (s : string) : bool := negb (bool_decide (s = "")).

(** [s.split(sep)] for a one-character separator: never the empty list. *)
Fixpoint split_on (sep : ascii) (s : string) : list string :=
  match s with
  | EmptyString => [EmptyString]
  | String c s' =>
      if Ascii.eqb c sep then EmptyString :: split_on sep s'
      else match split_on sep s' with
           | [] => [String c EmptyString]
           | seg :: rest => String c seg :: rest
           end
  end.

(** [s.split(sep)[-1]] *)
Definition last_segment (sep : ascii) (s : string) : string :=
  default s (last (split_on sep s)).

Fixpoint join (sep : string) (l : list string) : string :=
  match l with
  | [] => ""
  | [x] => x
  | x :: rest => x ++ sep ++ join sep rest
  end.

(** [s.endswith(suf)] *)
Fixpoint ends_with (suf s : string) : bool :=
  bool_decide (s = suf) ||
  match s with
  | EmptyString => false
  | String _ s' => ends_with suf s'
  end.

(** [s[len(pre):]] when [s.startswith(pre)]. *)
Fixpoint strip_prefix (pre s : string) : option string :=
  match pre, s with
  | EmptyString, _ => Some s
  | String a pre', String b s' =>
      if Ascii.eqb a b then strip_prefix pre' s' else None
  | String _ _, EmptyString => None
  end.

Definition ascii_lower (c : ascii) : ascii :=
  let n := nat_of_ascii c in
  if (Nat.leb 65 n && Nat.leb n 90)%bool then ascii_of_nat (n + 32) else c.

Fixpoint lower (s : string) : string :=
  match s with
  | EmptyString => EmptyString
  | String c s' => String (ascii_lower c) (lower s')
  end.

(** Position of the last ["."] of a name, as [name.rfind('.')]. *)
Fixpoint rfind_dot (s : string) : option nat :=
  match s with
  | EmptyString => None
  | String c s' =>
      match rfind_dot s' with
      | Some i => Some (S i)
      | None => if Ascii.eqb c "."%char then Some O else None
      end
  end.

End PyStr.

(** Whether a character occurs in a string. *)
Fixpoint occurs (c : ascii) (s : string) : bool :=
  match s with
  | EmptyString => false
  | String a s' => Ascii.eqb a c || occurs c s'
  end.

(** [pathlib] on POSIX path strings.  A path is kept as its text; where the
    program takes a path apart ([relative_to], [parent]) the text is parsed
    the way [PurePosixPath] parses it. *)
Module PyPath.
Import PyStr.

(** [Path(p).name] *)
Definition name (p : string) : string := last_segment "/"%char p.

(** [Path(p).stem]: the name without its last suffix; a leading or a
    trailing dot is no suffix. *)
Definition stem (p : string) : string :=
  let n := name p in
  match rfind_dot n with
  | Some i =>
      if (Nat.ltb 0 i && Nat.ltb i (String.length n - 1))%bool
      then substring 0 i n else n
  | None => n
  end.

(** A component [PurePosixPath] keeps: empty components and [.] are dropped. *)
Definition kept (seg : string) : bool :=
  negb (bool_decide (seg = "")) && negb (bool_decide (seg = ".")).

(** The components of [PurePosixPath(p)] after its anchor. *)
Definition parts (p : string) : list string :=
  List.filter kept (split_on "/"%char p).

(** [PurePosixPath(p).anchor]: [/] for an absolute path, [//] when the text
    starts with exactly two slashes, empty for a relative path. *)
Definition anchor (p : string) : string :=
  match p with
  | String a r1 =>
      if Ascii.eqb a "/"%char then
        match r1 with
        | String b r2 =>
            if Ascii.eqb b "/"%char then
              match r2 with
              | String c _ => if Ascii.eqb c "/"%char then "/" else "//"
              | EmptyString => "//"
              end
            else "/"
        | EmptyString => "/"
        end
      else ""
  | EmptyString => ""
  end.

Fixpoint strip_parts (pre l : list string) : option (list string) :=
  match pre, l with
  | [], _ => Some l
  | a :: pre', b :: l' => if bool_decide (a = b) then strip_parts pre' l' else None
  | _ :: _, [] => None
  end.

(** [Path(p).relative_to(Path(root))] as the components of the result,
    [None] for the [ValueError]: the anchors must agree and the components
    of [root] must lead those of [p]. *)
Definition relative_to (root p : string) : option (list string) :=
  if bool_decide (anchor p = anchor root) then strip_parts (parts root) (parts p)
  else None.

(** [str(rel.parent)] of a relative path given by its components. *)
Definition parent_str (rel : list string) : string :=
  match removelast rel with
  | [] => "."
  | segs => join "/" segs
  end.

End PyPath.

(** ** JSON values exchanged with the Swift bridge *)

#[warnings="-register-all"]
Inductive json : Type :=
| JNull
| JBool (b : bool)
| JNum (z : Z)
| JStr (s : string)
| JArr (l : list json)
| JObj (o : list (string * json)).

(** A JSON object, i.e. a Python [dict] with string keys. *)
Abbreviation jobj := (list (string * json)).

Module Json.

Fixpoint get (k : string) (o : jobj) : option json :=
  match o with
  | [] => None
  | (k', v) :: rest => if bool_decide (k' = k) then Some v else get k rest
  end.

(** [bool(v)] *)
Definition truthy (v : json) : bool :=
  match v with
  | JNull => false
  | JBool b => b
  | JNum z => negb (z =? 0)
  | JStr s => PyStr.truthy s
  | JArr l => match l with [] => false | _ => true end
  | JObj o => match o with [] => false | _ => true end
  end.

End Json.

(** ** The state store ([unifier/state.py]) *)

Inductive SyncDirection : Type := TO_SUPERNOTE | FROM_SUPERNOTE.

Record NoteState : Type := mkNoteState {
  apple_note_id : string;
  apple_folder_path : string;
  content_hash : string;
  last_processed : string;
  output_path : string;
  generator_type : string;
  success : bool;
  error : option string;
  supernote_content_hash : option string;
  supernote_modified_at : option Z;
  last_sync_direction : option SyncDirection;
  apple_written_hash : option string;
  is_locked : bool
}.

(** A row of the [originals] table (the backup ledger). *)
Record Original : Type := mkOriginal {
  orig_apple_note_id : string;
  backup_folder_note_id : option string;
  original_content : string;
  original_html : option string;
  backed_up_at : string;
  reason : string
}.

Record StateDatabase : Type := mkDb {
  note_state : list NoteState;
  originals : list Original
}.

Module StateDb.

Definition has_id (id : string) (r : NoteState) : bool :=
  bool_decide (apple_note_id r = id).

(** [SELECT * FROM note_state WHERE apple_note_id = ?] then [fetchone]. *)
Definition get_note_state (db : StateDatabase) (id : string) : option NoteState :=
  find (has_id id) (note_state db).

(** [output_path LIKE '%.txt'] ([LIKE] ignores ASCII case). *)
Definition like_txt (p : string) : bool :=
  PyStr.ends_with ".txt" (PyStr.lower p).

Definition txt_row (r : NoteState) : bool := like_txt (output_path r) && success r.

(** The comprehension keeps whatever [get_note_state] returns for each
    selected id, [None] included. *)
Definition get_all_txt_states (db : StateDatabase) : list (option NoteState) :=
  map (fun r => get_note_state db (apple_note_id r))
      (List.filter txt_row (note_state db)).

Definition needs_update (db : StateDatabase) (id hash : string) : bool :=
  match get_note_state db id with
  | None => true
  | Some st => negb (bool_decide (content_hash st = hash))
  end.

(** [INSERT OR REPLACE]: the row with the same key is deleted and the new
    row is inserted with a fresh rowid. *)
Definition insert_or_replace (row : NoteState) (db : StateDatabase) : StateDatabase :=
  {| note_state :=
       List.filter (fun r => negb (has_id (apple_note_id row) r)) (note_state db) ++ [row];
     originals := originals db |}.

(** [UPDATE note_state SET ... WHERE apple_note_id = ?] *)
Definition update_where (id : string) (f : NoteState -> NoteState)
    (db : StateDatabase) : StateDatabase :=
  {| note_state := map (fun r => if has_id id r then f r else r) (note_state db);
     originals := originals db |}.

Definition record_success (now id folder hash out gen : string)
    (sn_hash : option string) (direction : SyncDirection) (locked : bool)
    (db : StateDatabase) : StateDatabase :=
  insert_or_replace
    {| apple_note_id := id; apple_folder_path := folder; content_hash := hash;
       last_processed := now; output_path := out; generator_type := gen;
       success := true; error := None;
       supernote_content_hash := sn_hash; supernote_modified_at := None;
       last_sync_direction := Some direction; apple_written_hash := None;
       is_locked := locked |} db.

Definition record_failure (now id folder hash gen : string) (err : option string)
    (db : StateDatabase) : StateDatabase :=
  insert_or_replace
    {| apple_note_id := id; apple_folder_path := folder; content_hash := hash;
       last_processed := now; output_path := ""; generator_type := gen;
       success := false; error := err;
       supernote_content_hash := None; supernote_modified_at := None;
       last_sync_direction := None; apple_written_hash := None;
       is_locked := false |} db.

Definition set_supernote (h : string) (m : Z) (r : NoteState) : NoteState :=
  {| apple_note_id := apple_note_id r; apple_folder_path := apple_folder_path r;
     content_hash := content_hash r; last_processed := last_processed r;
     output_path := output_path r; generator_type := generator_type r;
     success := success r; error := error r;
     supernote_content_hash := Some h; supernote_modified_at := Some m;
     last_sync_direction := Some TO_SUPERNOTE;
     apple_written_hash := apple_written_hash r; is_locked := is_locked r |}.

Definition set_apple_written (h : string) (r : NoteState) : NoteState :=
  {| apple_note_id := apple_note_id r; apple_folder_path := apple_folder_path r;
     content_hash := content_hash r; last_processed := last_processed r;
     output_path := output_path r; generator_type := generator_type r;
     success := success r; error := error r;
     supernote_content_hash := supernote_content_hash r;
     supernote_modified_at := supernote_modified_at r;
     last_sync_direction := Some FROM_SUPERNOTE;
     apple_written_hash := Some h; is_locked := is_locked r |}.

Definition set_content_hash (h : string) (r : NoteState) : NoteState :=
  {| apple_note_id := apple_note_id r; apple_folder_path := apple_folder_path r;
     content_hash := h; last_processed := last_processed r;
     output_path := output_path r; generator_type := generator_type r;
     success := success r; error := error r;
     supernote_content_hash := supernote_content_hash r;
     supernote_modified_at := supernote_modified_at r;
     last_sync_direction := Some FROM_SUPERNOTE;
     apple_written_hash := apple_written_hash r; is_locked := is_locked r |}.

Definition update_supernote_state (id h : string) (m : Z) : StateDatabase -> StateDatabase :=
  update_where id (set_supernote h m).

Definition update_apple_written_hash (id h : string) : StateDatabase -> StateDatabase :=
  update_where id (set_apple_written h).

Definition update_content_hash_after_reverse_sync (id h : string)
    : StateDatabase -> StateDatabase :=
  update_where id (set_content_hash h).

Definition original_row (now id content : string) (html : option string)
    (why : string) (backup_id : option string) : Original :=
  {| orig_apple_note_id := id; backup_folder_note_id := backup_id;
     original_content := content; original_html := html;
     backed_up_at := now; reason := why |}.

(** [INSERT INTO originals] *)
Definition record_original (row : Original) (db : StateDatabase) : StateDatabase :=
  {| note_state := note_state db; originals := originals db ++ [row] |}.

(** [state.apple_written_hash == apple_content_hash] *)
Definition is_echo_from_apple (db : StateDatabase) (id h : string) : bool :=
  match get_note_state db id with
  | None => false
  | Some st => bool_decide (apple_written_hash st = Some h)
  end.

Definition is_echo_from_supernote (db : StateDatabase) (id h : string) : bool :=
  match get_note_state db id with
  | None => false
  | Some st => bool_decide (supernote_content_hash st = Some h)
  end.


(** [SELECT * FROM note_state WHERE output_path = ?], then the state of the
    first row found. *)
Definition get_state_by_output_path (db : StateDatabase) (p : string)
    : option NoteState :=
  match find (fun r => bool_decide (output_path r = p)) (note_state db) with
  | Some row => get_note_state db (apple_note_id row)
  | None => None
  end.

(** The output paths of the successful rows whose note is not among the
    ids the Source currently has. *)
Definition get_orphaned_outputs (db : StateDatabase) (current_note_ids : gset string)
    : list string :=
  map output_path
      (List.filter (fun r => negb (bool_decide (apple_note_id r ∈ current_note_ids)))
                   (List.filter success (note_state db))).

(** The [dict] of [get_statistics]. *)
Record Statistics : Type := mkStatistics {
  total_files : Z;
  successful : Z;
  failed : Z
}.

Definition get_statistics (db : StateDatabase) : Statistics :=
  {| total_files := Z.of_nat (length (note_state db));
     successful := Z.of_nat (length (List.filter success (note_state db)));
     failed := Z.of_nat (length (List.filter (fun r => negb (success r)) (note_state db))) |}.

End StateDb.

(** ** The world the engine runs in *)

(** A file of the Mirror: [file_text] is [None] when the bytes are not valid
    UTF-8 (then [read_text] raises). *)
Record File : Type := mkFile {
  file_text : option string;
  file_mtime_ms : Z
}.

Record FileSystem : Type := mkFs {
  files : gmap string File;
  dirs : list string
}.

Module Fs.

(** [Path(p).exists()] *)
Definition exists_ (fs : FileSystem) (p : string) : bool :=
  bool_decide (is_Some (files fs !! p)) || bool_decide (p ∈ dirs fs).

(** [Path(p).read_text(encoding='utf-8')], [None] when it raises. *)
Definition read_text (fs : FileSystem) (p : string) : option string :=
  files fs !! p ≫= file_text.

(** [int(Path(p).stat().st_mtime * 1000)] *)
Definition mtime_ms (fs : FileSystem) (p : string) : option Z :=
  file_mtime_ms <$> files fs !! p.

Definition under (root p : string) : bool :=
  bool_decide (is_Some (PyStr.strip_prefix (root ++ "/") p)).

(** [root.rglob("*.txt")]: the entries below [root] whose name matches,
    files and directories alike. *)
Definition rglob_txt (fs : FileSystem) (root : string) : list string :=
  List.filter (fun p => under root p && PyStr.ends_with ".txt" (PyPath.name p))
              ((map_to_list (files fs)).*1 ++ dirs fs).

End Fs.

(** What the program does to the outside, in order: every invocation of the
    Swift bridge (an argument that names a temporary HTML file is represented
    by the text written to that file) and every row appended to the backup
    ledger. *)
Inductive Event : Type :=
| EvBridge (args : list string)
| EvOriginal (o : Original).

Record World : Type := mkWorld {
  db : StateDatabase;
  fs : FileSystem;
  originals_folder_id : option json;     (* ReverseSyncEngine._originals_folder_id *)
  trace : list Event
}.

(** ** State and exceptions *)

Inductive Res (A : Type) : Type :=
| Ok (a : A)
| Raise (msg : string).
Arguments Ok {A} a.
Arguments Raise {A} msg.

Definition M (A : Type) : Type := World -> Res A * World.

Definition ret {A} (a : A) : M A := fun w => (Ok a, w).

Definition raise {A} (msg : string) : M A := fun w => (Raise msg, w).

Definition bind {A B} (m : M A) (k : A -> M B) : M B :=
  fun w =>
    match m w with
    | (Ok a, w') => k a w'
    | (Raise e, w') => (Raise e, w')
    end.

(** [try: m  except Exception as e: h e] *)
Definition catch {A} (m : M A) (h : string -> M A) : M A :=
  fun w =>
    match m w with
    | (Ok a, w') => (Ok a, w')
    | (Raise e, w') => h e w'
    end.

Definition gets {A} (f : World -> A) : M A := fun w => (Ok (f w), w).

Definition modify_db (f : StateDatabase -> StateDatabase) : M unit :=
  fun w => (Ok tt, {| db := f (db w); fs := fs w;
                      originals_folder_id := originals_folder_id w;
                      trace := trace w |}).

Definition log (e : Event) : M unit :=
  fun w => (Ok tt, {| db := db w; fs := fs w;
                      originals_folder_id := originals_folder_id w;
                      trace := trace w ++ [e] |}).

Definition set_originals_folder_id (i : json) : M unit :=
  fun w => (Ok tt, {| db := db w; fs := fs w;
                      originals_folder_id := Some i;
                      trace := trace w |}).

(** [x = d[k]] for an optional value: [KeyError] when absent. *)
Definition require {A} (o : option A) (msg : string) : M A :=
  match o with
  | Some a => ret a
  | None => raise msg
  end.

Notation "x <- m ;; k" := (bind m (fun x => k))
  (at level 100, m at next level, right associativity).
Notation "m ;;; k" := (bind m (fun _ => k))
  (at level 100, right associativity).

(** A [for] loop threading an accumulator; an exception leaves the loop. *)
Fixpoint for_each {A S} (body : S -> A -> M S) (l : list A) (s : S) : M S :=
  match l with
  | [] => ret s
  | x :: rest => s' <- body s x ;; for_each body rest s'
  end.

(** ** What the code takes from outside *)

Record GeneratorResult : Type := mkGen {
  gen_success : bool;
  gen_output_path : option string;
  gen_error : option string;
  gen_type_value : string          (* generator.generator_type.value *)
}.

Record Env : Type := mkEnv {
  (** [hashlib.sha256(s.encode()).hexdigest()[:16]] *)
  sha16 : string -> string;
  (** The Swift bridge subprocess: a JSON object on exit status 0, the error
      message otherwise; it sees everything done before the call. *)
  bridge : list Event -> list string -> Res jobj;
  (** [datetime.now().isoformat()] and [strftime("%Y-%m-%d %H:%M")] *)
  now_iso : list Event -> string;
  now_stamp : list Event -> string;
  (** [unifier/converters/markdown_to_html.py] *)
  extract_title_from_markdown : string -> string * string;
  markdown_to_apple_html : string -> string;
  (** [str(v)] of a JSON value that is not a string *)
  py_repr : json -> string;
  (** Forward generation of one exported note: generator selection, output
      path derivation and [generator.generate], which writes the Mirror. *)
  generate : jobj -> FileSystem -> Res GeneratorResult * FileSystem
}.

Record Config : Type := mkConfig {
  supernote_base : string;
  output_base : string;        (* the Apple/ directory on the Mirror *)
  backup_dir : string
}.

(** [d.get(k, dflt)] rendered as text, as an f-string renders it. *)
Definition jtext (E : Env) (k dflt : string) (o : jobj) : string :=
  match Json.get k o with
  | Some (JStr s) => s
  | Some v => py_repr E v
  | None => dflt
  end.

Definition jtext_opt (E : Env) (k : string) (o : jobj) : option string :=
  match Json.get k o with
  | Some (JStr s) => Some s
  | Some JNull => None
  | Some v => Some (py_repr E v)
  | None => None
  end.

(** [d.get(k, dflt)] as the value bound to a SQL parameter: JSON [null]
    is [NULL]. *)
Definition jcolumn (E : Env) (k dflt : string) (o : jobj) : option string :=
  match Json.get k o with
  | Some (JStr s) => Some s
  | Some JNull => None
  | Some v => Some (py_repr E v)
  | None => Some dflt
  end.

(** ** Finding the output directory ([unifier/supernote/paths.py]) *)

Module Paths.

(** The directories directly below [p], in the order [p.iterdir()] yields
    them (taken to be the order of [dirs]). *)
Definition child_dirs (f : FileSystem) (p : string) : list string :=
  List.filter (fun d => match PyStr.strip_prefix (p ++ "/") d with
                        | Some n => PyStr.truthy n && negb (occurs "/"%char n)
                        | None => false
                        end) (dirs f).

(** [iterdir] raises when [data] is there but is no directory. *)
Definition get_user_data_path (supernote_base : string) : M (option string) :=
  let data_path := supernote_base ++ "/data" in
  present <- gets (fun w => Fs.exists_ (fs w) data_path) ;;
  if negb present then ret None
  else
    is_dir <- gets (fun w => bool_decide (data_path ∈ dirs (fs w))) ;;
    if negb is_dir then raise "NotADirectoryError"
    else
      found <- gets (fun w =>
                 find (fun item => occurs "@"%char (PyPath.name item) &&
                                   Fs.exists_ (fs w) (item ++ "/Supernote"))
                      (child_dirs (fs w) data_path)) ;;
      ret ((fun item => item ++ "/Supernote") <$> found).

Definition get_note_directory (supernote_base : string) : M (option string) :=
  user_path <- get_user_data_path supernote_base ;;
  match user_path with
  | Some u =>
      present <- gets (fun w => Fs.exists_ (fs w) (u ++ "/Note")) ;;
      if present then ret (Some (u ++ "/Note")) else ret None
  | None => ret None
  end.

(** [(parent / name).mkdir(exist_ok=True)] *)
Definition mkdir_exist_ok (parent name : string) : M unit :=
  fun w =>
    let p := parent ++ "/" ++ name in
    if bool_decide (p ∈ dirs (fs w)) then (Ok tt, w)
    else if bool_decide (is_Some (files (fs w) !! p)) then (Raise "FileExistsError", w)
    else if negb (bool_decide (parent ∈ dirs (fs w))) then (Raise "NotADirectoryError", w)
    else (Ok tt, {| db := db w;
                    fs := {| files := files (fs w); dirs := dirs (fs w) ++ [p] |};
                    originals_folder_id := originals_folder_id w;
                    trace := trace w |}).

Definition ensure_apple_notes_directory (supernote_base : string) : M string :=
  note_dir <- get_note_directory supernote_base ;;
  match note_dir with
  | None => raise ("Could not find Supernote Note directory. Ensure " ++ supernote_base ++
                   " is mounted and contains user data.")
  | Some nd => mkdir_exist_ok nd "Apple" ;;; ret (nd ++ "/Apple")
  end.

End Paths.

(** ** The Mirror change detector ([unifier/sync/supernote_watcher.py]) *)

Inductive ChangeType : Type := MODIFIED | DELETED.

Record ChangedFile : Type := mkChange {
  change_path : string;
  change_type : ChangeType;
  change_apple_note_id : string;
  new_content_hash : option string;
  new_modified_at : option Z;
  previous_hash : option string
}.

Module Watcher.
Section WithEnv.
Variable E : Env.

(** Raises when the file cannot be read. *)
Definition compute_content_hash (fs : FileSystem) (p : string) : option string :=
  sha16 E <$> Fs.read_text fs p.

Definition get_file_mtime_ms (fs : FileSystem) (p : string) : option Z :=
  Fs.mtime_ms fs p.

(** [d[k] = v] on an insertion-ordered [dict]. *)
Definition dict_set {V} (k : string) (v : V) (d : list (string * V)) : list (string * V) :=
  if existsb (fun kv => bool_decide (kv.1 = k)) d
  then map (fun kv => if bool_decide (kv.1 = k) then (k, v) else kv) d
  else d ++ [(k, v)].

Definition path_to_state (txt_states : list (option NoteState))
    : list (string * NoteState) :=
  foldl (fun d st =>
           match st with
           | Some s => if PyStr.truthy (output_path s)
                       then dict_set (output_path s) s d else d
           | None => d
           end) [] txt_states.

(** The body of the loop over [path_to_state.items()]. *)
Definition check_tracked (fs : FileSystem) (entry : string * NoteState)
    : list ChangedFile :=
  let '(out, state) := entry in
  if negb (Fs.exists_ fs out) then
    [ {| change_path := out; change_type := DELETED;
         change_apple_note_id := apple_note_id state;
         new_content_hash := None; new_modified_at := None;
         previous_hash := supernote_content_hash state |} ]
  else
    match compute_content_hash fs out, get_file_mtime_ms fs out with
    | Some current_hash, Some current_mtime =>
        match supernote_content_hash state with
        | Some prev =>
            if PyStr.truthy prev && negb (bool_decide (current_hash = prev)) then
              [ {| change_path := out; change_type := MODIFIED;
                   change_apple_note_id := apple_note_id state;
                   new_content_hash := Some current_hash;
                   new_modified_at := Some current_mtime;
                   previous_hash := Some prev |} ]
            else []
        | None => []
        end
    | _, _ => []    (* except Exception: log and continue *)
    end.

Definition scan_for_changes (d : StateDatabase) (fs : FileSystem) : list ChangedFile :=
  flat_map (check_tracked fs) (path_to_state (StateDb.get_all_txt_states d)).

Definition tracked_paths (d : StateDatabase) : list string :=
  omap (fun st => output_path <$> st) (StateDb.get_all_txt_states d).

Definition scan_for_new_files (root : string) (d : StateDatabase) (fs : FileSystem)
    : list string :=
  if negb (Fs.exists_ fs root) then []
  else List.filter (fun p => negb (bool_decide (p ∈ tracked_paths d)))
                   (Fs.rglob_txt fs root).

Definition get_apple_folder_path (root p : string) : string :=
  match PyPath.relative_to root p with
  | Some rel =>
      let folder := PyPath.parent_str rel in
      if bool_decide (folder = ".") then "" else folder
  | None => ""
  end.

(** [txt_path.stem] *)
Definition get_note_title_from_path (txt_path : string) : string :=
  PyPath.stem txt_path.

End WithEnv.
End Watcher.

(** ** The reverse applier ([unifier/sync/reverse.py]) *)

Record ReverseSyncResult : Type := mkResult {
  res_success : bool;
  res_apple_note_id : string;
  res_action : string;
  res_error : option string;
  res_original_backed_up : bool
}.

Definition ORIGINALS_FOLDER_NAME : string := "Originals (Supernote Sync)".

Definition nl : string := String "010"%char EmptyString.

Module Reverse.
Section WithEnv.
Variable E : Env.

Definition jstr (v : json) : string :=
  match v with
  | JStr s => s
  | _ => py_repr E v
  end.

Definition _run_swift_command (args : list string) : M jobj :=
  t <- gets trace ;;
  log (EvBridge args) ;;;
  match bridge E t args with
  | Ok o => ret o
  | Raise e => raise ("Swift bridge error: " ++ e)
  end.

(** The cache holds the value the bridge gave, whatever its type; it is
    used when it is truthy. *)
Definition _ensure_originals_folder : M json :=
  cached <- gets originals_folder_id ;;
  if Json.truthy (default JNull cached) then ret (default JNull cached)
  else
    result <- _run_swift_command ["get-folder-by-name"; ORIGINALS_FOLDER_NAME] ;;
    if Json.truthy (default JNull (Json.get "found" result)) then
      i <- require (Json.get "id" result) "KeyError: 'id'" ;;
      set_originals_folder_id i ;;;
      ret i
    else
      result <- _run_swift_command ["create-folder"; ORIGINALS_FOLDER_NAME] ;;
      i <- require (Json.get "id" result) "KeyError: 'id'" ;;
      set_originals_folder_id i ;;;
      ret i.

(** An argument of the bridge command line: [subprocess.run] raises
    [TypeError] for anything but text, before the command is started. *)
Definition command_argument (v : json) : M string :=
  match v with
  | JStr s => ret s
  | _ => raise "TypeError: expected str, bytes or os.PathLike object"
  end.

Definition _get_apple_note_content (note_id : string) : M (option jobj) :=
  catch (r <- _run_swift_command ["export-note"; note_id; "--html"] ;; ret (Some r))
        (fun _ => ret None).

Definition metadata_html (timestamp why note_id original : string) : string :=
  nl ++ "<div><b>Original Backup</b></div>" ++ nl ++
  "<div>Backed up: " ++ timestamp ++ "</div>" ++ nl ++
  "<div>Reason: " ++ why ++ "</div>" ++ nl ++
  "<div>Original Note ID: " ++ note_id ++ "</div>" ++ nl ++
  "<div><br></div>" ++ nl ++
  "<div>--- Original Content Below ---</div>" ++ nl ++
  "<div><br></div>" ++ nl ++
  original ++ nl.

Definition record_original (note_id content : string) (html : option string)
    (why : string) (backup_id : option string) : M unit :=
  now <- gets (fun w => now_iso E (trace w)) ;;
  let row := StateDb.original_row now note_id content html why backup_id in
  modify_db (StateDb.record_original row) ;;;
  log (EvOriginal row).

Definition _backup_to_originals (note_id why : string) : M bool :=
  catch
    (note_data <- _get_apple_note_content note_id ;;
     match note_data with
     | None | Some [] => ret false
     | Some nd =>
         let original_html := jtext E "bodyHTML" "" nd in
         let note_name := jtext E "name" "Untitled" nd in
         folder_id <- _ensure_originals_folder ;;
         timestamp <- gets (fun w => now_stamp E (trace w)) ;;
         let backup_name := note_name ++ " (Original " ++ timestamp ++ ")" in
         folder_arg <- command_argument folder_id ;;
         result <- _run_swift_command
                     ["create-note"; "--name"; backup_name;
                      "--html-file"; metadata_html timestamp why note_id original_html;
                      "--folder-id"; folder_arg] ;;
         (* original_content is NOT NULL *)
         original_plaintext <- require (jcolumn E "bodyPlainText" "" nd)
                                 "IntegrityError: originals.original_content" ;;
         record_original note_id original_plaintext (jcolumn E "bodyHTML" "" nd) why
                         (jtext_opt E "id" result) ;;;
         ret true
     end)
    (fun _ => ret false).

Definition _compute_content_hash (content : string) : string := sha16 E content.

Definition failed (note_id : string) (e : string) : ReverseSyncResult :=
  {| res_success := false; res_apple_note_id := note_id; res_action := "failed";
     res_error := Some e; res_original_backed_up := false |}.

Definition sync_modified_file (change : ChangedFile) : M ReverseSyncResult :=
  let note_id := change_apple_note_id change in
  catch
    (present <- gets (fun w => Fs.exists_ (fs w) (change_path change)) ;;
     if negb present then
       ret {| res_success := false; res_apple_note_id := note_id;
              res_action := "skipped"; res_error := Some "File no longer exists";
              res_original_backed_up := false |}
     else
       text <- gets (fun w => Fs.read_text (fs w) (change_path change)) ;;
       new_content <- require text "cannot read file" ;;
       let new_hash := _compute_content_hash new_content in
       echo <- gets (fun w => StateDb.is_echo_from_supernote (db w) note_id new_hash) ;;
       if echo then
         ret {| res_success := true; res_apple_note_id := note_id;
                res_action := "skipped"; res_error := Some "Echo from forward sync";
                res_original_backed_up := false |}
       else
         backup_success <- _backup_to_originals note_id
             ("Modified on Supernote: " ++ PyPath.name (change_path change)) ;;
         let '(title, body_markdown) := extract_title_from_markdown E new_content in
         let html_body := markdown_to_apple_html E body_markdown in
         _run_swift_command ["update-note"; note_id; "--html-file"; html_body] ;;;
         let html_hash := _compute_content_hash html_body in
         modify_db (StateDb.update_apple_written_hash note_id html_hash) ;;;
         modify_db (StateDb.update_supernote_state note_id new_hash
                      (default 0 (new_modified_at change))) ;;;
         ret {| res_success := true; res_apple_note_id := note_id;
                res_action := "updated"; res_error := None;
                res_original_backed_up := backup_success |})
    (fun e => ret (failed note_id e)).

Definition sync_deleted_file (change : ChangedFile) : M ReverseSyncResult :=
  let note_id := change_apple_note_id change in
  catch
    (backup_success <- _backup_to_originals note_id
         ("Deleted on Supernote: " ++ PyPath.name (change_path change)) ;;
     _run_swift_command ["delete-note"; note_id] ;;;
     ret {| res_success := true; res_apple_note_id := note_id;
            res_action := "deleted"; res_error := None;
            res_original_backed_up := backup_success |})
    (fun e => ret (failed note_id e)).

(** [ChangeType] has two members, so the final [else] of the source is
    not reachable. *)
Definition process_change (change : ChangedFile) : M ReverseSyncResult :=
  match change_type change with
  | MODIFIED => sync_modified_file change
  | DELETED => sync_deleted_file change
  end.

Definition create_apple_note_from_txt (txt_path apple_folder_path : string)
    : M ReverseSyncResult :=
  catch
    (present <- gets (fun w => Fs.exists_ (fs w) txt_path) ;;
     if negb present then ret (failed "" ("File not found: " ++ txt_path))
     else
       text <- gets (fun w => Fs.read_text (fs w) txt_path) ;;
       content <- require text "cannot read file" ;;
       let '(title0, body_markdown) := extract_title_from_markdown E content in
       let html_body := markdown_to_apple_html E body_markdown in
       let title :=
         if negb (PyStr.truthy title0) || bool_decide (title0 = "Untitled")
         then PyPath.stem txt_path else title0 in
       result <-
         (if PyStr.truthy apple_folder_path then
            _run_swift_command
              ["create-note"; "--name"; title; "--html-file"; html_body;
               "--folder-name"; PyStr.last_segment "/"%char apple_folder_path]
          else
            _run_swift_command
              ["create-note"; "--name"; title; "--html-file"; html_body]) ;;
       let new_note_id := default (JStr "") (Json.get "id" result) in
       if Json.truthy new_note_id then
         let html_hash := _compute_content_hash html_body in
         modify_db (StateDb.update_apple_written_hash (jstr new_note_id) html_hash) ;;;
         ret {| res_success := true; res_apple_note_id := jstr new_note_id;
                res_action := "created"; res_error := None;
                res_original_backed_up := false |}
       else ret (failed "" "No note ID returned"))
    (fun e => ret (failed "" e)).

End WithEnv.
End Reverse.

(** ** The forward loop ([unifier/orchestrator.py]) *)

(** The summary [dict] of [Orchestrator.run], without the two content-type
    counters that no caller in the driver reads. *)
Record RunStats : Type := mkRun {
  run_total : Z;
  run_created : Z;
  run_updated : Z;
  run_skipped : Z;
  run_failed : Z;
  run_errors : list jobj
}.

Module Orchestrator.

(** [Orchestrator(supernote_base, ...)]: the constructor finds the output
    directory and creates it when it is missing.  Opening the state database
    creates the tables only when they are missing, which is what the model
    starts from; the cloud handler only reads its configuration.  An
    orchestrator has no [backup_dir]. *)
Definition init (base : string) : M Config :=
  out <- Paths.ensure_apple_notes_directory base ;;
  ret {| supernote_base := base; output_base := out; backup_dir := "" |}.

Section WithEnv.
Variable E : Env.
Variable cfg : Config.

Definition _compute_hash (note : jobj) : string :=
  sha16 E (jtext E "name" "" note ++ "|" ++ jtext E "bodyPlainText" "" note ++ "|" ++
           jtext E "modificationDate" "" note).

(** A missing bridge executable is one of the ways the oracle fails. *)
Definition _export_apple_notes : M jobj :=
  t <- gets trace ;;
  log (EvBridge ["export-all"; "--html"; "--attachments"]) ;;;
  match bridge E t ["export-all"; "--html"; "--attachments"] with
  | Ok o => ret o
  | Raise e => raise ("Swift bridge failed: " ++ e)
  end.

Definition run_generator (note : jobj) : M GeneratorResult :=
  fun w =>
    let '(r, fs') := generate E note (fs w) in
    (r, {| db := db w; fs := fs'; originals_folder_id := originals_folder_id w;
           trace := trace w |}).

Definition count_written (existing : option NoteState) (st : RunStats) : RunStats :=
  match existing with
  | Some _ => {| run_total := run_total st; run_created := run_created st;
                 run_updated := run_updated st + 1; run_skipped := run_skipped st;
                 run_failed := run_failed st; run_errors := run_errors st |}
  | None => {| run_total := run_total st; run_created := run_created st + 1;
               run_updated := run_updated st; run_skipped := run_skipped st;
               run_failed := run_failed st; run_errors := run_errors st |}
  end.

(** The body of the loop over the exported notes.  The registration of the
    written file with the Mirror's own cloud database touches nothing
    modelled here and is left out. *)
Definition process_note (dry_run : bool) (st : RunStats) (item : json) : M RunStats :=
  match item with
  | JObj note =>
      id_v <- require (Json.get "id" note) "KeyError: 'id'" ;;
      let note_id := Reverse.jstr E id_v in
      let content_hash := _compute_hash note in
      existing_state <- gets (fun w => StateDb.get_note_state (db w) note_id) ;;
      needed <- gets (fun w => StateDb.needs_update (db w) note_id content_hash) ;;
      if negb needed then
        ret {| run_total := run_total st; run_created := run_created st;
               run_updated := run_updated st; run_skipped := run_skipped st + 1;
               run_failed := run_failed st; run_errors := run_errors st |}
      else
        name_v <- require (Json.get "name" note) "KeyError: 'name'" ;;
        if dry_run then ret (count_written existing_state st)
        else
          result <- run_generator note ;;
          now <- gets (fun w => now_iso E (trace w)) ;;
          (* apple_folder_path is NOT NULL *)
          folder <- require (jcolumn E "folderPath" "" note)
                      "IntegrityError: note_state.apple_folder_path" ;;
          if gen_success result then
            modify_db (StateDb.record_success now note_id folder content_hash
                         (default "None" (gen_output_path result))
                         (gen_type_value result) None TO_SUPERNOTE false) ;;;
            ret (count_written existing_state st)
          else
            modify_db (StateDb.record_failure now note_id folder content_hash
                         (gen_type_value result) (gen_error result)) ;;;
            ret {| run_total := run_total st; run_created := run_created st;
                   run_updated := run_updated st; run_skipped := run_skipped st;
                   run_failed := run_failed st + 1;
                   run_errors := run_errors st ++
                     [[("note", name_v);
                       ("error", from_option JStr JNull (gen_error result))]] |}
  | _ => raise "TypeError: note is not an object"
  end.

(** [notes_data.get("notes", [])] as the sequence the loop walks. *)
Definition exported_notes (notes_data : jobj) : M (list json) :=
  match Json.get "notes" notes_data with
  | None => ret []
  | Some (JArr l) => ret l
  | Some (JStr "") | Some (JObj []) => ret []
  | Some _ => raise "TypeError: notes is not a list"
  end.

Definition run (dry_run : bool) : M RunStats :=
  mounted <- gets (fun w => Fs.exists_ (fs w) (supernote_base cfg)) ;;
  if negb mounted then
    raise ("Supernote volume not mounted: " ++ supernote_base cfg)
  else
    notes_data <- _export_apple_notes ;;
    notes <- exported_notes notes_data ;;
    for_each (process_note dry_run) notes
      {| run_total := Z.of_nat (length notes); run_created := 0; run_updated := 0;
         run_skipped := 0; run_failed := 0; run_errors := [] |}.

End WithEnv.
End Orchestrator.

(** ** The bidirectional driver ([unifier/sync/engine.py]) *)

Record BidirectionalSyncStats : Type := mkStats {
  forward_total : Z;
  forward_created : Z;
  forward_updated : Z;
  forward_skipped : Z;
  forward_failed : Z;
  reverse_modified : Z;
  reverse_deleted : Z;
  reverse_created : Z;
  reverse_skipped : Z;
  reverse_failed : Z;
  originals_backed_up : Z;
  conflicts_detected : Z;
  conflicts_resolved_apple_wins : Z;
  errors : list jobj
}.

Module Stats.

Definition zero : BidirectionalSyncStats :=
  {| forward_total := 0;
     forward_created := 0;
     forward_updated := 0;
     forward_skipped := 0;
     forward_failed := 0;
     reverse_modified := 0;
     reverse_deleted := 0;
     reverse_created := 0;
     reverse_skipped := 0;
     reverse_failed := 0;
     originals_backed_up := 0;
     conflicts_detected := 0;
     conflicts_resolved_apple_wins := 0;
     errors := [] |}.

Definition inc_reverse_modified (st : BidirectionalSyncStats) : BidirectionalSyncStats :=
  {| forward_total := forward_total st;
     forward_created := forward_created st;
     forward_updated := forward_updated st;
     forward_skipped := forward_skipped st;
     forward_failed := forward_failed st;
     reverse_modified := reverse_modified st + 1;
     reverse_deleted := reverse_deleted st;
     reverse_created := reverse_created st;
     reverse_skipped := reverse_skipped st;
     reverse_failed := reverse_failed st;
     originals_backed_up := originals_backed_up st;
     conflicts_detected := conflicts_detected st;
     conflicts_resolved_apple_wins := conflicts_resolved_apple_wins st;
     errors := errors st |}.

Definition inc_reverse_deleted (st : BidirectionalSyncStats) : BidirectionalSyncStats :=
  {| forward_total := forward_total st;
     forward_created := forward_created st;
     forward_updated := forward_updated st;
     forward_skipped := forward_skipped st;
     forward_failed := forward_failed st;
     reverse_modified := reverse_modified st;
     reverse_deleted := reverse_deleted st + 1;
     reverse_created := reverse_created st;
     reverse_skipped := reverse_skipped st;
     reverse_failed := reverse_failed st;
     originals_backed_up := originals_backed_up st;
     conflicts_detected := conflicts_detected st;
     conflicts_resolved_apple_wins := conflicts_resolved_apple_wins st;
     errors := errors st |}.

Definition inc_reverse_created (st : BidirectionalSyncStats) : BidirectionalSyncStats :=
  {| forward_total := forward_total st;
     forward_created := forward_created st;
     forward_updated := forward_updated st;
     forward_skipped := forward_skipped st;
     forward_failed := forward_failed st;
     reverse_modified := reverse_modified st;
     reverse_deleted := reverse_deleted st;
     reverse_created := reverse_created st + 1;
     reverse_skipped := reverse_skipped st;
     reverse_failed := reverse_failed st;
     originals_backed_up := originals_backed_up st;
     conflicts_detected := conflicts_detected st;
     conflicts_resolved_apple_wins := conflicts_resolved_apple_wins st;
     errors := errors st |}.

Definition inc_reverse_skipped (st : BidirectionalSyncStats) : BidirectionalSyncStats :=
  {| forward_total := forward_total st;
     forward_created := forward_created st;
     forward_updated := forward_updated st;
     forward_skipped := forward_skipped st;
     forward_failed := forward_failed st;
     reverse_modified := reverse_modified st;
     reverse_deleted := reverse_deleted st;
     reverse_created := reverse_created st;
     reverse_skipped := reverse_skipped st + 1;
     reverse_failed := reverse_failed st;
     originals_backed_up := originals_backed_up st;
     conflicts_detected := conflicts_detected st;
     conflicts_resolved_apple_wins := conflicts_resolved_apple_wins st;
     errors := errors st |}.

Definition inc_reverse_failed (st : BidirectionalSyncStats) : BidirectionalSyncStats :=
  {| forward_total := forward_total st;
     forward_created := forward_created st;
     forward_updated := forward_updated st;
     forward_skipped := forward_skipped st;
     forward_failed := forward_failed st;
     reverse_modified := reverse_modified st;
     reverse_deleted := reverse_deleted st;
     reverse_created := reverse_created st;
     reverse_skipped := reverse_skipped st;
     reverse_failed := reverse_failed st + 1;
     originals_backed_up := originals_backed_up st;
     conflicts_detected := conflicts_detected st;
     conflicts_resolved_apple_wins := conflicts_resolved_apple_wins st;
     errors := errors st |}.

Definition inc_originals_backed_up (st : BidirectionalSyncStats) : BidirectionalSyncStats :=
  {| forward_total := forward_total st;
     forward_created := forward_created st;
     forward_updated := forward_updated st;
     forward_skipped := forward_skipped st;
     forward_failed := forward_failed st;
     reverse_modified := reverse_modified st;
     reverse_deleted := reverse_deleted st;
     reverse_created := reverse_created st;
     reverse_skipped := reverse_skipped st;
     reverse_failed := reverse_failed st;
     originals_backed_up := originals_backed_up st + 1;
     conflicts_detected := conflicts_detected st;
     conflicts_resolved_apple_wins := conflicts_resolved_apple_wins st;
     errors := errors st |}.

Definition inc_conflicts_detected (st : BidirectionalSyncStats) : BidirectionalSyncStats :=
  {| forward_total := forward_total st;
     forward_created := forward_created st;
     forward_updated := forward_updated st;
     forward_skipped := forward_skipped st;
     forward_failed := forward_failed st;
     reverse_modified := reverse_modified st;
     reverse_deleted := reverse_deleted st;
     reverse_created := reverse_created st;
     reverse_skipped := reverse_skipped st;
     reverse_failed := reverse_failed st;
     originals_backed_up := originals_backed_up st;
     conflicts_detected := conflicts_detected st + 1;
     conflicts_resolved_apple_wins := conflicts_resolved_apple_wins st;
     errors := errors st |}.

Definition inc_conflicts_resolved_apple_wins (st : BidirectionalSyncStats) : BidirectionalSyncStats :=
  {| forward_total := forward_total st;
     forward_created := forward_created st;
     forward_updated := forward_updated st;
     forward_skipped := forward_skipped st;
     forward_failed := forward_failed st;
     reverse_modified := reverse_modified st;
     reverse_deleted := reverse_deleted st;
     reverse_created := reverse_created st;
     reverse_skipped := reverse_skipped st;
     reverse_failed := reverse_failed st;
     originals_backed_up := originals_backed_up st;
     conflicts_detected := conflicts_detected st;
     conflicts_resolved_apple_wins := conflicts_resolved_apple_wins st + 1;
     errors := errors st |}.

Definition add_error (e : jobj) (st : BidirectionalSyncStats) : BidirectionalSyncStats :=
  {| forward_total := forward_total st;
     forward_created := forward_created st;
     forward_updated := forward_updated st;
     forward_skipped := forward_skipped st;
     forward_failed := forward_failed st;
     reverse_modified := reverse_modified st;
     reverse_deleted := reverse_deleted st;
     reverse_created := reverse_created st;
     reverse_skipped := reverse_skipped st;
     reverse_failed := reverse_failed st;
     originals_backed_up := originals_backed_up st;
     conflicts_detected := conflicts_detected st;
     conflicts_resolved_apple_wins := conflicts_resolved_apple_wins st;
     errors := errors st ++ [e] |}.

End Stats.

Module Engine.

(** [BidirectionalSyncEngine(supernote_base, ..., backup_dir)] *)
Definition init (base backups : string) : M Config :=
  out <- Paths.ensure_apple_notes_directory base ;;
  ret {| supernote_base := base; output_base := out; backup_dir := backups |}.

Section WithEnv.
Variable E : Env.
Variable cfg : Config.

Definition create_backup : M (option string) :=
  catch
    (result <- Reverse._run_swift_command E
                 ["backup-all"; "--output-dir"; backup_dir cfg] ;;
     ret (jtext_opt E "backupPath" result))
    (fun _ => ret None).

Definition _compute_content_hash (note : jobj) : string :=
  sha16 E (jtext E "name" "" note ++ "|" ++ jtext E "bodyPlainText" "" note ++ "|" ++
           jtext E "modificationDate" "" note).

(** The conflict check of [run_reverse_sync]: [true] stands for the
    [continue] taken when the Source changed too. *)
Definition source_changed (change : ChangedFile) : M bool :=
  state <- gets (fun w => StateDb.get_note_state (db w) (change_apple_note_id change)) ;;
  match state with
  | Some st =>
      catch
        (apple_note <- Reverse._run_swift_command E
                         ["export-note"; change_apple_note_id change; "--html"] ;;
         let current_apple_hash := _compute_content_hash apple_note in
         ret (negb (bool_decide (current_apple_hash = content_hash st))))
        (fun _ => ret false)
  | None => ret false
  end.

Definition count_result (change : ChangedFile) (result : ReverseSyncResult)
    (st : BidirectionalSyncStats) : BidirectionalSyncStats :=
  if res_success result then
    let st1 :=
      if bool_decide (res_action result = "updated") then Stats.inc_reverse_modified st
      else if bool_decide (res_action result = "deleted") then Stats.inc_reverse_deleted st
      else if bool_decide (res_action result = "skipped") then Stats.inc_reverse_skipped st
      else st in
    if res_original_backed_up result then Stats.inc_originals_backed_up st1 else st1
  else
    Stats.add_error
      [("file", JStr (change_path change));
       ("apple_note_id", JStr (change_apple_note_id change));
       ("error", from_option JStr JNull (res_error result))]
      (Stats.inc_reverse_failed st).

(** The body of the loop over the detected changes. *)
Definition reverse_change (dry_run : bool) (st : BidirectionalSyncStats)
    (change : ChangedFile) : M BidirectionalSyncStats :=
  if dry_run then
    ret (match change_type change with
         | DELETED => Stats.inc_reverse_deleted st
         | MODIFIED => Stats.inc_reverse_modified st
         end)
  else
    conflict <- source_changed change ;;
    if conflict then
      ret (Stats.inc_reverse_skipped
             (Stats.inc_conflicts_resolved_apple_wins (Stats.inc_conflicts_detected st)))
    else
      result <- Reverse.process_change E change ;;
      ret (count_result change result st).

(** The body of the loop over the untracked files. *)
Definition reverse_new_file (dry_run : bool) (st : BidirectionalSyncStats)
    (txt_path : string) : M BidirectionalSyncStats :=
  let apple_folder_path := Watcher.get_apple_folder_path (output_base cfg) txt_path in
  if dry_run then ret (Stats.inc_reverse_created st)
  else
    result <- Reverse.create_apple_note_from_txt E txt_path apple_folder_path ;;
    if res_success result then ret (Stats.inc_reverse_created st)
    else ret (Stats.add_error
                [("file", JStr txt_path);
                 ("error", from_option JStr JNull (res_error result))]
                (Stats.inc_reverse_failed st)).

Definition run_reverse_sync (dry_run : bool) : M BidirectionalSyncStats :=
  changes <- gets (fun w => Watcher.scan_for_changes E (db w) (fs w)) ;;
  st <- for_each (reverse_change dry_run) changes Stats.zero ;;
  new_files <- gets (fun w => Watcher.scan_for_new_files (output_base cfg) (db w) (fs w)) ;;
  for_each (reverse_new_file dry_run) new_files st.

Definition run_forward_sync (dry_run : bool) : M BidirectionalSyncStats :=
  orchestrator <- Orchestrator.init (supernote_base cfg) ;;
  result <- Orchestrator.run E orchestrator dry_run ;;
  ret {| forward_total := run_total result; forward_created := run_created result;
         forward_updated := run_updated result; forward_skipped := run_skipped result;
         forward_failed := run_failed result;
         reverse_modified := 0; reverse_deleted := 0; reverse_created := 0;
         reverse_skipped := 0; reverse_failed := 0; originals_backed_up := 0;
         conflicts_detected := 0; conflicts_resolved_apple_wins := 0;
         errors := run_errors result |}.

Definition run_bidirectional (dry_run with_backup : bool) : M BidirectionalSyncStats :=
  (if with_backup && negb dry_run then create_backup ;;; ret tt else ret tt) ;;;
  reverse_stats <- run_reverse_sync dry_run ;;
  forward_stats <- run_forward_sync dry_run ;;
  ret {| forward_total := forward_total forward_stats;
         forward_created := forward_created forward_stats;
         forward_updated := forward_updated forward_stats;
         forward_skipped := forward_skipped forward_stats;
         forward_failed := forward_failed forward_stats;
         reverse_modified := reverse_modified reverse_stats;
         reverse_deleted := reverse_deleted reverse_stats;
         reverse_created := 0;
         reverse_skipped := reverse_skipped reverse_stats;
         reverse_failed := reverse_failed reverse_stats;
         originals_backed_up := originals_backed_up reverse_stats;
         conflicts_detected := conflicts_detected reverse_stats;
         conflicts_resolved_apple_wins := conflicts_resolved_apple_wins reverse_stats;
         errors := errors reverse_stats ++ errors forward_stats |}.

(** The body of the loop of [update_supernote_hashes]. *)
Definition refresh_state (_ : unit) (state : option NoteState) : M unit :=
  match state with
  | None => ret tt
  | Some st =>
      if negb (PyStr.truthy (output_path st)) then ret tt
      else
        present <- gets (fun w => Fs.exists_ (fs w) (output_path st)) ;;
        if negb present then ret tt
        else
          h <- gets (fun w => Watcher.compute_content_hash E (fs w) (output_path st)) ;;
          m <- gets (fun w => Watcher.get_file_mtime_ms (fs w) (output_path st)) ;;
          match h, m with
          | Some content_hash, Some modified_at =>
              modify_db (StateDb.update_supernote_state (apple_note_id st)
                           content_hash modified_at)
          | _, _ => ret tt     (* except Exception: log a warning *)
          end
  end.

Definition update_supernote_hashes : M unit :=
  txt_states <- gets (fun w => StateDb.get_all_txt_states (db w)) ;;
  for_each refresh_state txt_states tt.

End WithEnv.
End Engine.

(** ** The [sync] command ([unifier/cli.py]), without its reporting *)

Inductive Direction : Type := DirForward | DirReverse | DirBoth.

Module Cli.
Section WithEnv.
Variable E : Env.
Variable cfg : Config.

(** [cfg] holds what the command line gives: the [--supernote-path] option
    and the default backup directory; the output directory is the one the
    constructors find.  The state directory the command creates first is not
    on the Mirror.  Every exception ends the command with [Abort]. *)
Definition sync (direction : Direction) (backup dry_run : bool) : M unit :=
  mounted <- gets (fun w => bool_decide (supernote_base cfg ∈ dirs (fs w))) ;;
  if negb mounted then raise "Abort"
  else
    catch
      (match direction with
       | DirBoth =>
           engine <- Engine.init (supernote_base cfg) (backup_dir cfg) ;;
           Engine.run_bidirectional E engine dry_run backup ;;; ret tt
       | DirReverse =>
           engine <- Engine.init (supernote_base cfg) (backup_dir cfg) ;;
           (if backup && negb dry_run then Engine.create_backup E engine ;;; ret tt
            else ret tt) ;;;
           Engine.run_reverse_sync E engine dry_run ;;; ret tt
       | DirForward =>
           orchestrator <- Orchestrator.init (supernote_base cfg) ;;
           Orchestrator.run E orchestrator dry_run ;;;
           if negb dry_run then
             Engine.init (supernote_base cfg) (backup_dir cfg) ;;;
             Engine.update_supernote_hashes E
           else ret tt
       end)
      (fun _ => raise "Abort").

End WithEnv.
End Cli.

(** * Notions used in the statements *)

(** The primary key of [note_state]. *)
Definition pk_unique (d : StateDatabase) : Prop :=
  NoDup (apple_note_id <$> note_state d).

(** The keys of [note_state] with the Source fingerprint stored under each. *)
Definition source_hashes (d : StateDatabase) : list (string * string) :=
  map (fun r => (apple_note_id r, content_hash r)) (note_state d).

(** A computation that neither adds nor removes a [note_state] row and
    leaves every stored [content_hash] as it was, however it ends. *)
Definition keeps_source_hashes {A} (m : M A) : Prop :=
  forall w, source_hashes (db (m w).2) = source_hashes (db w).

(** The bridge command of an event. *)
Definition command (e : Event) : option string :=
  match e with
  | EvBridge (c :: _) => Some c
  | _ => None
  end.

(** The tracked text state the detector keeps for a path: the last one in
    row order whose [output_path] is that path. *)
Definition tracked_state_for (d : StateDatabase) (p : string) : option NoteState :=
  last (List.filter (fun st => bool_decide (output_path st = p))
                    (omap id (StateDb.get_all_txt_states d))).

(** The commands [_backup_to_originals] issues: reading the note, finding or
    creating the Originals folder, and creating the copy there. *)
Definition backup_command (e : Event) : bool :=
  match command e with
  | Some c => bool_decide (c ∈ ["export-note"; "get-folder-by-name"; "create-folder";
                                "create-note"])
  | None => false
  end.

(** The [ChangedFile] the detector builds for a modified file. *)
Definition modified_change (E : Env) (st : NoteState) (h content : string) (mtime : Z)
    : ChangedFile :=
  {| change_path := output_path st; change_type := MODIFIED;
     change_apple_note_id := apple_note_id st;
     new_content_hash := Some (sha16 E content);
     new_modified_at := Some mtime;
     previous_hash := Some h |}.

(** The [ChangedFile] the detector builds for a deleted file. *)
Definition deleted_change (st : NoteState) : ChangedFile :=
  {| change_path := output_path st; change_type := DELETED;
     change_apple_note_id := apple_note_id st;
     new_content_hash := None; new_modified_at := None;
     previous_hash := supernote_content_hash st |}.

(** A relative folder path as [pathlib] prints it: no empty and no [.]
    component. *)
Definition normal_folder (folder : string) : bool :=
  forallb (fun seg => negb (bool_decide (seg = "")) && negb (bool_decide (seg = ".")))
          (PyStr.split_on "/"%char folder).

(** What [update_supernote_hashes] makes of one row, given the Mirror: the
    fingerprint and mtime of the file of a tracked text row are stored, when
    the file is there and can be read. *)
Definition refreshed (E : Env) (f : FileSystem) (r : NoteState) : NoteState :=
  if StateDb.txt_row r && PyStr.truthy (output_path r) && Fs.exists_ f (output_path r) then
    match Watcher.compute_content_hash E f (output_path r),
          Watcher.get_file_mtime_ms f (output_path r) with
    | Some h, Some m => StateDb.set_supernote h m r
    | _, _ => r
    end
  else r.

(** A computation that ends without an exception, whatever the world. *)
Definition never_raises {A} (m : M A) : Prop :=
  forall w, exists a w', m w = (Ok a, w').

(** A computation that leaves one aspect [view] of the world as it was,
    however it ends. *)
Definition keeps {B A} (view : World -> B) (m : M A) : Prop :=
  forall w, view (m w).2 = view w.

(** The [note_state] table. *)
Definition rows_of (w : World) : list NoteState := note_state (db w).

(** What makes a row a tracked output: its key, its path and its outcome. *)
Definition tracking (w : World) : list (string * string * bool) :=
  map (fun r => (apple_note_id r, output_path r, success r)) (note_state (db w)).

(** The number of items the reverse phase has accounted for. *)
Definition handled (st : BidirectionalSyncStats) : Z :=
  reverse_modified st + reverse_deleted st + reverse_skipped st + reverse_failed st +
  reverse_created st.

(** The number of notes the forward loop has accounted for. *)
Definition run_handled (st : RunStats) : Z :=
  run_created st + run_updated st + run_skipped st + run_failed st.

(** The [create-note] command for a new Mirror file. *)
Definition create_note_command (E : Env) (txt_path apple_folder_path content : string)
    : list string :=
  let '(title0, body_markdown) := extract_title_from_markdown E content in
  let title := if negb (PyStr.truthy title0) || bool_decide (title0 = "Untitled")
               then PyPath.stem txt_path else title0 in
  (["create-note"; "--name"; title; "--html-file"; markdown_to_apple_html E body_markdown] ++
   (if PyStr.truthy apple_folder_path
    then ["--folder-name"; PyStr.last_segment "/"%char apple_folder_path] else []))%list.

(** The result [sync_modified_file] gives for an echo of the forward pass. *)
Definition echo_result (id : string) : ReverseSyncResult :=
  {| res_success := true; res_apple_note_id := id; res_action := "skipped";
     res_error := Some "Echo from forward sync"; res_original_backed_up := false |}.

(** The counters of the reverse phase that move together: one error entry
    per failure, every detected conflict resolved for the Source and counted
    as skipped, and no more backups than applied changes. *)
Definition balanced (st : BidirectionalSyncStats) : Prop :=
  Z.of_nat (length (errors st)) = reverse_failed st /\
  conflicts_resolved_apple_wins st = conflicts_detected st /\
  conflicts_detected st <= reverse_skipped st /\
  originals_backed_up st <= reverse_modified st + reverse_deleted st.

(** [n] items accounted for so far. *)
Definition counted (st : BidirectionalSyncStats) (n : Z) : Prop :=
  handled st = n /\ balanced st /\ 0 <= reverse_created st.

(** [stats["skipped"] += 1] *)
Definition skip_one (st : RunStats) : RunStats :=
  {| run_total := run_total st; run_created := run_created st;
     run_updated := run_updated st; run_skipped := run_skipped st + 1;
     run_failed := run_failed st; run_errors := run_errors st |}.

(** The one bridge command of the forward loop. *)
Definition export_all : Event := EvBridge ["export-all"; "--html"; "--attachments"].

(** A path text that starts with one slash followed by a component. *)
Definition plain_absolute (p : string) : bool :=
  match p with
  | String a (String b _) => Ascii.eqb a "/"%char && negb (Ascii.eqb b "/"%char)
  | _ => false
  end.

(** A file or directory name: one component that [pathlib] keeps. *)
Definition plain_name (n : string) : bool := negb (occurs "/"%char n) && PyPath.kept n.

(** The Mirror after the directory [p] was created. *)
Definition add_dir (f : FileSystem) (p : string) : FileSystem :=
  {| files := files f; dirs := dirs f ++ [p] |}.

Definition with_dir (w : World) (p : string) : World :=
  {| db := db w; fs := add_dir (fs w) p;
     originals_folder_id := originals_folder_id w; trace := trace w |}.

(** What [get_note_directory] finds on a Mirror. *)
Definition note_directory_at (f : FileSystem) (base : string) : Res (option string) :=
  let data_path := base ++ "/data" in
  if negb (Fs.exists_ f data_path) then Ok None
  else if negb (bool_decide (data_path ∈ dirs f)) then Raise "NotADirectoryError"
  else
    match find (fun item => occurs "@"%char (PyPath.name item) &&
                            Fs.exists_ f (item ++ "/Supernote"))
               (Paths.child_dirs f data_path) with
    | Some item =>
        if Fs.exists_ f ((item ++ "/Supernote") ++ "/Note")
        then Ok (Some ((item ++ "/Supernote") ++ "/Note")) else Ok None
    | None => Ok None
    end.

(** What a dry run may leave behind: nothing in the database, no file, no
    cached folder id; at most the one [export-all] command; and at most the
    output directory, which the constructors create when it is missing. *)
Definition dry_run_footprint (base : string) (w w' : World) : Prop :=
  db w' = db w /\ files (fs w') = files (fs w) /\
  originals_folder_id w' = originals_folder_id w /\
  (trace w' = trace w \/ trace w' = (trace w ++ [export_all])%list) /\
  (dirs (fs w') = dirs (fs w) \/
   exists nd, note_directory_at (fs w) base = Ok (Some nd) /\
              ((nd ++ "/Apple") ∉ dirs (fs w)) /\
              dirs (fs w') = (dirs (fs w) ++ [(nd ++ "/Apple")%string])%list).







(** * A scripted environment for the examples

    A stand-in fingerprint and stand-in converters, a bridge that answers
    every command, and one Source note. *)

Module Demo.

Definition note_dir : string := "/sn/data/me@x.org/Supernote/Note".

Definition root : string := note_dir ++ "/Apple".

Definition cfg : Config :=
  {| supernote_base := "/sn"; output_base := root; backup_dir := "/backups" |}.

Definition tag_hash (s : string) : string := "h:" ++ s.

Definition first_line_title (s : string) : string * string :=
  match PyStr.split_on "010"%char s with
  | t :: rest => (t, PyStr.join nl rest)
  | [] => ("Untitled", s)
  end.

Definition div_html (s : string) : string := "<div>" ++ s ++ "</div>".

Definition note_plan : jobj :=
  [("id", JStr "N1"); ("name", JStr "Plan"); ("bodyPlainText", JStr "apple text");
   ("bodyHTML", JStr "<div>apple text</div>"); ("modificationDate", JStr "D2");
   ("folderPath", JStr "Work")].

Definition answer (args : list string) : Res jobj :=
  match head args with
  | Some c =>
      if bool_decide (c = "export-note") then Ok note_plan
      else if bool_decide (c = "export-all") then Ok [("notes", JArr [JObj note_plan])]
      else if bool_decide (c = "get-folder-by-name")
           then Ok [("found", JBool true); ("id", JStr "F-ORIG")]
      else if bool_decide (c = "create-folder") then Ok [("id", JStr "F-ORIG")]
      else if bool_decide (c = "create-note") then Ok [("id", JStr "NEW1")]
      else if bool_decide (c = "update-note") then Ok [("success", JBool true)]
      else if bool_decide (c = "delete-note") then Ok [("success", JBool true)]
      else if bool_decide (c = "backup-all") then Ok [("backupPath", JStr "/backups/b1.json")]
      else Raise "unknown command"
  | None => Raise "no command"
  end.

(** Every command succeeds. *)
Definition bridge_up (_ : list Event) (args : list string) : Res jobj := answer args.


Definition text_of (v : json) : option string :=
  match v with JStr s => Some s | _ => None end.

Definition plan_path : string := root ++ "/Work/Plan.txt".

(** A text generator: writes [# name], a blank line and the plain text
    to [root/folderPath/name.txt]. *)
Definition write_txt (note : jobj) (f : FileSystem) : Res GeneratorResult * FileSystem :=
  let out := root ++ "/" ++ default "" (Json.get "folderPath" note ≫= text_of) ++ "/" ++
             default "" (Json.get "name" note ≫= text_of) ++ ".txt" in
  (Ok {| gen_success := true; gen_output_path := Some out; gen_error := None;
         gen_type_value := "text" |},
   {| files := <[out := {| file_text := Some "generated"; file_mtime_ms := 2000 |}]>
                 (files f);
      dirs := dirs f |}).

Definition env (b : list Event -> list string -> Res jobj) : Env :=
  {| sha16 := tag_hash; bridge := b;
     now_iso := fun _ => "2026-01-01T00:00:00";
     now_stamp := fun _ => "2026-01-01 00:00";
     extract_title_from_markdown := first_line_title;
     markdown_to_apple_html := div_html;
     py_repr := fun _ => "?";
     generate := write_txt |}.

Definition env_up : Env := env bridge_up.

Definition row (id chash out : string) (ok : bool) (sn : option string) : NoteState :=
  {| apple_note_id := id; apple_folder_path := "Work"; content_hash := chash;
     last_processed := "2025-12-31T00:00:00"; output_path := out;
     generator_type := "text"; success := ok; error := None;
     supernote_content_hash := sn; supernote_modified_at := None;
     last_sync_direction := Some TO_SUPERNOTE; apple_written_hash := None;
     is_locked := false |}.

Definition disk (l : list (string * string)) : FileSystem :=
  {| files := list_to_map
                (map (fun pc => (pc.1, {| file_text := Some pc.2; file_mtime_ms := 1000 |})) l);
     dirs := ["/sn"; "/sn/data"; "/sn/data/me@x.org"; "/sn/data/me@x.org/Supernote";
              note_dir; root; root ++ "/Work"] |}.

Definition world (rows : list NoteState) (f : FileSystem) : World :=
  {| db := {| note_state := rows; originals := [] |}; fs := f;
     originals_folder_id := None; trace := [] |}.

(** The hash the engine computes for [note_plan]. *)
Definition plan_hash : string := "h:Plan|apple text|D2".

(** [N1] is tracked and its Mirror file was edited; [chash] is the stored
    Source fingerprint. *)
Definition world_edited (chash : string) : World :=
  world [row "N1" chash plan_path true (Some "h:old")]
        (disk [(plan_path, "Plan" ++ nl ++ "mirror edit")]).

Definition plan_modified : ChangedFile :=
  {| change_path := plan_path; change_type := MODIFIED;
     change_apple_note_id := "N1";
     new_content_hash := Some (tag_hash ("Plan" ++ nl ++ "mirror edit"));
     new_modified_at := Some 1000; previous_hash := Some "h:old" |}.

(** [N1] is tracked and its Mirror file was deleted. *)
Definition world_deleted : World :=
  world [row "N1" plan_hash plan_path true (Some "h:old")] (disk []).

Definition plan_deleted : ChangedFile :=
  {| change_path := plan_path; change_type := DELETED;
     change_apple_note_id := "N1"; new_content_hash := None;
     new_modified_at := None; previous_hash := Some "h:old" |}.

(** An untracked file written on the Mirror by hand. *)
Definition idea_path : string := root ++ "/Work/Projects/Idea.txt".

Definition world_new_file : World :=
  world [] (disk [(idea_path, "Idea" ++ nl ++ "body")]).



(** Nothing synchronised yet. *)
Definition world_fresh : World := world [] (disk []).

(** A Mirror on which the output directory was never created. *)
Definition world_unprepared : World :=
  world [] {| files := ∅;
              dirs := ["/sn"; "/sn/data"; "/sn/data/me@x.org";
                       "/sn/data/me@x.org/Supernote"; note_dir] |}.



End Demo.

(** * Properties *)

(** ** The state store *)

Section StateStore.
Import StateDb.

Lemma get_note_state_id (d : StateDatabase) (id : string) (st : NoteState) :
  get_note_state d id = Some st -> apple_note_id st = id.
Proof.
  unfold get_note_state. intros H. apply find_some in H as [_ H].
  unfold has_id in H. by apply bool_decide_eq_true in H.
Qed.

Lemma get_note_state_in (d : StateDatabase) (id : string) (st : NoteState) :
  get_note_state d id = Some st -> In st (note_state d).
Proof. unfold get_note_state. intros H. by apply find_some in H as [H _]. Qed.

Lemma find_app_last {A} (f : A -> bool) (l : list A) (x : A) :
  find f (l ++ [x]) =
  match find f l with Some y => Some y | None => if f x then Some x else None end.
Proof.
  induction l as [|a l IH]; simpl; [done|].
  destruct (f a); [done|]. apply IH.
Qed.

Lemma find_filter_none {A} (f : A -> bool) (l : list A) :
  find f (List.filter (fun a => negb (f a)) l) = None.
Proof.
  induction l as [|a l IH]; simpl; [done|].
  destruct (f a) eqn:Hf; simpl; [done|]. by rewrite Hf.
Qed.

Lemma find_filter_other {A} (f g : A -> bool) (l : list A) :
  (forall a, f a = true -> g a = true) ->
  find f (List.filter g l) = find f l.
Proof.
  intros Hfg. induction l as [|a l IH]; simpl; [done|].
  destruct (g a) eqn:Hg; simpl.
  - destruct (f a); [done|]. apply IH.
  - destruct (f a) eqn:Hf; [|apply IH]. apply Hfg in Hf. congruence.
Qed.

(** [INSERT OR REPLACE] makes the new row the one stored under its key. *)
Lemma get_insert_or_replace_eq (row : NoteState) (d : StateDatabase) :
  get_note_state (insert_or_replace row d) (apple_note_id row) = Some row.
Proof.
  unfold get_note_state, insert_or_replace. simpl.
  rewrite find_app_last, find_filter_none.
  unfold has_id. by rewrite bool_decide_eq_true_2.
Qed.

(** ... and leaves the rows under other keys alone. *)
Lemma get_insert_or_replace_ne (row : NoteState) (d : StateDatabase) (id : string) :
  id <> apple_note_id row ->
  get_note_state (insert_or_replace row d) id = get_note_state d id.
Proof.
  intros Hne. unfold get_note_state, insert_or_replace. simpl.
  rewrite find_app_last.
  rewrite find_filter_other.
  - destruct (find (has_id id) (note_state d)); [done|].
    unfold has_id. rewrite bool_decide_eq_false_2; [done|]. congruence.
  - intros a Ha. unfold has_id in *. apply bool_decide_eq_true in Ha.
    apply negb_true_iff, bool_decide_eq_false. congruence.
Qed.

(** [UPDATE ... WHERE apple_note_id = ?] rewrites the row of that key, if
    there is one, and creates none. *)
Lemma get_update_where (id id' : string) (f : NoteState -> NoteState)
    (d : StateDatabase) :
  (forall r, apple_note_id (f r) = apple_note_id r) ->
  get_note_state (update_where id f d) id' =
  (fun r => if has_id id r then f r else r) <$> get_note_state d id'.
Proof.
  intros Hf. unfold get_note_state, update_where. simpl.
  induction (note_state d) as [|a l IH]; simpl; [done|].
  assert (has_id id' (if has_id id a then f a else a) = has_id id' a) as ->.
  { unfold has_id. destruct (bool_decide (apple_note_id a = id)); [|done].
    by rewrite Hf. }
  destruct (has_id id' a); [done|]. apply IH.
Qed.

End StateStore.

Section EchoChecks.
Import StateDb.

(** C10.  A note with no state record is never classified as an echo, by
    either check; and when the record exists but the stored
    [apple_written_hash] (resp. [supernote_content_hash]) is absent, the
    corresponding check answers [False] for every candidate hash. *)
Theorem echo_requires_recorded_hash (d : StateDatabase) (id h : string) :
  (get_note_state d id = None ->
     is_echo_from_apple d id h = false /\ is_echo_from_supernote d id h = false) /\
  (forall st, get_note_state d id = Some st ->
     (apple_written_hash st = None -> is_echo_from_apple d id h = false) /\
     (supernote_content_hash st = None -> is_echo_from_supernote d id h = false)).
Proof.
  unfold is_echo_from_apple, is_echo_from_supernote. split.
  - intros ->. done.
  - intros st ->. split; intros ->; by apply bool_decide_eq_false_2.
Qed.

Lemma echo_requires_recorded_hash_witness :
  let d := {| note_state := [Demo.row "N1" "abc" "/out/n1.txt" true None];
              originals := [] |} in
  (is_echo_from_apple d "N2" "h1" = false /\ is_echo_from_supernote d "N2" "h1" = false) /\
  (is_echo_from_apple d "N1" "h1" = false /\ is_echo_from_supernote d "N1" "h1" = false).
Proof.
  intros d. split.
  - apply (proj1 (echo_requires_recorded_hash d "N2" "h1")). reflexivity.
  - destruct (proj2 (echo_requires_recorded_hash d "N1" "h1")
                (Demo.row "N1" "abc" "/out/n1.txt" true None) eq_refl) as [Ha Hs].
    split; [apply Ha | apply Hs]; reflexivity.
Defined.

End EchoChecks.

Section RecordFailure.
Import StateDb.

(** C9, as the code has it.  [record_failure] replaces the whole row of the
    note: the outcome is failure, the error is recorded, [output_path] is
    the empty string whatever it was before, and every column the statement
    does not list falls back to its default; the rows of other notes are
    not touched. *)
Theorem record_failure_resets_row (now id folder hash gen : string)
    (err : option string) (d : StateDatabase) :
  get_note_state (record_failure now id folder hash gen err d) id =
    Some {| apple_note_id := id; apple_folder_path := folder; content_hash := hash;
            last_processed := now; output_path := ""; generator_type := gen;
            success := false; error := err;
            supernote_content_hash := None; supernote_modified_at := None;
            last_sync_direction := None; apple_written_hash := None;
            is_locked := false |} /\
  (forall id', id' <> id ->
     get_note_state (record_failure now id folder hash gen err d) id' =
     get_note_state d id').
Proof.
  unfold record_failure. split.
  - apply (get_insert_or_replace_eq (mkNoteState id _ _ _ _ _ _ _ _ _ _ _ _)).
  - intros id' Hne. by apply get_insert_or_replace_ne.
Qed.

(** C9 as stated fails: a note recorded with output path [/out/n1.txt]
    has the empty output path after [record_failure]. *)
Lemma record_failure_erases_output_path :
  let d := {| note_state := [Demo.row "N1" "abc" "/out/n1.txt" true None];
              originals := [] |} in
  output_path <$> get_note_state d "N1" = Some "/out/n1.txt" /\
  output_path <$>
    get_note_state (record_failure "t1" "N1" "Work" "abc" "text" (Some "boom") d) "N1"
    = Some "".
Proof. split; reflexivity. Qed.

End RecordFailure.

(** ** The Mirror change detector *)

Section Detector.
Import StateDb.

(** Under the primary key a row is what [get_note_state] returns for its id. *)
Lemma get_note_state_pk (d : StateDatabase) (r : NoteState) :
  pk_unique d -> r ∈ note_state d -> get_note_state d (apple_note_id r) = Some r.
Proof.
  unfold pk_unique, get_note_state.
  induction (note_state d) as [|a l IH]; intros Hnd Hin.
  - by apply elem_of_nil in Hin.
  - rewrite fmap_cons in Hnd. apply NoDup_cons in Hnd as [Hna Hnd]. simpl.
    apply elem_of_cons in Hin as [->|Hin].
    + unfold has_id. by rewrite bool_decide_eq_true_2.
    + unfold has_id at 1. rewrite bool_decide_eq_false_2; [by apply IH|].
      intros Heq. apply Hna. rewrite Heq. by apply list_elem_of_fmap_2.
Qed.

Lemma get_all_txt_states_pk (d : StateDatabase) :
  pk_unique d ->
  get_all_txt_states d = map Some (List.filter txt_row (note_state d)).
Proof.
  intros Hpk. unfold get_all_txt_states.
  apply map_ext_in. intros r Hr. apply filter_In in Hr as [Hr _].
  apply get_note_state_pk; [done|]. by apply list_elem_of_In.
Qed.


End Detector.

Section Changes.
Variable E : Env.
Import StateDb.

Lemma dict_set_elem {V} (k : string) (v : V) (d : list (string * V)) (p : string) (x : V) :
  (p, x) ∈ Watcher.dict_set k v d <-> (p = k /\ x = v) \/ (p <> k /\ (p, x) ∈ d).
Proof.
  unfold Watcher.dict_set.
  destruct (existsb _ d) eqn:Hex.
  - apply existsb_exists in Hex as (kv0 & Hin0 & Hk0).
    apply bool_decide_eq_true in Hk0.
    rewrite list_elem_of_In, in_map_iff. split.
    + intros ([k' v'] & Heq & Hin). simpl in Heq.
      case_bool_decide; simplify_eq.
      * by left.
      * right. split; [done|]. by apply list_elem_of_In.
    + intros [[-> ->]|[Hne Hin]].
      * exists kv0. by rewrite bool_decide_eq_true_2.
      * exists (p, x). simpl. rewrite bool_decide_eq_false_2 by done.
        split; [done|]. by apply list_elem_of_In.
  - rewrite elem_of_app, list_elem_of_singleton. split.
    + intros [Hin|Heq].
      * right. split; [|done]. intros ->.
        assert (existsb (fun kv : string * V => bool_decide (kv.1 = k)) d = true) as Ht.
        { apply existsb_exists. exists (k, x). split; [by apply list_elem_of_In|].
          by apply bool_decide_eq_true_2. }
        congruence.
      * left. by simplify_eq.
    + intros [[-> ->]|[_ Hin]]; [by right | by left].
Qed.

Lemma path_to_state_elem (states : list (option NoteState)) (p : string) (st : NoteState) :
  (p, st) ∈ Watcher.path_to_state states <->
  p <> "" /\
  last (List.filter (fun s => bool_decide (output_path s = p)) (omap id states)) = Some st.
Proof.
  unfold Watcher.path_to_state.
  induction states as [|x states IH] using rev_ind.
  - simpl. split; [intros H; by apply elem_of_nil in H | by intros [_ H]].
  - rewrite foldl_snoc, omap_app, List.filter_app, last_app.
    destruct x as [s|]; simpl; [|by rewrite IH].
    unfold PyStr.truthy.
    destruct (bool_decide (output_path s = "")) eqn:Hempty; simpl.
    + apply bool_decide_eq_true in Hempty. rewrite IH.
      case_bool_decide; simpl; [|done].
      split; intros [Hp _]; congruence.
    + apply bool_decide_eq_false in Hempty. rewrite dict_set_elem, IH.
      case_bool_decide; simpl.
      * split.
        -- intros [[-> ->]|[Hne _]]; [done | congruence].
        -- intros [_ Hs]. left. split; congruence.
      * split.
        -- intros [[-> _]|[_ H']]; [congruence | done].
        -- intros H'. right. split; [congruence | done].
Qed.

Lemma tracked_state_for_elem (d : StateDatabase) (p : string) (st : NoteState) :
  tracked_state_for d p = Some st ->
  output_path st = p /\ get_note_state d (apple_note_id st) = Some st.
Proof.
  unfold tracked_state_for. intros H.
  apply last_Some_elem_of, list_elem_of_In, filter_In in H as [Hin Hp].
  apply bool_decide_eq_true in Hp. split; [done|].
  apply list_elem_of_In, list_elem_of_omap in Hin as (o & Ho & Hid).
  simpl in Hid. subst o. unfold get_all_txt_states in Ho.
  apply list_elem_of_In, in_map_iff in Ho as (r & Hr & _).
  by rewrite (get_note_state_id _ _ _ Hr).
Qed.

Lemma check_tracked_modified (f : FileSystem) (st : NoteState) (c : ChangedFile) :
  c ∈ Watcher.check_tracked E f (output_path st, st) ->
  change_type c = MODIFIED ->
  exists h content mtime,
    supernote_content_hash st = Some h /\ h <> "" /\
    Fs.read_text f (output_path st) = Some content /\
    sha16 E content <> h /\
    Fs.mtime_ms f (output_path st) = Some mtime /\
    c = modified_change E st h content mtime.
Proof.
  unfold Watcher.check_tracked, Watcher.compute_content_hash, Watcher.get_file_mtime_ms.
  intros Hin Hty.
  destruct (Fs.exists_ f (output_path st)); simpl in Hin.
  - destruct (Fs.read_text f (output_path st)) as [content|]; simpl in Hin;
      [|by apply elem_of_nil in Hin].
    destruct (Fs.mtime_ms f (output_path st)) as [mtime|];
      [|by apply elem_of_nil in Hin].
    destruct (supernote_content_hash st) as [h|]; [|by apply elem_of_nil in Hin].
    destruct (PyStr.truthy h) eqn:Ht; simpl in Hin; [|by apply elem_of_nil in Hin].
    case_bool_decide; simpl in Hin; [by apply elem_of_nil in Hin|].
    apply list_elem_of_singleton in Hin. exists h, content, mtime.
    unfold PyStr.truthy in Ht. apply negb_true_iff, bool_decide_eq_false in Ht.
    done.
  - apply list_elem_of_singleton in Hin. subst c. done.
Qed.

Lemma check_tracked_emits (f : FileSystem) (st : NoteState) (h content : string) :
  Fs.read_text f (output_path st) = Some content ->
  supernote_content_hash st = Some h -> h <> "" -> sha16 E content <> h ->
  exists mtime,
    Fs.mtime_ms f (output_path st) = Some mtime /\
    Watcher.check_tracked E f (output_path st, st) = [modified_change E st h content mtime].
Proof.
  intros Hread Hh Hne Hdiff.
  unfold Watcher.check_tracked, Watcher.compute_content_hash, Watcher.get_file_mtime_ms.
  unfold Fs.exists_, Fs.mtime_ms. unfold Fs.read_text in Hread |- *.
  destruct (files f !! output_path st) as [fl|] eqn:Hf; [|done].
  simpl in Hread. exists (file_mtime_ms fl). split; [done|].
  rewrite bool_decide_eq_true_2 by eauto. simpl. rewrite Hread. simpl. rewrite Hh.
  unfold PyStr.truthy. rewrite (bool_decide_eq_false_2 _ Hne). simpl.
  by rewrite (bool_decide_eq_false_2 _ Hdiff).
Qed.

(** C6, as the code has it.  A [modified] change is only ever emitted for
    a note whose stored [supernote_content_hash] is present (and not the
    empty string), and it carries the new fingerprint, the new mtime and
    that baseline as [previous_hash].  The detector keeps one state per
    output path, the last tracked one in row order: for a path whose file
    can be read, a [modified] change is emitted exactly when the baseline
    of that state is present, non-empty and different from the fingerprint
    of the current content. *)
Theorem scan_for_changes_modified (d : StateDatabase) (f : FileSystem) :
  (forall c, c ∈ Watcher.scan_for_changes E d f -> change_type c = MODIFIED ->
     exists st h content mtime,
       get_note_state d (change_apple_note_id c) = Some st /\
       tracked_state_for d (change_path c) = Some st /\
       supernote_content_hash st = Some h /\ h <> "" /\
       Fs.read_text f (change_path c) = Some content /\
       sha16 E content <> h /\
       Fs.mtime_ms f (change_path c) = Some mtime /\
       c = modified_change E st h content mtime) /\
  (forall p st content,
     p <> "" -> tracked_state_for d p = Some st -> Fs.read_text f p = Some content ->
     ((exists c, c ∈ Watcher.scan_for_changes E d f /\
                 change_type c = MODIFIED /\ change_path c = p) <->
      (exists h, supernote_content_hash st = Some h /\ h <> "" /\ sha16 E content <> h))).
Proof.
  assert (forall c, c ∈ Watcher.scan_for_changes E d f -> change_type c = MODIFIED ->
     exists st h content mtime,
       get_note_state d (change_apple_note_id c) = Some st /\
       tracked_state_for d (change_path c) = Some st /\
       supernote_content_hash st = Some h /\ h <> "" /\
       Fs.read_text f (change_path c) = Some content /\
       sha16 E content <> h /\
       Fs.mtime_ms f (change_path c) = Some mtime /\
       c = modified_change E st h content mtime) as Hsound.
  { intros c Hin Hty. unfold Watcher.scan_for_changes in Hin.
    apply list_elem_of_In, in_flat_map in Hin as ([p st] & Hentry & Hc).
    apply list_elem_of_In, path_to_state_elem in Hentry as [Hp Hlast].
    fold (tracked_state_for d p) in Hlast.
    destruct (tracked_state_for_elem d p st Hlast) as [Hout Hget]. subst p.
    apply list_elem_of_In in Hc.
    destruct (check_tracked_modified f st c Hc Hty)
      as (h & content & mtime & Hh & Hne & Hread & Hdiff & Hm & ->).
    exists st, h, content, mtime. simpl. done. }
  split; [exact Hsound|].
  intros p st content Hp Hlast Hread. split.
  - intros (c & Hin & Hty & Hpath).
    destruct (Hsound c Hin Hty)
      as (st' & h & content' & mtime & _ & Hlast' & Hh & Hne & Hread' & Hdiff & _).
    rewrite Hpath in Hlast', Hread'. simplify_eq. by exists h.
  - intros (h & Hh & Hne & Hdiff).
    destruct (tracked_state_for_elem d p st Hlast) as [Hout _]. subst p.
    destruct (check_tracked_emits f st h content Hread Hh Hne Hdiff) as (mtime & _ & Hck).
    exists (modified_change E st h content mtime). split; [|done].
    unfold Watcher.scan_for_changes. apply list_elem_of_In, in_flat_map.
    exists (output_path st, st). split.
    + apply list_elem_of_In, path_to_state_elem. done.
    + rewrite Hck. by left.
Qed.

End Changes.

Lemma scan_for_changes_modified_witness :
  let d := {| note_state :=
                [Demo.row "N1" "abc" Demo.plan_path true (Some (Demo.tag_hash "old"))];
              originals := [] |} in
  let f := Demo.disk [(Demo.plan_path, "edited")] in
  (exists st h content mtime,
     StateDb.get_note_state d "N1" = Some st /\
     tracked_state_for d Demo.plan_path = Some st /\
     supernote_content_hash st = Some h /\ h <> "" /\
     Fs.read_text f Demo.plan_path = Some content /\
     sha16 Demo.env_up content <> h /\
     Fs.mtime_ms f Demo.plan_path = Some mtime /\
     modified_change Demo.env_up
       (Demo.row "N1" "abc" Demo.plan_path true (Some (Demo.tag_hash "old")))
       "h:old" "edited" 1000 = modified_change Demo.env_up st h content mtime) /\
  ((exists c, c ∈ Watcher.scan_for_changes Demo.env_up d f /\
              change_type c = MODIFIED /\ change_path c = Demo.plan_path) <->
   (exists h, Some (Demo.tag_hash "old") = Some h /\ h <> "" /\
              sha16 Demo.env_up "edited" <> h)).
Proof.
  intros d f.
  pose (st := Demo.row "N1" "abc" Demo.plan_path true (Some (Demo.tag_hash "old"))).
  assert (Watcher.scan_for_changes Demo.env_up d f =
          [modified_change Demo.env_up st "h:old" "edited" 1000]) as Hscan
    by (vm_compute; reflexivity).
  split.
  - apply (proj1 (scan_for_changes_modified Demo.env_up d f)
             (modified_change Demo.env_up st "h:old" "edited" 1000)).
    + rewrite Hscan. apply list_elem_of_singleton. reflexivity.
    + reflexivity.
  - apply (proj2 (scan_for_changes_modified Demo.env_up d f) Demo.plan_path st "edited").
    + discriminate.
    + vm_compute. reflexivity.
    + vm_compute. reflexivity.
Defined.

(** C6 as stated fails: two tracked notes share one output path; the file is
    there, the first note has a baseline and the current fingerprint differs
    from it, and yet no change is emitted, because the detector only looks
    at the state of the second note, which has no baseline. *)
Lemma shared_path_hides_modification :
  let d := {| note_state :=
                [Demo.row "N1" "abc" Demo.plan_path true (Some (Demo.tag_hash "old"));
                 Demo.row "N2" "abd" Demo.plan_path true None];
              originals := [] |} in
  let f := Demo.disk [(Demo.plan_path, "edited")] in
  (exists st, Some st ∈ StateDb.get_all_txt_states d /\
              output_path st = Demo.plan_path /\
              supernote_content_hash st = Some "h:old" /\
              Watcher.compute_content_hash Demo.env_up f Demo.plan_path = Some "h:edited") /\
  Watcher.scan_for_changes Demo.env_up d f = [].
Proof.
  split.
  - eexists. split; [apply list_elem_of_here|]. repeat split; vm_compute; reflexivity.
  - vm_compute. reflexivity.
Qed.

(** ** The reverse applier *)

Lemma read_text_exists (f : FileSystem) (p content : string) :
  Fs.read_text f p = Some content -> Fs.exists_ f p = true.
Proof.
  unfold Fs.read_text, Fs.exists_. intros H.
  destruct (files f !! p) eqn:Hf; [|done].
  by rewrite bool_decide_eq_true_2.
Qed.

(** C5.  A [modified] change whose file content hashes to the stored
    [supernote_content_hash] of its note ends as a successful result with
    action [skipped]; the world is left exactly as it was: no bridge command
    is issued (no Source mutation) and no backup row is written. *)
Theorem echo_is_skipped (E : Env) (c : ChangedFile) (w : World)
    (content : string) (st : NoteState) :
  change_type c = MODIFIED ->
  Fs.read_text (fs w) (change_path c) = Some content ->
  StateDb.get_note_state (db w) (change_apple_note_id c) = Some st ->
  supernote_content_hash st = Some (sha16 E content) ->
  Reverse.process_change E c w =
    (Ok {| res_success := true; res_apple_note_id := change_apple_note_id c;
           res_action := "skipped"; res_error := Some "Echo from forward sync";
           res_original_backed_up := false |}, w).
Proof.
  intros Hty Hread Hget Hsn.
  unfold Reverse.process_change. rewrite Hty.
  unfold Reverse.sync_modified_file, catch, bind, gets. simpl.
  rewrite (read_text_exists _ _ _ Hread). simpl. rewrite Hread. simpl.
  unfold StateDb.is_echo_from_supernote. rewrite Hget.
  unfold Reverse._compute_content_hash.
  rewrite bool_decide_eq_true_2 by done. reflexivity.
Qed.

Lemma echo_is_skipped_witness :
  let st := Demo.row "N1" "abc" Demo.plan_path true (Some (Demo.tag_hash "same")) in
  let w := Demo.world [st] (Demo.disk [(Demo.plan_path, "same")]) in
  let c := {| change_path := Demo.plan_path; change_type := MODIFIED;
              change_apple_note_id := "N1"; new_content_hash := Some "h:same";
              new_modified_at := Some 1000; previous_hash := Some "h:older" |} in
  Reverse.process_change Demo.env_up c w =
    (Ok {| res_success := true; res_apple_note_id := "N1";
           res_action := "skipped"; res_error := Some "Echo from forward sync";
           res_original_backed_up := false |}, w).
Proof.
  intros st w c.
  apply (echo_is_skipped Demo.env_up c w "same" st); reflexivity.
Defined.

(** ** What the reverse phase leaves alone *)

Section Keeps.
Variable E : Env.

Lemma keeps_ret {A} (a : A) : keeps_source_hashes (ret a).
Proof. by intros w. Qed.

Lemma keeps_raise {A} (e : string) : keeps_source_hashes (@raise A e).
Proof. by intros w. Qed.

Lemma keeps_gets {A} (f : World -> A) : keeps_source_hashes (gets f).
Proof. by intros w. Qed.

Lemma keeps_log (e : Event) : keeps_source_hashes (log e).
Proof. by intros w. Qed.

Lemma keeps_set_originals_folder_id (i : json) :
  keeps_source_hashes (set_originals_folder_id i).
Proof. by intros w. Qed.

Lemma keeps_require {A} (o : option A) (e : string) : keeps_source_hashes (require o e).
Proof. destruct o; [apply keeps_ret | apply keeps_raise]. Qed.

Lemma keeps_bind {A B} (m : M A) (k : A -> M B) :
  keeps_source_hashes m -> (forall a, keeps_source_hashes (k a)) ->
  keeps_source_hashes (bind m k).
Proof.
  intros Hm Hk w. unfold bind. specialize (Hm w).
  destruct (m w) as [[a|e] w']; simpl in *; [|done].
  by rewrite (Hk a w').
Qed.

Lemma keeps_catch {A} (m : M A) (h : string -> M A) :
  keeps_source_hashes m -> (forall e, keeps_source_hashes (h e)) ->
  keeps_source_hashes (catch m h).
Proof.
  intros Hm Hh w. unfold catch. specialize (Hm w).
  destruct (m w) as [[a|e] w']; simpl in *; [done|].
  by rewrite (Hh e w').
Qed.

Lemma keeps_for_each {A S} (body : S -> A -> M S) (l : list A) (s : S) :
  (forall s x, keeps_source_hashes (body s x)) ->
  keeps_source_hashes (for_each body l s).
Proof.
  intros Hb. revert s. induction l as [|x l IH]; intros s; simpl.
  - apply keeps_ret.
  - apply keeps_bind; [apply Hb | apply IH].
Qed.

Lemma keeps_modify_db (f : StateDatabase -> StateDatabase) :
  (forall d, source_hashes (f d) = source_hashes d) ->
  keeps_source_hashes (modify_db f).
Proof. intros Hf w. simpl. apply Hf. Qed.

Lemma source_hashes_update_where (id : string) (f : NoteState -> NoteState)
    (d : StateDatabase) :
  (forall r, apple_note_id (f r) = apple_note_id r /\ content_hash (f r) = content_hash r) ->
  source_hashes (StateDb.update_where id f d) = source_hashes d.
Proof.
  intros Hf. unfold source_hashes, StateDb.update_where. simpl.
  rewrite map_map. apply map_ext. intros r.
  destruct (StateDb.has_id id r); [|done]. by destruct (Hf r) as [-> ->].
Qed.

Lemma source_hashes_update_apple_written_hash (id h : string) (d : StateDatabase) :
  source_hashes (StateDb.update_apple_written_hash id h d) = source_hashes d.
Proof. by apply source_hashes_update_where. Qed.

Lemma source_hashes_update_supernote_state (id h : string) (m : Z) (d : StateDatabase) :
  source_hashes (StateDb.update_supernote_state id h m d) = source_hashes d.
Proof. by apply source_hashes_update_where. Qed.

Lemma source_hashes_record_original (row : Original) (d : StateDatabase) :
  source_hashes (StateDb.record_original row d) = source_hashes d.
Proof. done. Qed.

(** The stored Source fingerprint of a note is read off [source_hashes]. *)
Lemma needs_update_source_hashes (d d' : StateDatabase) (id h : string) :
  source_hashes d' = source_hashes d ->
  StateDb.needs_update d' id h = StateDb.needs_update d id h.
Proof.
  unfold source_hashes, StateDb.needs_update, StateDb.get_note_state.
  generalize (note_state d) as l. generalize (note_state d') as l'.
  induction l' as [|a' l' IH]; intros [|a l] Heq; simpl in *; try done.
  injection Heq as Hid Hh Hrest. unfold StateDb.has_id at 1 3. rewrite Hid.
  case_bool_decide; [by rewrite Hh | by apply IH].
Qed.

Lemma get_note_state_source_hashes (d d' : StateDatabase) (id : string) :
  source_hashes d' = source_hashes d ->
  is_Some (StateDb.get_note_state d' id) <-> is_Some (StateDb.get_note_state d id).
Proof.
  unfold source_hashes, StateDb.get_note_state.
  generalize (note_state d) as l. generalize (note_state d') as l'.
  induction l' as [|a' l' IH]; intros [|a l] Heq; simpl in *; try done.
  injection Heq as Hid Hh Hrest. unfold StateDb.has_id at 1 3. rewrite Hid.
  case_bool_decide; [by split; eauto | by apply IH].
Qed.

Ltac keeps_with known :=
  repeat first
    [ known
    | apply keeps_ret | apply keeps_raise | apply keeps_gets | apply keeps_log
    | apply keeps_set_originals_folder_id | apply keeps_require
    | apply keeps_bind; [|intros ?] | apply keeps_catch; [|intros ?]
    | apply keeps_for_each; intros ? ?
    | apply keeps_modify_db; intros ?
    | apply source_hashes_update_apple_written_hash
    | apply source_hashes_update_supernote_state
    | apply source_hashes_record_original
    | progress cbv zeta
    | match goal with
      | |- keeps_source_hashes (if ?b then _ else _) => destruct b
      | |- keeps_source_hashes (match ?x with _ => _ end) => destruct x
      | |- keeps_source_hashes (let '(_, _) := ?x in _) => destruct x
      end ].

Lemma keeps_run_swift_command (args : list string) :
  keeps_source_hashes (Reverse._run_swift_command E args).
Proof. unfold Reverse._run_swift_command. keeps_with fail. Qed.

Lemma keeps_ensure_originals_folder :
  keeps_source_hashes (Reverse._ensure_originals_folder E).
Proof.
  unfold Reverse._ensure_originals_folder.
  keeps_with ltac:(apply keeps_run_swift_command).
Qed.

Ltac keeps_calls :=
  first [ apply keeps_run_swift_command | apply keeps_ensure_originals_folder ].

Lemma keeps_backup_to_originals (id why : string) :
  keeps_source_hashes (Reverse._backup_to_originals E id why).
Proof.
  unfold Reverse._backup_to_originals, Reverse._get_apple_note_content,
    Reverse.record_original, Reverse.command_argument.
  keeps_with keeps_calls.
Qed.

Lemma keeps_sync_modified_file (c : ChangedFile) :
  keeps_source_hashes (Reverse.sync_modified_file E c).
Proof.
  unfold Reverse.sync_modified_file.
  keeps_with ltac:(first [ apply keeps_backup_to_originals | keeps_calls ]).
Qed.


Lemma keeps_create_apple_note_from_txt (p folder : string) :
  keeps_source_hashes (Reverse.create_apple_note_from_txt E p folder).
Proof.
  unfold Reverse.create_apple_note_from_txt.
  keeps_with keeps_calls.
Qed.


End Keeps.

(** ** Backups *)

Lemma snoc_chain {A} (a p : list A) (x y z : A) :
  ((((a ++ [x]) ++ p) ++ [y]) ++ [z] = a ++ (x :: p ++ [y]) ++ [z])%list.
Proof. rewrite <- !app_assoc. simpl. by rewrite <- app_assoc. Qed.

Section Backup.
Variable E : Env.

Lemma run_swift_command_eq (args : list string) (w : World) :
  Reverse._run_swift_command E args w =
  (match bridge E (trace w) args with
   | Ok o => Ok o
   | Raise e => Raise ("Swift bridge error: " ++ e)
   end,
   {| db := db w; fs := fs w; originals_folder_id := originals_folder_id w;
      trace := trace w ++ [EvBridge args] |}).
Proof.
  unfold Reverse._run_swift_command, bind, gets, log. simpl.
  by destruct (bridge E (trace w) args).
Qed.

Lemma ensure_originals_folder_effect (w : World) :
  exists r w1 (pre : list Event),
    Reverse._ensure_originals_folder E w = (r, w1) /\
    db w1 = db w /\ fs w1 = fs w /\ trace w1 = (trace w ++ pre)%list /\
    forallb backup_command pre = true.
Proof.
  unfold Reverse._ensure_originals_folder, bind, gets. simpl.
  destruct (Json.truthy (default JNull (originals_folder_id w))).
  - exists (Ok (default JNull (originals_folder_id w))), w, []. simpl.
    by rewrite app_nil_r.
  - rewrite run_swift_command_eq.
    destruct (bridge E (trace w) _) as [o|e]; simpl.
    + destruct (Json.truthy _).
      * unfold require, bind. destruct (Json.get "id" o); simpl;
          eexists _, _, [_]; (split; [reflexivity|]); simpl; done.
      * unfold bind. rewrite run_swift_command_eq. simpl.
        destruct (bridge E _ ["create-folder"; _]) as [o2|e2]; simpl;
          [destruct (Json.get "id" o2); simpl|];
          eexists _, _, [_; _]; (split; [reflexivity|]); simpl;
          rewrite <- ?app_assoc; done.
    + eexists _, _, [_]; (split; [reflexivity|]); simpl; done.
Qed.

Lemma backup_to_originals_effect (id why : string) (w : World) :
  exists b w1 (pre : list Event),
    Reverse._backup_to_originals E id why w = (Ok b, w1) /\
    note_state (db w1) = note_state (db w) /\ fs w1 = fs w /\
    ((b = false /\ originals (db w1) = originals (db w) /\
      trace w1 = (trace w ++ pre)%list /\ forallb backup_command pre = true) \/
     (b = true /\ exists row,
        orig_apple_note_id row = id /\
        originals (db w1) = (originals (db w) ++ [row])%list /\
        trace w1 = (trace w ++ pre ++ [EvOriginal row])%list /\
        forallb backup_command pre = true)).
Proof.
  unfold Reverse._backup_to_originals, Reverse._get_apple_note_content.
  unfold catch at 1. unfold bind at 1. unfold catch at 1. unfold bind at 1.
  rewrite run_swift_command_eq.
  destruct (bridge E (trace w) _) as [nd|e]; simpl.
  2:{ eexists false, _, [_]. split; [reflexivity|]. simpl. repeat split; try done.
      left. done. }
  destruct nd as [|kv nd].
  { eexists false, _, [_]. split; [reflexivity|]. simpl. repeat split; try done.
    left. done. }
  unfold bind at 1.
  match goal with |- context [Reverse._ensure_originals_folder E ?w0] =>
    destruct (ensure_originals_folder_effect w0) as (r & w1 & pre & -> & Hdb & Hfs & Htr & Hpre)
  end.
  simpl in Hdb, Hfs, Htr.
  destruct r as [folder|e]; simpl.
  2:{ eexists false, w1, (_ :: pre). split; [reflexivity|].
      rewrite Hdb, Hfs, Htr. simpl. rewrite <- app_assoc. simpl.
      repeat split; try done. left. done. }
  assert (forall (k : string -> M bool) (w0 : World),
            (exists s, folder = JStr s) \/
            bind (Reverse.command_argument folder) k w0 =
              (Raise "TypeError: expected str, bytes or os.PathLike object", w0)) as Harg.
  { intros k w0. destruct folder; eauto. }
  unfold bind at 1. unfold gets at 1. cbv beta iota.
  destruct (Harg (fun folder_arg =>
              result <- Reverse._run_swift_command E
                ["create-note"; "--name";
                 jtext E "name" "Untitled" (kv :: nd) ++ " (Original " ++
                   now_stamp E (trace w1) ++ ")";
                 "--html-file";
                 Reverse.metadata_html (now_stamp E (trace w1)) why id
                   (jtext E "bodyHTML" "" (kv :: nd));
                 "--folder-id"; folder_arg] ;;
              original_plaintext <- require (jcolumn E "bodyPlainText" "" (kv :: nd))
                                      "IntegrityError: originals.original_content" ;;
              Reverse.record_original E id original_plaintext
                (jcolumn E "bodyHTML" "" (kv :: nd)) why (jtext_opt E "id" result) ;;;
              ret true) w1) as [[fid ->]|Hraise].
  2:{ rewrite Hraise. eexists false, w1, (_ :: pre). split; [reflexivity|].
      rewrite Hdb, Hfs, Htr. simpl. rewrite <- app_assoc. simpl.
      repeat split; try done. left. done. }
  unfold Reverse.command_argument, ret, bind, gets. simpl. rewrite run_swift_command_eq.
  destruct (bridge E (trace w1) _) as [res|e]; simpl.
  2:{ eexists false, _, (_ :: pre ++ [_]). split; [reflexivity|]. simpl.
      rewrite Hdb, Hfs, Htr. rewrite <- !app_assoc. simpl.
      repeat split; try done. left. repeat split; try done.
      rewrite forallb_app, Hpre. done. }
  destruct (jcolumn E "bodyPlainText" "" (kv :: nd)) as [plain|]; simpl.
  2:{ eexists false, _, (_ :: pre ++ [_]). split; [reflexivity|]. simpl.
      rewrite Hdb, Hfs, Htr. rewrite <- !app_assoc. simpl.
      repeat split; try done. left. repeat split; try done.
      rewrite forallb_app, Hpre. done. }
  unfold Reverse.record_original, bind, gets, modify_db, log. simpl.
  eexists true, _, (_ :: pre ++ [_]). split; [reflexivity|]. simpl.
  rewrite Hdb, Hfs, Htr. repeat split; try done.
  right. split; [done|]. eexists. split; [|split; [reflexivity|]].
  - reflexivity.
  - split.
    + apply snoc_chain.
    + simpl. rewrite forallb_app, Hpre. done.
Qed.
End Backup.

Section BackupSucceeds.
Variable E : Env.



End BackupSucceeds.




(** ** The driver *)



(** The world [run_bidirectional] returns is the one the forward phase
    leaves: nothing runs after it. *)
Lemma run_bidirectional_ends_with_forward (E : Env) (cfg : Config)
    (dry_run with_backup : bool) (w : World) :
  (Engine.run_bidirectional E cfg dry_run with_backup w).2 =
  let w1 := if with_backup && negb dry_run then (Engine.create_backup E cfg w).2 else w in
  let rw := Engine.run_reverse_sync E cfg dry_run w1 in
  match rw.1 with
  | Ok _ => (Engine.run_forward_sync E cfg dry_run rw.2).2
  | Raise _ => rw.2
  end.
Proof.
  unfold Engine.run_bidirectional, bind.
  assert (forall w0, exists o,
            Engine.create_backup E cfg w0 = (Ok o, (Engine.create_backup E cfg w0).2)) as Hb.
  { intros w0. unfold Engine.create_backup, catch, bind.
    rewrite run_swift_command_eq. destruct (bridge E (trace w0) _); simpl; eauto. }
  destruct (with_backup && negb dry_run).
  - destruct (Hb w) as [o ->]. simpl.
    destruct (Engine.run_reverse_sync E cfg dry_run _) as [[st|e] w2]; simpl; [|done].
    by destruct (Engine.run_forward_sync E cfg dry_run w2) as [[st'|e'] w3].
  - simpl.
    destruct (Engine.run_reverse_sync E cfg dry_run _) as [[st|e] w2]; simpl; [|done].
    by destruct (Engine.run_forward_sync E cfg dry_run w2) as [[st'|e'] w3].
Qed.

(** No path of the reverse applier inserts a row into [note_state]. *)
Lemma create_apple_note_from_txt_adds_no_row (E : Env) (p folder id : string) (w : World) :
  StateDb.get_note_state (db w) id = None ->
  StateDb.get_note_state (db (Reverse.create_apple_note_from_txt E p folder w).2) id = None.
Proof.
  intros Hnone.
  destruct (get_note_state_source_hashes _ _ id
              (keeps_create_apple_note_from_txt E p folder w)) as [Hiff _].
  apply eq_None_not_Some. intros Hsome. apply Hiff in Hsome.
  rewrite Hnone in Hsome. by destruct Hsome.
Qed.

(** The stored Source fingerprint of every note survives [sync_modified_file]. *)
Lemma sync_modified_file_keeps_content_hash (E : Env) (c : ChangedFile) (w : World)
    (id h : string) :
  StateDb.needs_update (db (Reverse.sync_modified_file E c w).2) id h =
  StateDb.needs_update (db w) id h.
Proof. apply needs_update_source_hashes, keeps_sync_modified_file. Qed.

(** C3: the code at an untracked file [Work/Projects/Idea.txt].  One
    [create-note] is issued, for the folder named [Projects], and the result
    is a success for the new id.  But [update_apple_written_hash] is an
    [UPDATE] and there is no row for the new id: afterwards the note has no
    state, its written hash is not recorded, and the same file is reported
    as new again by the next scan. *)
Theorem created_note_has_no_state :
  let folder := Watcher.get_apple_folder_path Demo.root Demo.idea_path in
  let rw := Reverse.create_apple_note_from_txt Demo.env_up Demo.idea_path folder
              Demo.world_new_file in
  folder = "Work/Projects" /\
  rw.1 = Ok {| res_success := true; res_apple_note_id := "NEW1";
               res_action := "created"; res_error := None;
               res_original_backed_up := false |} /\
  trace rw.2 = [EvBridge ["create-note"; "--name"; "Idea"; "--html-file";
                          "<div>body</div>"; "--folder-name"; "Projects"]] /\
  StateDb.get_note_state (db rw.2) "NEW1" = None /\
  StateDb.is_echo_from_apple (db rw.2) "NEW1" (Demo.tag_hash "<div>body</div>") = false /\
  Watcher.scan_for_new_files Demo.root (db rw.2) (fs rw.2) = [Demo.idea_path].
Proof. repeat split; vm_compute; reflexivity. Qed.

(** C4: the code at a tracked note whose Mirror file was edited and whose
    Source is unchanged.  The edit is written to the Source with
    [update-note], the written hash and the Mirror baseline are recorded,
    but the stored [content_hash] is the one from before the write:
    [update_content_hash_after_reverse_sync] is not called. *)
Theorem reverse_update_keeps_old_content_hash :
  let w := Demo.world_edited Demo.plan_hash in
  let rw := Reverse.sync_modified_file Demo.env_up Demo.plan_modified w in
  Watcher.scan_for_changes Demo.env_up (db w) (fs w) = [Demo.plan_modified] /\
  rw.1 = Ok {| res_success := true; res_apple_note_id := "N1";
               res_action := "updated"; res_error := None;
               res_original_backed_up := true |} /\
  last (trace rw.2) =
    Some (EvBridge ["update-note"; "N1"; "--html-file"; "<div>mirror edit</div>"]) /\
  content_hash <$> StateDb.get_note_state (db w) "N1" = Some Demo.plan_hash /\
  content_hash <$> StateDb.get_note_state (db rw.2) "N1" = Some Demo.plan_hash /\
  apple_written_hash <$> StateDb.get_note_state (db rw.2) "N1" =
    Some (Some (Demo.tag_hash "<div>mirror edit</div>")) /\
  supernote_content_hash <$> StateDb.get_note_state (db rw.2) "N1" =
    Some (Some (Demo.tag_hash ("Plan" ++ nl ++ "mirror edit"))).
Proof. repeat split; vm_compute; reflexivity. Qed.

(** C2: the code on a first full pass.  [run_bidirectional] makes the
    backup, runs the reverse phase and the forward phase, and returns; the
    file the forward phase wrote is tracked, but its fingerprint is not
    stored ([supernote_content_hash] stays absent), so a later edit of the
    file is not detected.  [update_supernote_hashes], run on the resulting
    world, would store it, and so does the forward-only path of the [sync]
    command. *)
Theorem run_bidirectional_skips_refresh :
  let w := Demo.world_fresh in
  let rw := Engine.run_bidirectional Demo.env_up Demo.cfg false true w in
  trace rw.2 = [EvBridge ["backup-all"; "--output-dir"; "/backups"];
                EvBridge ["export-all"; "--html"; "--attachments"]] /\
  (exists st, rw.1 = Ok st /\ forward_created st = 1) /\
  output_path <$> StateDb.get_note_state (db rw.2) "N1" = Some Demo.plan_path /\
  Watcher.compute_content_hash Demo.env_up (fs rw.2) Demo.plan_path = Some "h:generated" /\
  supernote_content_hash <$> StateDb.get_note_state (db rw.2) "N1" = Some None /\
  Watcher.scan_for_changes Demo.env_up (db rw.2)
    (Demo.disk [(Demo.plan_path, "edited on the device")]) = [] /\
  supernote_content_hash <$>
    StateDb.get_note_state (db (Engine.update_supernote_hashes Demo.env_up rw.2).2) "N1"
    = Some (Some "h:generated") /\
  supernote_content_hash <$>
    StateDb.get_note_state
      (db (Cli.sync Demo.env_up Demo.cfg DirForward true false w).2) "N1"
    = Some (Some "h:generated").
Proof.
  split; [vm_compute; reflexivity|].
  split; [eexists; split; vm_compute; reflexivity|].
  repeat split; vm_compute; reflexivity.
Qed.

(** * Further properties of the state store *)

Section StoreRoundTrips.
Import StateDb.

(** X1.  After [record_success] has stored a note with fingerprint [h],
    [needs_update] for that note and a fingerprint [h'] holds exactly when
    [h'] differs from [h]; for every other note it answers as before. *)
Theorem needs_update_after_record_success (now id folder h out gen : string)
    (sn : option string) (dir : SyncDirection) (locked : bool) (d : StateDatabase)
    (h' : string) :
  needs_update (record_success now id folder h out gen sn dir locked d) id h'
    = negb (bool_decide (h = h')) /\
  (forall id', id' <> id ->
     needs_update (record_success now id folder h out gen sn dir locked d) id' h'
     = needs_update d id' h').
Proof.
  unfold needs_update, record_success. split.
  - by rewrite (get_insert_or_replace_eq (mkNoteState id _ _ _ _ _ _ _ _ _ _ _ _)).
  - intros id' Hne. by rewrite get_insert_or_replace_ne.
Qed.

Lemma pk_unique_insert_or_replace (row : NoteState) (d : StateDatabase) :
  pk_unique d -> pk_unique (insert_or_replace row d).
Proof.
  unfold pk_unique, insert_or_replace. simpl. intros Hnd.
  rewrite fmap_app. apply NoDup_app. split; [|split].
  - induction (note_state d) as [|a l IH]; simpl; [constructor|].
    rewrite fmap_cons in Hnd. apply NoDup_cons in Hnd as [Hna Hnd].
    destruct (negb (has_id (apple_note_id row) a)); [|by apply IH].
    rewrite fmap_cons. apply NoDup_cons. split; [|by apply IH].
    intros Hin. apply Hna. apply list_elem_of_fmap in Hin as (r & -> & Hr).
    apply list_elem_of_fmap_2. apply list_elem_of_In, filter_In in Hr as [Hr _].
    by apply list_elem_of_In.
  - intros x Hx Hx'. simpl in Hx'. apply list_elem_of_singleton in Hx'. subst x.
    apply list_elem_of_fmap in Hx as (r & Heq & Hr).
    apply list_elem_of_In, filter_In in Hr as [_ Hr].
    unfold has_id in Hr. apply negb_true_iff, bool_decide_eq_false in Hr. congruence.
  - simpl. apply NoDup_singleton.
Qed.

Lemma pk_unique_update_where (id : string) (f : NoteState -> NoteState)
    (d : StateDatabase) :
  (forall r, apple_note_id (f r) = apple_note_id r) ->
  pk_unique d -> pk_unique (update_where id f d).
Proof.
  unfold pk_unique, update_where. simpl. intros Hf Hnd.
  assert ((apple_note_id <$> map (fun r => if has_id id r then f r else r) (note_state d))
          = apple_note_id <$> note_state d) as ->; [|done].
  clear Hnd. induction (note_state d) as [|a l IH]; [done|].
  cbn [map]. rewrite !fmap_cons. f_equal; [|exact IH].
  destruct (has_id id a); [apply Hf | done].
Qed.

(** X2.  Every writer of the state store keeps [apple_note_id] unique in
    [note_state]: [record_success], [record_failure], the three [UPDATE]
    writers and [record_original]. *)
Theorem writers_keep_primary_key (d : StateDatabase) :
  pk_unique d ->
  (forall now id folder h out gen sn dir locked,
     pk_unique (record_success now id folder h out gen sn dir locked d)) /\
  (forall now id folder h gen err, pk_unique (record_failure now id folder h gen err d)) /\
  (forall id h m, pk_unique (update_supernote_state id h m d)) /\
  (forall id h, pk_unique (update_apple_written_hash id h d)) /\
  (forall id h, pk_unique (update_content_hash_after_reverse_sync id h d)) /\
  (forall row, pk_unique (record_original row d)).
Proof.
  intros Hpk. repeat split; intros.
  - by apply pk_unique_insert_or_replace.
  - by apply pk_unique_insert_or_replace.
  - by apply pk_unique_update_where.
  - by apply pk_unique_update_where.
  - by apply pk_unique_update_where.
  - done.
Qed.

Lemma writers_keep_primary_key_witness :
  let d := {| note_state := [Demo.row "N1" "abc" Demo.plan_path true None];
              originals := [] |} in
  pk_unique d /\
  pk_unique (record_success "t" "N1" "Work" "abd" Demo.plan_path "text" None
               TO_SUPERNOTE false d).
Proof.
  intros d.
  assert (pk_unique d) as Hpk by (unfold pk_unique; simpl; apply NoDup_singleton).
  split; [exact Hpk|].
  apply (proj1 (writers_keep_primary_key d Hpk)).
Defined.

(** X3.  For a note that has a row: after [update_supernote_state id h m]
    the check [is_echo_from_supernote id h'] holds exactly when [h' = h],
    and after [update_apple_written_hash id h] the check
    [is_echo_from_apple id h'] holds exactly when [h' = h].  The rows of
    the other notes read as before. *)
Theorem update_then_echo (d : StateDatabase) (id h : string) (m : Z) (h' : string) :
  is_Some (get_note_state d id) ->
  is_echo_from_supernote (update_supernote_state id h m d) id h' = bool_decide (h = h') /\
  is_echo_from_apple (update_apple_written_hash id h d) id h' = bool_decide (h = h') /\
  (forall id', id' <> id ->
     get_note_state (update_supernote_state id h m d) id' = get_note_state d id' /\
     get_note_state (update_apple_written_hash id h d) id' = get_note_state d id').
Proof.
  intros [st Hst].
  pose proof (get_note_state_id _ _ _ Hst) as Hid.
  unfold is_echo_from_supernote, is_echo_from_apple,
    update_supernote_state, update_apple_written_hash.
  rewrite !get_update_where by done. rewrite Hst. simpl.
  unfold has_id. rewrite !(bool_decide_eq_true_2 (apple_note_id st = id)) by done. simpl.
  split; [|split].
  - apply bool_decide_ext. split; congruence.
  - apply bool_decide_ext. split; congruence.
  - intros id' Hne. rewrite !get_update_where by done.
    destruct (get_note_state d id') as [st'|] eqn:Hst'; simpl; [|done].
    pose proof (get_note_state_id _ _ _ Hst') as Hid'.
    unfold has_id. by rewrite !(bool_decide_eq_false_2 (apple_note_id st' = id)) by congruence.
Qed.

Lemma update_then_echo_witness :
  let d := {| note_state := [Demo.row "N1" "abc" Demo.plan_path true None];
              originals := [] |} in
  is_echo_from_supernote (update_supernote_state "N1" "h1" 5 d) "N1" "h1" = true.
Proof.
  intros d.
  apply (proj1 (update_then_echo d "N1" "h1" 5 "h1" (mk_is_Some _ _ eq_refl))).
Defined.

(** X4.  For a note that has a row: after
    [update_content_hash_after_reverse_sync id h], [needs_update id h']
    holds exactly when [h'] differs from [h]. *)
Theorem content_hash_update_settles_needs_update (d : StateDatabase) (id h h' : string) :
  is_Some (get_note_state d id) ->
  needs_update (update_content_hash_after_reverse_sync id h d) id h'
    = negb (bool_decide (h = h')).
Proof.
  intros [st Hst].
  pose proof (get_note_state_id _ _ _ Hst) as Hid.
  unfold needs_update, update_content_hash_after_reverse_sync.
  rewrite get_update_where by done. rewrite Hst. simpl.
  unfold has_id. by rewrite (bool_decide_eq_true_2 (apple_note_id st = id)).
Qed.

Lemma content_hash_update_settles_needs_update_witness :
  let d := {| note_state := [Demo.row "N1" "abc" Demo.plan_path true None];
              originals := [] |} in
  needs_update (update_content_hash_after_reverse_sync "N1" "new" d) "N1" "new" = false.
Proof.
  intros d.
  apply (content_hash_update_settles_needs_update d "N1" "new" "new" (mk_is_Some _ _ eq_refl)).
Defined.

Lemma update_where_absent (id : string) (f : NoteState -> NoteState) (d : StateDatabase) :
  get_note_state d id = None -> update_where id f d = d.
Proof.
  unfold get_note_state, update_where. destruct d as [rows origs]. simpl. intros Hnone.
  f_equal. induction rows as [|a l IH]; simpl in *; [done|].
  destruct (has_id id a); [done|]. by rewrite IH.
Qed.

(** X5.  When the note has no row, [update_supernote_state],
    [update_apple_written_hash] and [update_content_hash_after_reverse_sync]
    leave the database exactly as it was: none of them creates a row. *)
Theorem updates_without_row_do_nothing (d : StateDatabase) (id h : string) (m : Z) :
  get_note_state d id = None ->
  update_supernote_state id h m d = d /\
  update_apple_written_hash id h d = d /\
  update_content_hash_after_reverse_sync id h d = d.
Proof. intros Hnone. repeat split; by apply update_where_absent. Qed.

Lemma updates_without_row_do_nothing_witness :
  let d := {| note_state := [Demo.row "N1" "abc" Demo.plan_path true None];
              originals := [] |} in
  update_supernote_state "NEW1" "h" 1 d = d /\
  update_apple_written_hash "NEW1" "h" d = d /\
  update_content_hash_after_reverse_sync "NEW1" "h" d = d.
Proof. intros d. apply (updates_without_row_do_nothing d "NEW1" "h" 1). reflexivity. Defined.

(** X6.  [record_success] called without a Mirror fingerprint, as the
    forward loop calls it, stores NULL for [supernote_content_hash],
    [apple_written_hash] and [error]: right after it neither echo check
    holds for the note, whatever the candidate fingerprint. *)
Theorem record_success_forgets_echo_guards (now id folder h out gen : string)
    (dir : SyncDirection) (locked : bool) (d : StateDatabase) (candidate : string) :
  let d' := record_success now id folder h out gen None dir locked d in
  is_echo_from_supernote d' id candidate = false /\
  is_echo_from_apple d' id candidate = false /\
  (supernote_content_hash <$> get_note_state d' id = Some None /\
   apple_written_hash <$> get_note_state d' id = Some None /\
   error <$> get_note_state d' id = Some None).
Proof.
  intros d'. unfold d', is_echo_from_supernote, is_echo_from_apple, record_success.
  rewrite (get_insert_or_replace_eq (mkNoteState id _ _ _ _ _ _ _ _ _ _ _ _)). done.
Qed.

(** X7.  In [get_statistics], [total_files] is the sum of [successful] and
    [failed]. *)
Theorem statistics_add_up (d : StateDatabase) :
  total_files (get_statistics d) = successful (get_statistics d) + failed (get_statistics d).
Proof.
  unfold get_statistics. simpl. rewrite <- Nat2Z.inj_add. f_equal.
  induction (note_state d) as [|a l IH]; simpl; [done|].
  destruct (success a); simpl; lia.
Qed.

(** X8.  When no row of another note holds the path [out], after
    [record_success] for a note with output [out] the lookup
    [get_state_by_output_path out] gives the state of that note, and its
    [output_path] is [out]. *)
Theorem lookup_by_output_path_after_success (now id folder h out gen : string)
    (sn : option string) (dir : SyncDirection) (locked : bool) (d : StateDatabase) :
  (forall r, r ∈ note_state d -> output_path r = out -> apple_note_id r = id) ->
  get_state_by_output_path (record_success now id folder h out gen sn dir locked d) out =
  get_note_state (record_success now id folder h out gen sn dir locked d) id /\
  output_path <$> get_state_by_output_path
                    (record_success now id folder h out gen sn dir locked d) out = Some out.
Proof.
  intros Hown.
  assert (get_state_by_output_path (record_success now id folder h out gen sn dir locked d) out =
          get_note_state (record_success now id folder h out gen sn dir locked d) id) as Heq.
  { unfold get_state_by_output_path, record_success, insert_or_replace. simpl.
    rewrite find_app_last.
    assert (find (fun r => bool_decide (output_path r = out))
              (List.filter (fun r => negb (has_id id r)) (note_state d)) = None) as ->.
    { destruct (find _ _) as [r|] eqn:Hf; [|done].
      apply find_some in Hf as [Hin Hp]. apply filter_In in Hin as [Hin Hid].
      apply bool_decide_eq_true in Hp.
      apply negb_true_iff, bool_decide_eq_false in Hid.
      destruct Hid. apply Hown; [by apply list_elem_of_In | done]. }
    simpl. by rewrite bool_decide_eq_true_2. }
  split; [exact Heq|]. rewrite Heq. unfold record_success.
  by rewrite (get_insert_or_replace_eq (mkNoteState id _ _ _ _ _ _ _ _ _ _ _ _)).
Qed.

Lemma lookup_by_output_path_after_success_witness :
  let d := {| note_state := [Demo.row "N1" "abc" Demo.plan_path true None];
              originals := [] |} in
  output_path <$> get_state_by_output_path
    (record_success "t" "N1" "Work" "abd" Demo.plan_path "text" None TO_SUPERNOTE false d)
    Demo.plan_path = Some Demo.plan_path.
Proof.
  intros d.
  apply (lookup_by_output_path_after_success "t" "N1" "Work" "abd" Demo.plan_path "text"
           None TO_SUPERNOTE false d).
  intros r Hr _. apply list_elem_of_singleton in Hr. by subst r.
Defined.

Lemma orphaned_outputs_insert_or_replace (row : NoteState) (d : StateDatabase)
    (current : gset string) :
  get_orphaned_outputs (insert_or_replace row d) current =
  (map output_path
     (List.filter (fun r => success r && negb (bool_decide (apple_note_id r ∈ current)) &&
                            negb (has_id (apple_note_id row) r)) (note_state d)) ++
   (if success row && negb (bool_decide (apple_note_id row ∈ current))
    then [output_path row] else []))%list.
Proof.
  unfold get_orphaned_outputs, insert_or_replace. cbn [note_state].
  rewrite !List.filter_app, List.map_app. f_equal.
  - induction (note_state d) as [|a l IH]; [done|]. cbn [List.filter].
    destruct (has_id (apple_note_id row) a); cbn [negb List.filter].
    + rewrite andb_false_r. exact IH.
    + rewrite andb_true_r. destruct (success a); cbn [andb List.filter]; [|exact IH].
      destruct (negb (bool_decide (apple_note_id a ∈ current))); cbn [map]; by rewrite IH.
  - cbn [List.filter]. destruct (success row); cbn [andb List.filter]; [|done].
    by destruct (negb (bool_decide (apple_note_id row ∈ current))).
Qed.

(** X9.  [get_orphaned_outputs] after a write for note [id]: after
    [record_failure] the note contributes nothing (its earlier output is no
    longer listed), after [record_success] it contributes its new output
    exactly when [id] is not among the current ids; the other rows
    contribute as before, in row order. *)
Theorem orphans_after_recording (now id folder h out gen : string) (err : option string)
    (sn : option string) (dir : SyncDirection) (locked : bool) (d : StateDatabase)
    (current : gset string) :
  let others :=
    map output_path
      (List.filter (fun r => success r && negb (bool_decide (apple_note_id r ∈ current)) &&
                             negb (has_id id r)) (note_state d)) in
  get_orphaned_outputs (record_failure now id folder h gen err d) current = others /\
  get_orphaned_outputs (record_success now id folder h out gen sn dir locked d) current =
    (others ++ (if bool_decide (id ∈ current) then [] else [out]))%list.
Proof.
  intros others. unfold record_failure, record_success.
  rewrite !orphaned_outputs_insert_or_replace. cbn [success apple_note_id output_path andb].
  split; [by rewrite app_nil_r|]. by destruct (bool_decide (id ∈ current)).
Qed.

End StoreRoundTrips.

(** * Further properties of the detector *)

Section Paths.
Import PyStr.

Lemma split_on_nonempty (sep : ascii) (s : string) : split_on sep s <> [].
Proof.
  destruct s as [|c s]; simpl; [done|].
  destruct (Ascii.eqb c sep); [done|]. by destruct (split_on sep s).
Qed.

Lemma split_on_app (sep : ascii) (a b : string) :
  split_on sep (a ++ String sep b) = (split_on sep a ++ split_on sep b)%list.
Proof.
  induction a as [|c a IH]; simpl.
  - by rewrite Ascii.eqb_refl.
  - destruct (Ascii.eqb c sep); [by rewrite IH|].
    rewrite IH. pose proof (split_on_nonempty sep a).
    by destruct (split_on sep a).
Qed.

Lemma split_on_absent (sep : ascii) (s : string) :
  occurs sep s = false -> split_on sep s = [s].
Proof.
  induction s as [|c s IH]; simpl; [done|].
  intros H. apply orb_false_iff in H as [Hc Hs]. rewrite Hc. by rewrite IH.
Qed.

Lemma join_split_on (sep : ascii) (s : string) :
  join (String sep EmptyString) (split_on sep s) = s.
Proof.
  induction s as [|c s IH]; simpl; [done|].
  pose proof (split_on_nonempty sep s) as Hne.
  destruct (Ascii.eqb c sep) eqn:Hc.
  - apply Ascii.eqb_eq in Hc. subst c.
    destruct (split_on sep s) as [|seg rest]; [done|].
    simpl in *. by rewrite IH.
  - destruct (split_on sep s) as [|seg rest]; [done|].
    destruct rest as [|seg' rest]; simpl in *; by rewrite <- IH.
Qed.

Lemma strip_prefix_app (pre s : string) : strip_prefix pre (pre ++ s) = Some s.
Proof.
  induction pre as [|c pre IH]; simpl; [by destruct s|].
  by rewrite Ascii.eqb_refl.
Qed.

Lemma length_append (a b : string) :
  String.length (a ++ b) = (String.length a + String.length b)%nat.
Proof. induction a as [|c a IH]; simpl; [done|]. by rewrite IH. Qed.

Lemma strip_prefix_slash (root rest : string) :
  strip_prefix (root ++ "/") (root ++ "/" ++ rest) = Some rest.
Proof.
  induction root as [|c root IH]; simpl; [by destruct rest|].
  by rewrite Ascii.eqb_refl.
Qed.

Lemma append_cons_neq (s t : string) (c : ascii) : s ++ String c t <> s.
Proof.
  intros H. apply (f_equal String.length) in H.
  rewrite length_append in H. simpl in H. lia.
Qed.

Lemma last_segment_app (sep : ascii) (a b : string) :
  occurs sep b = false -> last_segment sep (a ++ String sep b) = b.
Proof.
  intros Hb. unfold last_segment.
  by rewrite split_on_app, (split_on_absent _ _ Hb), last_snoc.
Qed.

Lemma rfind_dot_app (a b : string) :
  occurs "."%char b = false ->
  rfind_dot (a ++ String "."%char b) = Some (String.length a).
Proof.
  intros Hb.
  assert (rfind_dot b = None) as Hnone.
  { clear a. induction b as [|c b IH]; simpl in *; [done|].
    apply orb_false_iff in Hb as [Hc Hb]. by rewrite IH, Hc. }
  induction a as [|c a IH]; simpl.
  - by rewrite Hnone.
  - by rewrite IH.
Qed.

Lemma substring_prefix (a b : string) : substring 0 (String.length a) (a ++ b) = a.
Proof.
  induction a as [|c a IH]; simpl; [by destruct b|]. by rewrite IH.
Qed.

End Paths.

Section PathParsing.
Import PyStr PyPath.

Lemma parts_app (a b : string) :
  parts (a ++ "/" ++ b) = (parts a ++ parts b)%list.
Proof.
  unfold parts. change (a ++ "/" ++ b) with (a ++ String "/"%char b).
  by rewrite split_on_app, List.filter_app.
Qed.

Lemma parts_plain_name (n : string) : plain_name n = true -> parts n = [n].
Proof.
  unfold plain_name. intros H. apply andb_true_iff in H as [Hs Hk].
  apply negb_true_iff in Hs. unfold parts. rewrite (split_on_absent _ _ Hs). simpl.
  by rewrite Hk.
Qed.

Lemma filter_forallb {A} (f : A -> bool) (l : list A) :
  forallb f l = true -> List.filter f l = l.
Proof.
  induction l as [|a l IH]; simpl; [done|].
  intros H. apply andb_true_iff in H as [-> Hl]. by rewrite IH.
Qed.

Lemma parts_normal_folder (folder : string) :
  normal_folder folder = true -> parts folder = split_on "/"%char folder.
Proof. intros H. unfold parts. by apply filter_forallb. Qed.

Lemma strip_parts_app (l r : list string) : strip_parts l (l ++ r) = Some r.
Proof.
  induction l as [|a l IH]; simpl; [by destruct r|].
  by rewrite bool_decide_eq_true_2.
Qed.

Lemma anchor_plain_absolute (root rest : string) :
  plain_absolute root = true -> anchor (root ++ rest) = "/".
Proof.
  destruct root as [|a [|b r]]; simpl; try done.
  intros H. apply andb_true_iff in H as [-> Hb]. apply negb_true_iff in Hb.
  by rewrite Hb.
Qed.

Lemma anchor_plain_absolute_self (root : string) :
  plain_absolute root = true -> anchor root = "/".
Proof.
  destruct root as [|a [|b r]]; simpl; try done.
  intros H. apply andb_true_iff in H as [-> Hb]. apply negb_true_iff in Hb.
  by rewrite Hb.
Qed.

Lemma relative_to_below (root rest : string) :
  plain_absolute root = true ->
  relative_to root (root ++ "/" ++ rest) = Some (parts rest).
Proof.
  intros Hroot. unfold relative_to.
  rewrite (anchor_plain_absolute root _ Hroot).
  pose proof (anchor_plain_absolute_self root Hroot) as Ha.
  rewrite Ha, bool_decide_eq_true_2 by done.
  by rewrite parts_app, strip_parts_app.
Qed.

End PathParsing.

(** X10.  [get_apple_folder_path], for a root whose text starts with one
    slash, a file name that is a single component and a folder path with no
    empty and no [.] component: a file directly in the root gives the empty
    string, a file in [root/folder] gives [folder], the root itself gives the
    empty string, and so does every relative path; a trailing slash on the
    root makes no difference. *)
Theorem get_apple_folder_path_cases (root folder name : string) :
  plain_absolute root = true ->
  plain_name name = true ->
  normal_folder folder = true ->
  Watcher.get_apple_folder_path root (root ++ "/" ++ name) = "" /\
  Watcher.get_apple_folder_path root (root ++ "/" ++ folder ++ "/" ++ name) = folder /\
  Watcher.get_apple_folder_path root root = "" /\
  (forall p, PyPath.anchor p = "" -> Watcher.get_apple_folder_path root p = "") /\
  (forall p, Watcher.get_apple_folder_path (root ++ "/") p =
             Watcher.get_apple_folder_path root p).
Proof.
  intros Hroot Hname Hfolder.
  pose proof (anchor_plain_absolute_self root Hroot) as Ha.
  unfold Watcher.get_apple_folder_path.
  split; [|split; [|split; [|split]]].
  - rewrite (relative_to_below _ _ Hroot), (parts_plain_name _ Hname). done.
  - rewrite (relative_to_below _ _ Hroot), parts_app, (parts_plain_name _ Hname).
    rewrite (parts_normal_folder _ Hfolder).
    unfold PyPath.parent_str. rewrite removelast_last.
    pose proof (split_on_nonempty "/"%char folder) as Hne.
    pose proof (join_split_on "/"%char folder) as Hjoin.
    assert (folder <> ".") as Hdot by (intros ->; discriminate Hfolder).
    destruct (PyStr.split_on "/"%char folder) as [|seg rest]; [done|].
    rewrite Hjoin. by rewrite bool_decide_eq_false_2.
  - unfold PyPath.relative_to. rewrite bool_decide_eq_true_2 by done.
    replace (PyPath.parts root) with (PyPath.parts root ++ [])%list at 2
      by apply app_nil_r.
    by rewrite strip_parts_app.
  - intros p Hp. unfold PyPath.relative_to. rewrite Hp, Ha. done.
  - intros p. unfold PyPath.relative_to.
    rewrite (anchor_plain_absolute root "/" Hroot), Ha.
    change (root ++ "/") with (root ++ "/" ++ ""). rewrite parts_app. simpl.
    by rewrite app_nil_r.
Qed.

Lemma get_apple_folder_path_cases_witness :
  Watcher.get_apple_folder_path Demo.root (Demo.root ++ "/" ++ "Idea.txt") = "" /\
  Watcher.get_apple_folder_path Demo.root
    (Demo.root ++ "/" ++ "Work/Projects" ++ "/" ++ "Idea.txt") = "Work/Projects".
Proof.
  destruct (get_apple_folder_path_cases Demo.root "Work/Projects" "Idea.txt"
              eq_refl eq_refl eq_refl) as (H1 & H2 & _).
  split; [exact H1 | exact H2].
Defined.

(** X11.  [get_note_title_from_path] of [dir/base.txt], where [base] has no
    [/], is [base]; only the last suffix is removed, and for the file named
    [.txt] the title is [.txt] itself. *)
Theorem note_title_is_the_name_without_txt (dir base : string) :
  occurs "/"%char base = false ->
  Watcher.get_note_title_from_path (dir ++ "/" ++ base ++ ".txt")
    = (if bool_decide (base = "") then ".txt" else base).
Proof.
  intros Hbase. unfold Watcher.get_note_title_from_path, PyPath.stem, PyPath.name.
  change (dir ++ "/" ++ base ++ ".txt") with (dir ++ String "/"%char (base ++ ".txt")).
  assert (occurs "/"%char (base ++ ".txt") = false) as Hn.
  { clear -Hbase. induction base as [|c b IH]; simpl in *; [done|].
    apply orb_false_iff in Hbase as [-> Hb]. by apply IH. }
  rewrite (last_segment_app _ _ _ Hn).
  change (base ++ ".txt") with (base ++ String "."%char "txt").
  rewrite rfind_dot_app by done.
  destruct base as [|c b]; [done|].
  rewrite bool_decide_eq_false_2 by done.
  rewrite length_append.
  replace (0 <? String.length (String c b))%nat with true by done.
  replace (String.length (String c b) <? String.length (String c b) + String.length ".txt" - 1)%nat
    with true by (symmetry; apply Nat.ltb_lt; simpl; lia).
  simpl andb. cbv iota.
  by rewrite substring_prefix.
Qed.

Lemma note_title_is_the_name_without_txt_witness :
  Watcher.get_note_title_from_path ("/sn/Note/Apple/Work" ++ "/" ++ "v1.2 notes" ++ ".txt")
    = "v1.2 notes".
Proof. apply (note_title_is_the_name_without_txt "/sn/Note/Apple/Work" "v1.2 notes"). reflexivity. Defined.

Section MoreDetector.
Variable E : Env.
Import StateDb.

Lemma path_to_state_entry (states : list (option NoteState)) (p : string) (st : NoteState) :
  (p, st) ∈ Watcher.path_to_state states -> Some st ∈ states /\ output_path st = p /\ p <> "".
Proof.
  intros H. apply path_to_state_elem in H as [Hp Hlast].
  apply last_Some_elem_of, list_elem_of_In, filter_In in Hlast as [Hin Hout].
  apply bool_decide_eq_true in Hout.
  apply list_elem_of_In, list_elem_of_omap in Hin as (o & Ho & Hid). simpl in Hid.
  by subst o.
Qed.

Lemma last_all_equal {A} (l : list A) (x : A) :
  x ∈ l -> (forall y, y ∈ l -> y = x) -> last l = Some x.
Proof.
  intros Hin Hall. destruct (last l) as [z|] eqn:Hl.
  - f_equal. apply Hall. by apply last_Some_elem_of.
  - apply last_None in Hl. subst l. by apply elem_of_nil in Hin.
Qed.

(** When no other tracked text state holds the path of a tracked text state,
    that state is the one the detector keeps for the path. *)
Lemma tracked_state_for_unique (d : StateDatabase) (st : NoteState) :
  Some st ∈ get_all_txt_states d ->
  (forall st', Some st' ∈ get_all_txt_states d ->
               output_path st' = output_path st -> st' = st) ->
  tracked_state_for d (output_path st) = Some st.
Proof.
  intros Hin Huniq. unfold tracked_state_for. apply last_all_equal.
  - apply list_elem_of_In, filter_In. split.
    + apply list_elem_of_In, list_elem_of_omap. by exists (Some st).
    + by apply bool_decide_eq_true.
  - intros y Hy. apply list_elem_of_In, filter_In in Hy as [Hy Hp].
    apply bool_decide_eq_true in Hp.
    apply list_elem_of_In, list_elem_of_omap in Hy as (o & Ho & Hid). simpl in Hid.
    subst o. by apply Huniq.
Qed.

(** X12.  The DELETED changes of [scan_for_changes].  The detector keeps
    one state per output path, the last tracked text state in row order
    that holds it ([tracked_state_for]).  Every reported deletion is
    [deleted_change] of the state kept for its path, whose file does not
    exist; and every path with a kept state whose file does not exist is
    reported so.  A tracked state that shares its path with a later one is
    not looked at; when no other tracked text state holds its path, a
    tracked state whose file does not exist is reported. *)
Theorem scan_for_changes_deleted (d : StateDatabase) (f : FileSystem) :
  (forall c, c ∈ Watcher.scan_for_changes E d f -> change_type c = DELETED ->
     exists st, tracked_state_for d (change_path c) = Some st /\
                get_note_state d (change_apple_note_id c) = Some st /\
                Fs.exists_ f (change_path c) = false /\
                c = deleted_change st) /\
  (forall p st, p <> "" -> tracked_state_for d p = Some st -> Fs.exists_ f p = false ->
     deleted_change st ∈ Watcher.scan_for_changes E d f) /\
  (forall st, Some st ∈ get_all_txt_states d -> output_path st <> "" ->
     (forall st', Some st' ∈ get_all_txt_states d ->
                  output_path st' = output_path st -> st' = st) ->
     Fs.exists_ f (output_path st) = false ->
     deleted_change st ∈ Watcher.scan_for_changes E d f).
Proof.
  assert (forall p st, p <> "" -> tracked_state_for d p = Some st ->
            Fs.exists_ f p = false ->
            deleted_change st ∈ Watcher.scan_for_changes E d f) as Hkept.
  { intros p st Hp Hlast Hex.
    destruct (tracked_state_for_elem d p st Hlast) as [Hout _]. subst p.
    unfold Watcher.scan_for_changes. apply list_elem_of_In, in_flat_map.
    exists (output_path st, st). split.
    + apply list_elem_of_In, path_to_state_elem. done.
    + unfold Watcher.check_tracked. rewrite Hex. simpl. by left. }
  split; [|split].
  - intros c Hin Hty. unfold Watcher.scan_for_changes in Hin.
    apply list_elem_of_In, in_flat_map in Hin as ([p st] & Hentry & Hc).
    apply list_elem_of_In, path_to_state_elem in Hentry as [Hp Hlast].
    fold (tracked_state_for d p) in Hlast.
    destruct (tracked_state_for_elem d p st Hlast) as [Hout Hget]. subst p.
    unfold Watcher.check_tracked in Hc.
    destruct (Fs.exists_ f (output_path st)) eqn:Hex; simpl in Hc.
    + destruct (Watcher.compute_content_hash E f (output_path st)); [|done].
      destruct (Watcher.get_file_mtime_ms f (output_path st)); [|done].
      destruct (supernote_content_hash st); [|done].
      destruct (_ && _); [|done]. destruct Hc as [<-|[]]. done.
    + destruct Hc as [<-|[]]. exists st. simpl. done.
  - exact Hkept.
  - intros st Hin Hp Huniq Hex.
    apply (Hkept (output_path st) st Hp); [|exact Hex].
    by apply tracked_state_for_unique.
Qed.

(** X13.  A text output ([.txt], ASCII case ignored) that [record_success]
    has just recorded is never among the files [scan_for_new_files]
    reports. *)
Theorem recorded_text_file_is_not_new (root now id folder h out gen : string)
    (sn : option string) (dir : SyncDirection) (locked : bool)
    (d : StateDatabase) (f : FileSystem) :
  like_txt out = true ->
  out ∉ Watcher.scan_for_new_files root
          (record_success now id folder h out gen sn dir locked d) f.
Proof.
  intros Hlike Hin. unfold Watcher.scan_for_new_files in Hin.
  destruct (negb (Fs.exists_ f root)); [by apply elem_of_nil in Hin|].
  apply list_elem_of_In, filter_In in Hin as [_ Hn].
  apply negb_true_iff, bool_decide_eq_false in Hn. apply Hn.
  unfold Watcher.tracked_paths. apply list_elem_of_omap.
  set (row := mkNoteState id folder h now out gen true None sn None (Some dir) None locked).
  exists (Some row). split; [|done].
  unfold get_all_txt_states. apply list_elem_of_In, in_map_iff.
  exists row. split.
  - apply (get_insert_or_replace_eq row d).
  - apply filter_In. split.
    + unfold record_success, insert_or_replace. simpl. apply in_or_app. right. by left.
    + unfold txt_row. simpl. by rewrite Hlike.
Qed.

Lemma recorded_text_file_is_not_new_witness :
  Demo.plan_path ∉
    Watcher.scan_for_new_files Demo.root
      (record_success "t" "N1" "Work" "abc" Demo.plan_path "text" None TO_SUPERNOTE false
         {| note_state := []; originals := [] |})
      (Demo.disk [(Demo.plan_path, "text")]).
Proof. apply recorded_text_file_is_not_new. reflexivity. Defined.

End MoreDetector.

Lemma scan_for_changes_deleted_witness :
  deleted_change (Demo.row "N1" Demo.plan_hash Demo.plan_path true (Some "h:old"))
    ∈ Watcher.scan_for_changes Demo.env_up (db Demo.world_deleted) (fs Demo.world_deleted).
Proof.
  apply (proj1 (proj2 (scan_for_changes_deleted Demo.env_up (db Demo.world_deleted)
                         (fs Demo.world_deleted))) Demo.plan_path).
  - discriminate.
  - vm_compute. reflexivity.
  - vm_compute. reflexivity.
Defined.

Section Refresh.
Variable E : Env.
Import StateDb.

(** The database after the loop of [update_supernote_hashes], as a fold. *)
Lemma refresh_loop (states : list (option NoteState)) (w : World) :
  exists d',
    for_each (Engine.refresh_state E) states tt w =
      (Ok tt, {| db := d'; fs := fs w; originals_folder_id := originals_folder_id w;
                 trace := trace w |}) /\
    note_state d' =
      note_state
        (foldl (fun d o =>
                  match o with
                  | Some st =>
                      if PyStr.truthy (output_path st) && Fs.exists_ (fs w) (output_path st) then
                        match Watcher.compute_content_hash E (fs w) (output_path st),
                              Watcher.get_file_mtime_ms (fs w) (output_path st) with
                        | Some h, Some m => update_supernote_state (apple_note_id st) h m d
                        | _, _ => d
                        end
                      else d
                  | None => d
                  end) (db w) states) /\
    originals d' = originals (db w).
Proof.
  revert w. induction states as [|o states IH]; intros w.
  - exists (db w). simpl. by destruct w.
  - simpl. unfold bind.
    assert (exists d1,
      Engine.refresh_state E tt o w =
        (Ok tt, {| db := d1; fs := fs w; originals_folder_id := originals_folder_id w;
                   trace := trace w |}) /\
      d1 = match o with
           | Some st =>
               if PyStr.truthy (output_path st) && Fs.exists_ (fs w) (output_path st) then
                 match Watcher.compute_content_hash E (fs w) (output_path st),
                       Watcher.get_file_mtime_ms (fs w) (output_path st) with
                 | Some h, Some m => update_supernote_state (apple_note_id st) h m (db w)
                 | _, _ => db w
                 end
               else db w
           | None => db w
           end) as (d1 & -> & Hd1).
    { unfold Engine.refresh_state. destruct o as [st|]; [|exists (db w); by destruct w].
      destruct (PyStr.truthy (output_path st)); simpl; [|exists (db w); by destruct w].
      unfold bind, gets. simpl.
      destruct (Fs.exists_ (fs w) (output_path st)); simpl; [|exists (db w); by destruct w].
      destruct (Watcher.compute_content_hash E (fs w) (output_path st)) as [h|];
        [|exists (db w); by destruct w].
      destruct (Watcher.get_file_mtime_ms (fs w) (output_path st)) as [m|];
        [|exists (db w); by destruct w].
      eexists. split; reflexivity. }
    destruct (IH {| db := d1; fs := fs w; originals_folder_id := originals_folder_id w;
                    trace := trace w |}) as (d' & Hrun & Hns & Hor).
    simpl in *. exists d'. split; [exact Hrun|]. rewrite Hns, Hor, Hd1. split; [done|].
    destruct o as [st|]; [|done].
    destruct (_ && _); [|done].
    destruct (Watcher.compute_content_hash E (fs w) (output_path st)); [|done].
    by destruct (Watcher.get_file_mtime_ms (fs w) (output_path st)).
Qed.

Lemma refreshed_id (f : FileSystem) (r : NoteState) :
  apple_note_id (refreshed E f r) = apple_note_id r /\
  output_path (refreshed E f r) = output_path r /\
  success (refreshed E f r) = success r.
Proof.
  unfold refreshed. destruct (_ && _); [|done].
  destruct (Watcher.compute_content_hash E f (output_path r)); [|done].
  by destruct (Watcher.get_file_mtime_ms f (output_path r)).
Qed.

(** The fold over a list of distinct tracked rows refreshes exactly those. *)
Lemma refresh_fold (f : FileSystem) (rows l : list NoteState) (origs : list Original) :
  NoDup (apple_note_id <$> rows) ->
  NoDup (apple_note_id <$> l) ->
  (forall st, st ∈ l -> st ∈ rows /\ txt_row st = true) ->
  forall (g : NoteState -> NoteState),
    (forall r, apple_note_id (g r) = apple_note_id r) ->
    (forall st, st ∈ l -> g st = st) ->
    note_state
      (foldl (fun d o =>
                match o with
                | Some st =>
                    if PyStr.truthy (output_path st) && Fs.exists_ f (output_path st) then
                      match Watcher.compute_content_hash E f (output_path st),
                            Watcher.get_file_mtime_ms f (output_path st) with
                      | Some h, Some m => update_supernote_state (apple_note_id st) h m d
                      | _, _ => d
                      end
                    else d
                | None => d
                end) {| note_state := map g rows; originals := origs |} (map Some l))
    = map (fun r => if bool_decide (apple_note_id r ∈ apple_note_id <$> l)
                    then refreshed E f r else g r) rows.
Proof.
  intros Hpk. induction l as [|st l IH]; intros Hnd Hl g Hg Hfix.
  - simpl. by apply map_ext.
  - rewrite fmap_cons in Hnd. apply NoDup_cons in Hnd as [Hst Hnd].
    destruct (Hl st) as [Hrow Htxt]; [by left|].
    simpl.
    set (g' := fun r => if has_id (apple_note_id st) r then refreshed E f r else g r).
    assert ((if PyStr.truthy (output_path st) && Fs.exists_ f (output_path st)
             then match Watcher.compute_content_hash E f (output_path st),
                        Watcher.get_file_mtime_ms f (output_path st) with
                  | Some h, Some m =>
                      update_supernote_state (apple_note_id st) h m
                        {| note_state := map g rows; originals := origs |}
                  | _, _ => {| note_state := map g rows; originals := origs |}
                  end
             else {| note_state := map g rows; originals := origs |})
            = {| note_state := map g' rows; originals := origs |}) as ->.
    { assert (forall r, r ∈ rows -> has_id (apple_note_id st) r = true -> r = st) as Huniq.
      { intros r Hr Hid. unfold has_id in Hid. apply bool_decide_eq_true in Hid.
        clear -Hpk Hr Hrow Hid. induction rows as [|a rows IHr]; [by apply elem_of_nil in Hr|].
        rewrite fmap_cons in Hpk. apply NoDup_cons in Hpk as [Ha Hpk].
        apply elem_of_cons in Hr as [->|Hr]; apply elem_of_cons in Hrow as [->|Hrow];
          try done.
        - destruct Ha. rewrite Hid. by apply list_elem_of_fmap_2.
        - destruct Ha. rewrite <- Hid. by apply list_elem_of_fmap_2.
        - by apply IHr. }
      assert (map g' rows =
              map (fun r => if has_id (apple_note_id st) r then refreshed E f st else g r) rows)
        as Hg'.
      { apply map_ext_in. intros r Hr. unfold g'.
        destruct (has_id (apple_note_id st) r) eqn:Hid; [|done].
        by rewrite (Huniq r (proj2 (list_elem_of_In _ _) Hr) Hid). }
      rewrite Hg'. unfold refreshed. rewrite Htxt. simpl.
      destruct (PyStr.truthy (output_path st) && Fs.exists_ f (output_path st)) eqn:Hc.
      2:{ f_equal. apply map_ext_in. intros r Hr.
          destruct (has_id (apple_note_id st) r) eqn:Hid; [|done].
          rewrite (Huniq r (proj2 (list_elem_of_In _ _) Hr) Hid). apply Hfix. by left. }
      destruct (Watcher.compute_content_hash E f (output_path st)) as [h|].
      2:{ f_equal. apply map_ext_in. intros r Hr.
          destruct (has_id (apple_note_id st) r) eqn:Hid; [|done].
          rewrite (Huniq r (proj2 (list_elem_of_In _ _) Hr) Hid). apply Hfix. by left. }
      destruct (Watcher.get_file_mtime_ms f (output_path st)) as [m|].
      2:{ f_equal. apply map_ext_in. intros r Hr.
          destruct (has_id (apple_note_id st) r) eqn:Hid; [|done].
          rewrite (Huniq r (proj2 (list_elem_of_In _ _) Hr) Hid). apply Hfix. by left. }
      unfold update_supernote_state, update_where. simpl. f_equal.
      rewrite map_map. apply map_ext_in. intros r Hr.
      unfold has_id at 1. rewrite Hg. fold (has_id (apple_note_id st) r).
      destruct (has_id (apple_note_id st) r) eqn:Hid; [|done].
      rewrite (Huniq r (proj2 (list_elem_of_In _ _) Hr) Hid).
      rewrite (Hfix st); [done | by left]. }
    rewrite (IH Hnd).
    + apply map_ext_in. intros r Hr. unfold g'.
      unfold has_id.
      destruct (bool_decide (apple_note_id r ∈ apple_note_id <$> l)) eqn:Hin.
      * apply bool_decide_eq_true in Hin.
        rewrite bool_decide_eq_true_2; [done | by right].
      * apply bool_decide_eq_false in Hin.
        case_bool_decide as Hid.
        -- rewrite bool_decide_eq_true_2; [done|]. rewrite Hid. by left.
        -- rewrite bool_decide_eq_false_2; [done|].
           intros Hc. apply elem_of_cons in Hc as [Hc|Hc]; [congruence | done].
    + intros st' Hst'. apply Hl. by right.
    + intros r. unfold g'. destruct (has_id _ r); [apply refreshed_id | apply Hg].
    + intros st' Hst'. unfold g'. unfold has_id.
      rewrite bool_decide_eq_false_2; [apply Hfix; by right|].
      intros Heq. apply Hst. rewrite <- Heq. by apply list_elem_of_fmap_2.
Qed.

Lemma NoDup_ids_filter (P : NoteState -> bool) (rows : list NoteState) :
  NoDup (apple_note_id <$> rows) -> NoDup (apple_note_id <$> List.filter P rows).
Proof.
  induction rows as [|a rows IH]; [done|].
  rewrite fmap_cons. intros Hnd. apply NoDup_cons in Hnd as [Ha Hnd].
  cbn [List.filter]. destruct (P a); [|by apply IH].
  rewrite fmap_cons. apply NoDup_cons. split; [|by apply IH].
  intros Hin. apply Ha. apply list_elem_of_fmap in Hin as (r & -> & Hr).
  apply list_elem_of_fmap_2. apply list_elem_of_In, filter_In in Hr as [Hr _].
  by apply list_elem_of_In.
Qed.

Lemma ids_map_refreshed (f : FileSystem) (l : list NoteState) :
  apple_note_id <$> map (refreshed E f) l = apple_note_id <$> l.
Proof.
  induction l as [|a l IH]; [done|].
  cbn [map]. rewrite !fmap_cons. f_equal; [apply refreshed_id | apply IH].
Qed.

Lemma update_supernote_hashes_rows (w : World) :
  pk_unique (db w) ->
  exists d',
    Engine.update_supernote_hashes E w =
      (Ok tt, {| db := d'; fs := fs w; originals_folder_id := originals_folder_id w;
                 trace := trace w |}) /\
    note_state d' = map (refreshed E (fs w)) (note_state (db w)) /\
    originals d' = originals (db w).
Proof.
  intros Hpk. unfold Engine.update_supernote_hashes, bind, gets. simpl.
  destruct (refresh_loop (get_all_txt_states (db w)) w) as (d' & Hrun & Hns & Hor).
  exists d'. split; [exact Hrun|]. split; [|exact Hor].
  rewrite Hns, (get_all_txt_states_pk _ Hpk).
  destruct (db w) as [rows origs] eqn:Hdb. simpl in *.
  rewrite <- (map_id rows) at 1.
  rewrite (refresh_fold (fs w) rows (List.filter txt_row rows) origs Hpk).
  - apply map_ext_in. intros r Hr. case_bool_decide as Hin; [done|].
    unfold refreshed.
    destruct (txt_row r) eqn:Htxt; [|done]. destruct Hin.
    apply list_elem_of_fmap_2, list_elem_of_In, filter_In. done.
  - by apply NoDup_ids_filter.
  - intros st Hst. apply list_elem_of_In, filter_In in Hst as [Hst Ht].
    by rewrite list_elem_of_In.
  - done.
  - done.
Qed.

End Refresh.

(** X14.  With unique keys, [update_supernote_hashes] ends normally,
    touches neither the Mirror, the trace nor the backup ledger, and turns
    [note_state] into its rows [refreshed] against the Mirror.  A scan right
    after it reports no modification: every change it reports is a
    deletion. *)
Theorem refresh_then_scan_reports_no_modification (E : Env) (w : World) :
  pk_unique (db w) ->
  let rw := Engine.update_supernote_hashes E w in
  rw.1 = Ok tt /\
  fs rw.2 = fs w /\ trace rw.2 = trace w /\ originals (db rw.2) = originals (db w) /\
  note_state (db rw.2) = map (refreshed E (fs w)) (note_state (db w)) /\
  (forall c, c ∈ Watcher.scan_for_changes E (db rw.2) (fs rw.2) -> change_type c = DELETED).
Proof.
  intros Hpk rw. unfold rw.
  destruct (update_supernote_hashes_rows E w Hpk) as (d' & -> & Hns & Hor). simpl.
  repeat (split; [done|]).
  intros c Hin.
  assert (pk_unique d') as Hpk'.
  { unfold pk_unique in *. rewrite Hns.
    by rewrite ids_map_refreshed. }
  unfold Watcher.scan_for_changes in Hin.
  apply list_elem_of_In, in_flat_map in Hin as ([p st] & Hentry & Hc).
  apply list_elem_of_In, path_to_state_entry in Hentry as (Hst & Hout & Hp).
  rewrite (get_all_txt_states_pk _ Hpk') in Hst.
  apply list_elem_of_In, in_map_iff in Hst as (st' & Heq & Hst'). injection Heq as ->.
  apply filter_In in Hst' as [Hrow Htxt]. rewrite Hns in Hrow.
  apply in_map_iff in Hrow as (r & Hr & _). subst p.
  unfold Watcher.check_tracked in Hc.
  destruct (Fs.exists_ (fs w) (output_path st)) eqn:Hex; simpl in Hc.
  - destruct (refreshed_id E (fs w) r) as (Hid & Hpath & Hsucc). rewrite Hr in Hid, Hpath, Hsucc.
    assert (StateDb.txt_row r = true) as Htxt_r.
    { unfold StateDb.txt_row in *. by rewrite <- Hpath, <- Hsucc. }
    assert (PyStr.truthy (output_path r) = true) as Htruthy.
    { rewrite <- Hpath. unfold PyStr.truthy. by rewrite bool_decide_eq_false_2. }
    unfold refreshed in Hr. rewrite Htxt_r, Htruthy, <- Hpath, Hex in Hr. simpl in Hr.
    destruct (Watcher.compute_content_hash E (fs w) (output_path st)) as [h|]; [|done].
    destruct (Watcher.get_file_mtime_ms (fs w) (output_path st)) as [m|]; [|done].
    subst st. simpl in Hc.
    rewrite (bool_decide_eq_true_2 (h = h)) in Hc by done.
    rewrite andb_false_r in Hc. done.
  - destruct Hc as [<-|[]]. done.
Qed.

Lemma refresh_then_scan_reports_no_modification_witness :
  let w := Demo.world_edited Demo.plan_hash in
  let rw := Engine.update_supernote_hashes Demo.env_up w in
  Watcher.scan_for_changes Demo.env_up (db w) (fs w) = [Demo.plan_modified] /\
  (forall c, c ∈ Watcher.scan_for_changes Demo.env_up (db rw.2) (fs rw.2) ->
             change_type c = DELETED).
Proof.
  intros w rw. split; [vm_compute; reflexivity|].
  apply (refresh_then_scan_reports_no_modification Demo.env_up w).
  unfold pk_unique. simpl. apply NoDup_singleton.
Defined.

(** * Further properties of the reverse applier and of the driver *)

Section Frames.
Variable E : Env.
Context {B : Type} (view : World -> B).
(** The view does not look at the trace, the folder cache or the ledger. *)
Hypothesis view_log : forall w e,
  view {| db := db w; fs := fs w; originals_folder_id := originals_folder_id w;
          trace := trace w ++ [e] |} = view w.
Hypothesis view_cache : forall w i,
  view {| db := db w; fs := fs w; originals_folder_id := Some i; trace := trace w |} = view w.
Hypothesis view_db : forall w d,
  note_state d = note_state (db w) ->
  view {| db := d; fs := fs w; originals_folder_id := originals_folder_id w;
          trace := trace w |} = view w.

Lemma keeps_view_ret {A} (a : A) : keeps view (ret a).
Proof. by intros w. Qed.

Lemma keeps_view_raise {A} (e : string) : keeps view (@raise A e).
Proof. by intros w. Qed.

Lemma keeps_view_gets {A} (f : World -> A) : keeps view (gets f).
Proof. by intros w. Qed.

Lemma keeps_view_log (e : Event) : keeps view (log e).
Proof. intros w. apply view_log. Qed.

Lemma keeps_view_cache (i : json) : keeps view (set_originals_folder_id i).
Proof. intros w. apply view_cache. Qed.

Lemma keeps_view_require {A} (o : option A) (e : string) : keeps view (require o e).
Proof. destruct o; [apply keeps_view_ret | apply keeps_view_raise]. Qed.

Lemma keeps_view_bind {A C} (m : M A) (k : A -> M C) :
  keeps view m -> (forall a, keeps view (k a)) -> keeps view (bind m k).
Proof.
  intros Hm Hk w. unfold bind. specialize (Hm w).
  destruct (m w) as [[a|e] w']; simpl in *; [|done].
  by rewrite (Hk a w').
Qed.

Lemma keeps_view_catch {A} (m : M A) (h : string -> M A) :
  keeps view m -> (forall e, keeps view (h e)) -> keeps view (catch m h).
Proof.
  intros Hm Hh w. unfold catch. specialize (Hm w).
  destruct (m w) as [[a|e] w']; simpl in *; [done|].
  by rewrite (Hh e w').
Qed.

Lemma keeps_view_for_each {A S} (body : S -> A -> M S) (l : list A) (s : S) :
  (forall s x, keeps view (body s x)) -> keeps view (for_each body l s).
Proof.
  intros Hb. revert s. induction l as [|x l IH]; intros s; simpl.
  - apply keeps_view_ret.
  - apply keeps_view_bind; [apply Hb | apply IH].
Qed.

Lemma keeps_view_record_original (row : Original) :
  keeps view (modify_db (StateDb.record_original row)).
Proof. intros w. by apply view_db. Qed.

Ltac frame_with known :=
  repeat first
    [ known
    | apply keeps_view_ret | apply keeps_view_raise | apply keeps_view_gets
    | apply keeps_view_log | apply keeps_view_cache | apply keeps_view_require
    | apply keeps_view_record_original
    | apply keeps_view_bind; [|intros ?] | apply keeps_view_catch; [|intros ?]
    | apply keeps_view_for_each; intros ? ?
    | progress cbv zeta
    | match goal with
      | |- keeps _ (if ?b then _ else _) => destruct b
      | |- keeps _ (match ?x with _ => _ end) => destruct x
      | |- keeps _ (let '(_, _) := ?x in _) => destruct x
      end ].

Lemma keeps_view_run_swift_command (args : list string) :
  keeps view (Reverse._run_swift_command E args).
Proof. unfold Reverse._run_swift_command. frame_with fail. Qed.

Lemma keeps_view_ensure_originals_folder :
  keeps view (Reverse._ensure_originals_folder E).
Proof.
  unfold Reverse._ensure_originals_folder.
  frame_with ltac:(apply keeps_view_run_swift_command).
Qed.

Lemma keeps_view_backup_to_originals (id why : string) :
  keeps view (Reverse._backup_to_originals E id why).
Proof.
  unfold Reverse._backup_to_originals, Reverse._get_apple_note_content,
    Reverse.record_original, Reverse.command_argument.
  frame_with ltac:(first [ apply keeps_view_run_swift_command
                         | apply keeps_view_ensure_originals_folder ]).
Qed.

Lemma keeps_view_sync_deleted_file (c : ChangedFile) :
  keeps view (Reverse.sync_deleted_file E c).
Proof.
  unfold Reverse.sync_deleted_file.
  frame_with ltac:(first [ apply keeps_view_run_swift_command
                         | apply keeps_view_backup_to_originals ]).
Qed.

Lemma keeps_view_create_backup (cfg : Config) : keeps view (Engine.create_backup E cfg).
Proof.
  unfold Engine.create_backup.
  frame_with ltac:(apply keeps_view_run_swift_command).
Qed.

Lemma keeps_view_source_changed (c : ChangedFile) :
  keeps view (Engine.source_changed E c).
Proof.
  unfold Engine.source_changed.
  frame_with ltac:(apply keeps_view_run_swift_command).
Qed.

Lemma keeps_view_reverse_deleted (st : BidirectionalSyncStats) (c : ChangedFile) :
  change_type c = DELETED -> keeps view (Engine.reverse_change E false st c).
Proof.
  intros Hdel. unfold Engine.reverse_change, Reverse.process_change. rewrite Hdel.
  frame_with ltac:(first [ apply keeps_view_source_changed
                         | apply keeps_view_sync_deleted_file ]).
Qed.

(** The writes of the reverse applier to [note_state]. *)
Hypothesis view_updates : forall w id h m,
  view {| db := StateDb.update_supernote_state id h m (db w); fs := fs w;
          originals_folder_id := originals_folder_id w; trace := trace w |} = view w /\
  view {| db := StateDb.update_apple_written_hash id h (db w); fs := fs w;
          originals_folder_id := originals_folder_id w; trace := trace w |} = view w.

Lemma keeps_view_update_supernote_state (id h : string) (m : Z) :
  keeps view (modify_db (StateDb.update_supernote_state id h m)).
Proof. intros w. apply (view_updates w id h m). Qed.

Lemma keeps_view_update_apple_written_hash (id h : string) :
  keeps view (modify_db (StateDb.update_apple_written_hash id h)).
Proof. intros w. apply (view_updates w id h 0). Qed.

Ltac frame_calls :=
  first [ apply keeps_view_run_swift_command | apply keeps_view_backup_to_originals
        | apply keeps_view_update_supernote_state
        | apply keeps_view_update_apple_written_hash ].

Lemma keeps_view_sync_modified_file (c : ChangedFile) :
  keeps view (Reverse.sync_modified_file E c).
Proof. unfold Reverse.sync_modified_file. frame_with frame_calls. Qed.

Lemma keeps_view_process_change (c : ChangedFile) :
  keeps view (Reverse.process_change E c).
Proof.
  unfold Reverse.process_change.
  frame_with ltac:(first [ apply keeps_view_sync_modified_file
                         | apply keeps_view_sync_deleted_file ]).
Qed.

Lemma keeps_view_create_apple_note_from_txt (p folder : string) :
  keeps view (Reverse.create_apple_note_from_txt E p folder).
Proof. unfold Reverse.create_apple_note_from_txt. frame_with frame_calls. Qed.

Lemma keeps_view_reverse_change (dry_run : bool) (st : BidirectionalSyncStats)
    (c : ChangedFile) :
  keeps view (Engine.reverse_change E dry_run st c).
Proof.
  unfold Engine.reverse_change, Engine.source_changed.
  frame_with ltac:(first [ apply keeps_view_process_change | frame_calls ]).
Qed.

Lemma keeps_view_reverse_new_file (cfg : Config) (dry_run : bool)
    (st : BidirectionalSyncStats) (p : string) :
  keeps view (Engine.reverse_new_file E cfg dry_run st p).
Proof.
  unfold Engine.reverse_new_file.
  frame_with ltac:(apply keeps_view_create_apple_note_from_txt).
Qed.

Lemma keeps_view_run_reverse_sync (cfg : Config) (dry_run : bool) :
  keeps view (Engine.run_reverse_sync E cfg dry_run).
Proof.
  unfold Engine.run_reverse_sync.
  frame_with ltac:(first [ apply keeps_view_reverse_change
                         | apply keeps_view_reverse_new_file ]).
Qed.

Lemma keeps_view_update_supernote_hashes :
  keeps view (Engine.update_supernote_hashes E).
Proof.
  unfold Engine.update_supernote_hashes, Engine.refresh_state.
  frame_with frame_calls.
Qed.

End Frames.

Lemma tracking_update_where (id : string) (f : NoteState -> NoteState) (d : StateDatabase) :
  (forall r, apple_note_id (f r) = apple_note_id r /\ output_path (f r) = output_path r /\
             success (f r) = success r) ->
  map (fun r => (apple_note_id r, output_path r, success r))
      (note_state (StateDb.update_where id f d))
  = map (fun r => (apple_note_id r, output_path r, success r)) (note_state d).
Proof.
  intros Hf. unfold StateDb.update_where. simpl.
  rewrite map_map. apply map_ext. intros r.
  destruct (StateDb.has_id id r); [|done]. by destruct (Hf r) as (-> & -> & ->).
Qed.

(** The reverse phase and the refresh never write to the Mirror. *)
Lemma reverse_keeps_mirror (E : Env) (cfg : Config) (dry_run : bool) :
  keeps fs (Engine.run_reverse_sync E cfg dry_run) /\
  keeps fs (Engine.update_supernote_hashes E) /\
  (forall c, keeps fs (Reverse.process_change E c)) /\
  (forall p folder, keeps fs (Reverse.create_apple_note_from_txt E p folder)).
Proof.
  repeat split; intros;
    first [ apply keeps_view_run_reverse_sync | apply keeps_view_update_supernote_hashes
          | apply keeps_view_process_change | apply keeps_view_create_apple_note_from_txt ];
    done.
Qed.

Lemma tracking_view_updates (w : World) (id h : string) (m : Z) :
  tracking {| db := StateDb.update_supernote_state id h m (db w); fs := fs w;
              originals_folder_id := originals_folder_id w; trace := trace w |}
    = tracking w /\
  tracking {| db := StateDb.update_apple_written_hash id h (db w); fs := fs w;
              originals_folder_id := originals_folder_id w; trace := trace w |}
    = tracking w.
Proof. unfold tracking. simpl. split; by apply tracking_update_where. Qed.

Lemma tracking_view_db (w : World) (d : StateDatabase) :
  note_state d = note_state (db w) ->
  tracking {| db := d; fs := fs w; originals_folder_id := originals_folder_id w;
              trace := trace w |} = tracking w.
Proof. intros Hd. unfold tracking. simpl. by rewrite Hd. Qed.

(** ... and never change which paths are tracked. *)
Lemma reverse_keeps_tracking (E : Env) (cfg : Config) (dry_run : bool) :
  keeps tracking (Engine.run_reverse_sync E cfg dry_run) /\
  keeps tracking (Engine.update_supernote_hashes E) /\
  (forall c, keeps tracking (Reverse.process_change E c)) /\
  (forall p folder, keeps tracking (Reverse.create_apple_note_from_txt E p folder)).
Proof.
  pose proof tracking_view_updates as Hup. pose proof tracking_view_db as Hdb.
  repeat split; intros;
    first [ apply keeps_view_run_reverse_sync | apply keeps_view_update_supernote_hashes
          | apply keeps_view_process_change | apply keeps_view_create_apple_note_from_txt ];
    done.
Qed.

(** The loop over the detected changes, on its own. *)
Lemma reverse_changes_keep_tracking (E : Env) (dry_run : bool) (l : list ChangedFile)
    (st : BidirectionalSyncStats) :
  keeps fs (for_each (Engine.reverse_change E dry_run) l st) /\
  keeps tracking (for_each (Engine.reverse_change E dry_run) l st).
Proof.
  pose proof tracking_view_updates as Hup. pose proof tracking_view_db as Hdb.
  split; apply keeps_view_for_each; intros; apply keeps_view_reverse_change; done.
Qed.

(** A deleted change only appends to the ledger. *)
Lemma sync_deleted_file_keeps_rows (E : Env) (c : ChangedFile) :
  keeps rows_of (Reverse.sync_deleted_file E c).
Proof.
  apply keeps_view_sync_deleted_file; done.
Qed.

Section NoAbort.
Variable E : Env.

Lemma nr_ret {A} (a : A) : never_raises (ret a).
Proof. intros w. by exists a, w. Qed.

Lemma nr_gets {A} (f : World -> A) : never_raises (gets f).
Proof. intros w. by exists (f w), w. Qed.

Lemma nr_modify_db (f : StateDatabase -> StateDatabase) : never_raises (modify_db f).
Proof. intros w. by eexists _, _. Qed.

Lemma nr_bind {A C} (m : M A) (k : A -> M C) :
  never_raises m -> (forall a, never_raises (k a)) -> never_raises (bind m k).
Proof.
  intros Hm Hk w. unfold bind. destruct (Hm w) as (a & w' & ->). apply Hk.
Qed.

Lemma nr_catch {A} (m : M A) (h : string -> M A) :
  (forall e, never_raises (h e)) -> never_raises (catch m h).
Proof.
  intros Hh w. unfold catch. destruct (m w) as [[a|e] w']; [by exists a, w' | apply Hh].
Qed.

Lemma nr_for_each {A S} (body : S -> A -> M S) (l : list A) (s : S) :
  (forall s x, never_raises (body s x)) -> never_raises (for_each body l s).
Proof.
  intros Hb. revert s. induction l as [|x l IH]; intros s; simpl.
  - apply nr_ret.
  - apply nr_bind; [apply Hb | apply IH].
Qed.

Lemma nr_process_change (c : ChangedFile) : never_raises (Reverse.process_change E c).
Proof.
  unfold Reverse.process_change, Reverse.sync_modified_file, Reverse.sync_deleted_file.
  destruct (change_type c); apply nr_catch; intros e; apply nr_ret.
Qed.

Lemma nr_create_apple_note_from_txt (p folder : string) :
  never_raises (Reverse.create_apple_note_from_txt E p folder).
Proof. apply nr_catch. intros e. apply nr_ret. Qed.

Lemma nr_source_changed (c : ChangedFile) : never_raises (Engine.source_changed E c).
Proof.
  unfold Engine.source_changed. apply nr_bind; [apply nr_gets|]. intros [st|].
  - apply nr_catch. intros e. apply nr_ret.
  - apply nr_ret.
Qed.

Lemma nr_reverse_change (dry_run : bool) (st : BidirectionalSyncStats) (c : ChangedFile) :
  never_raises (Engine.reverse_change E dry_run st c).
Proof.
  unfold Engine.reverse_change. destruct dry_run; [apply nr_ret|].
  apply nr_bind; [apply nr_source_changed|]. intros [|]; [apply nr_ret|].
  apply nr_bind; [apply nr_process_change|]. intros r. apply nr_ret.
Qed.

Lemma nr_reverse_new_file (cfg : Config) (dry_run : bool) (st : BidirectionalSyncStats)
    (p : string) :
  never_raises (Engine.reverse_new_file E cfg dry_run st p).
Proof.
  unfold Engine.reverse_new_file. destruct dry_run; [apply nr_ret|].
  apply nr_bind; [apply nr_create_apple_note_from_txt|]. intros r.
  destruct (res_success r); apply nr_ret.
Qed.

Lemma nr_refresh_state (u : unit) (o : option NoteState) :
  never_raises (Engine.refresh_state E u o).
Proof.
  unfold Engine.refresh_state. destruct o as [st|]; [|apply nr_ret].
  destruct (negb _); [apply nr_ret|].
  apply nr_bind; [apply nr_gets|]. intros present. destruct (negb present); [apply nr_ret|].
  apply nr_bind; [apply nr_gets|]. intros h.
  apply nr_bind; [apply nr_gets|]. intros m.
  destruct h; [destruct m|]; first [apply nr_modify_db | apply nr_ret].
Qed.

End NoAbort.

(** X15.  The reverse phase never lets an exception out: [run_reverse_sync],
    [process_change], [create_apple_note_from_txt],
    [update_supernote_hashes] and [create_backup] return normally in every
    world, whatever the bridge answers. *)
Theorem reverse_phase_never_aborts (E : Env) (cfg : Config) (dry_run : bool) :
  never_raises (Engine.run_reverse_sync E cfg dry_run) /\
  (forall c, never_raises (Reverse.process_change E c)) /\
  (forall p folder, never_raises (Reverse.create_apple_note_from_txt E p folder)) /\
  never_raises (Engine.update_supernote_hashes E) /\
  never_raises (Engine.create_backup E cfg).
Proof.
  split; [|split; [|split; [|split]]].
  - unfold Engine.run_reverse_sync.
    apply nr_bind; [apply nr_gets|]. intros changes.
    apply nr_bind; [apply nr_for_each; intros; apply nr_reverse_change|]. intros st.
    apply nr_bind; [apply nr_gets|]. intros new_files.
    apply nr_for_each; intros; apply nr_reverse_new_file.
  - apply nr_process_change.
  - apply nr_create_apple_note_from_txt.
  - unfold Engine.update_supernote_hashes.
    apply nr_bind; [apply nr_gets|]. intros states.
    apply nr_for_each; intros; apply nr_refresh_state.
  - apply nr_catch. intros e. apply nr_ret.
Qed.

Lemma tracked_paths_tracking (d d' : StateDatabase) :
  map (fun r => (apple_note_id r, output_path r, success r)) (note_state d') =
  map (fun r => (apple_note_id r, output_path r, success r)) (note_state d) ->
  Watcher.tracked_paths d' = Watcher.tracked_paths d.
Proof.
  intros Heq.
  assert (forall id, output_path <$> StateDb.get_note_state d' id
                     = output_path <$> StateDb.get_note_state d id) as Hget.
  { intros id. unfold StateDb.get_note_state. revert Heq.
    generalize (note_state d) as l. generalize (note_state d') as l'.
    induction l' as [|a' l' IH]; intros [|a l] Heq; simpl in *; try done.
    injection Heq as Hid Hp Hs Hrest. unfold StateDb.has_id at 1 3. rewrite Hid.
    case_bool_decide; [simpl; by rewrite Hp | by apply IH]. }
  unfold Watcher.tracked_paths, StateDb.get_all_txt_states.
  revert Heq. generalize (note_state d) as l. generalize (note_state d') as l'.
  induction l' as [|a' l' IH]; intros [|a l] Heq; try done.
  injection Heq as Hid Hp Hs Hrest. cbn [List.filter].
  assert (StateDb.txt_row a' = StateDb.txt_row a) as ->.
  { unfold StateDb.txt_row. by rewrite Hp, Hs. }
  destruct (StateDb.txt_row a); [|by apply IH].
  cbn [map]. rewrite Hid. specialize (Hget (apple_note_id a)).
  specialize (IH l Hrest).
  destruct (StateDb.get_note_state d' (apple_note_id a)) as [x'|];
    destruct (StateDb.get_note_state d (apple_note_id a)) as [x|];
    simpl in Hget; try done; cbn [omap list_omap fmap option_fmap option_map].
  injection Hget as ->. f_equal. exact IH.
Qed.

(** X16.  [run_reverse_sync] never writes to the Mirror and never changes
    the key, output path or outcome of a row, so the untracked files a scan
    finds after it are those found before it. *)
Theorem reverse_phase_never_writes_the_mirror (E : Env) (cfg : Config) (dry_run : bool)
    (w : World) :
  let w' := (Engine.run_reverse_sync E cfg dry_run w).2 in
  fs w' = fs w /\ tracking w' = tracking w /\
  Watcher.scan_for_new_files (output_base cfg) (db w') (fs w') =
  Watcher.scan_for_new_files (output_base cfg) (db w) (fs w).
Proof.
  intros w'.
  pose proof (proj1 (reverse_keeps_mirror E cfg dry_run) w) as Hfs.
  pose proof (proj1 (reverse_keeps_tracking E cfg dry_run) w) as Htr.
  fold w' in Hfs, Htr. split; [exact Hfs|]. split; [exact Htr|].
  unfold Watcher.scan_for_new_files. rewrite Hfs.
  by rewrite (tracked_paths_tracking (db w) (db w') Htr).
Qed.

Lemma count_changes_step (E : Env) (l : list ChangedFile) (st : BidirectionalSyncStats)
    (w : World) :
  for_each (Engine.reverse_change E true) l st w =
    (Ok (fold_left (fun s c => match change_type c with
                               | DELETED => Stats.inc_reverse_deleted s
                               | MODIFIED => Stats.inc_reverse_modified s
                               end) l st), w).
Proof.
  revert st. induction l as [|c l IH]; intros st; simpl; [done|].
  unfold bind. simpl. apply IH.
Qed.

Lemma count_new_files_step (E : Env) (cfg : Config) (l : list string)
    (st : BidirectionalSyncStats) (w : World) :
  for_each (Engine.reverse_new_file E cfg true) l st w =
    (Ok (fold_left (fun s _ => Stats.inc_reverse_created s) l st), w).
Proof.
  revert st. induction l as [|c l IH]; intros st; simpl; [done|].
  unfold bind. simpl. apply IH.
Qed.


Section Applier.
Variable E : Env.

(** What [sync_modified_file] does, case by case. *)
Lemma sync_modified_file_outcome (c : ChangedFile) (w : World) :
  exists r w',
    Reverse.sync_modified_file E c w = (Ok r, w') /\
    fs w' = fs w /\
    ((res_action r = "updated" /\ res_success r = true /\
      exists content d1,
        Fs.read_text (fs w) (change_path c) = Some content /\
        note_state d1 = note_state (db w) /\
        db w' = StateDb.update_supernote_state (change_apple_note_id c) (sha16 E content)
                  (default 0 (new_modified_at c))
                  (StateDb.update_apple_written_hash (change_apple_note_id c)
                     (sha16 E (markdown_to_apple_html E
                                 (extract_title_from_markdown E content).2)) d1) /\
        last (trace w') =
          Some (EvBridge ["update-note"; change_apple_note_id c; "--html-file";
                          markdown_to_apple_html E
                            (extract_title_from_markdown E content).2])) \/
     (res_action r <> "updated" /\ note_state (db w') = note_state (db w) /\
      (res_success r = true -> r = echo_result (change_apple_note_id c) /\ w' = w))).
Proof.
  unfold Reverse.sync_modified_file, catch, bind, gets. simpl.
  destruct (Fs.exists_ (fs w) (change_path c)); simpl.
  2:{ eexists _, _. split; [reflexivity|]. split; [done|]. right. done. }
  destruct (Fs.read_text (fs w) (change_path c)) as [content|] eqn:Hread; simpl.
  2:{ eexists _, _. split; [reflexivity|]. split; [done|]. right. done. }
  destruct (StateDb.is_echo_from_supernote (db w) (change_apple_note_id c) _) eqn:Hecho.
  { eexists _, _. split; [reflexivity|]. split; [done|]. right. done. }
  destruct (backup_to_originals_effect E (change_apple_note_id c)
              ("Modified on Supernote: " ++ PyPath.name (change_path c)) w)
    as (b & w1 & pre & -> & Hns & Hfs & _).
  destruct (extract_title_from_markdown E content) as [title body] eqn:Hex.
  rewrite run_swift_command_eq.
  destruct (bridge E (trace w1) _) as [o|e]; simpl.
  - eexists _, _. split; [reflexivity|]. simpl. split; [done|]. left.
    split; [done|]. split; [done|]. exists content, (db w1).
    repeat split; rewrite ?Hex; try done. by rewrite last_snoc.
  - eexists _, _. split; [reflexivity|]. simpl. split; [done|]. right. done.
Qed.

Lemma sync_modified_file_echo (c : ChangedFile) (w : World) (content : string) :
  Fs.read_text (fs w) (change_path c) = Some content ->
  StateDb.is_echo_from_supernote (db w) (change_apple_note_id c) (sha16 E content) = true ->
  Reverse.sync_modified_file E c w = (Ok (echo_result (change_apple_note_id c)), w).
Proof.
  intros Hread Hecho.
  unfold Reverse.sync_modified_file, catch, bind, gets. simpl.
  rewrite (read_text_exists _ _ _ Hread). simpl. rewrite Hread. simpl.
  unfold Reverse._compute_content_hash. by rewrite Hecho.
Qed.

End Applier.

(** X18.  Once [sync_modified_file] has applied a change of a note that has
    a row (action [updated]), both echo guards are set: the same change
    offered again is skipped as an echo without touching the world, and
    [is_echo_from_apple] holds for the fingerprint of the HTML that was
    sent. *)
Theorem applied_change_is_an_echo_next_time (E : Env) (c : ChangedFile) (w w' : World)
    (r : ReverseSyncResult) :
  is_Some (StateDb.get_note_state (db w) (change_apple_note_id c)) ->
  Reverse.sync_modified_file E c w = (Ok r, w') ->
  res_action r = "updated" ->
  Reverse.sync_modified_file E c w' = (Ok (echo_result (change_apple_note_id c)), w') /\
  (forall content, Fs.read_text (fs w) (change_path c) = Some content ->
     StateDb.is_echo_from_apple (db w') (change_apple_note_id c)
       (sha16 E (markdown_to_apple_html E (extract_title_from_markdown E content).2)) = true).
Proof.
  intros [st Hst] Hrun Hact.
  destruct (sync_modified_file_outcome E c w) as (r0 & w0 & Hrun0 & Hfs & Hcase).
  rewrite Hrun in Hrun0. injection Hrun0 as <- <-.
  destruct Hcase as [(_ & _ & content & d1 & Hread & Hd1 & Hdb & _) | [Hne _]]; [|done].
  pose proof (get_note_state_id _ _ _ Hst) as Hid.
  assert (StateDb.get_note_state (db w') (change_apple_note_id c) =
          Some (StateDb.set_supernote (sha16 E content) (default 0 (new_modified_at c))
                  (StateDb.set_apple_written
                     (sha16 E (markdown_to_apple_html E
                                 (extract_title_from_markdown E content).2)) st))) as Hget.
  { rewrite Hdb. unfold StateDb.update_supernote_state, StateDb.update_apple_written_hash.
    rewrite !get_update_where by done.
    assert (StateDb.get_note_state d1 (change_apple_note_id c) = Some st) as ->.
    { unfold StateDb.get_note_state. by rewrite Hd1. }
    simpl. unfold StateDb.has_id.
    rewrite !(bool_decide_eq_true_2 (apple_note_id st = change_apple_note_id c)) by done.
    simpl. reflexivity. }
  split.
  - apply (sync_modified_file_echo E c w' content); [by rewrite Hfs|].
    unfold StateDb.is_echo_from_supernote. rewrite Hget. simpl.
    by apply bool_decide_eq_true.
  - intros content' Hread'. assert (content' = content) as -> by congruence.
    unfold StateDb.is_echo_from_apple. rewrite Hget. simpl.
    by apply bool_decide_eq_true.
Qed.

Lemma applied_change_is_an_echo_next_time_witness :
  let w' := (Reverse.sync_modified_file Demo.env_up Demo.plan_modified
               (Demo.world_edited Demo.plan_hash)).2 in
  Reverse.sync_modified_file Demo.env_up Demo.plan_modified w' =
    (Ok (echo_result "N1"), w').
Proof.
  intros w'.
  apply (applied_change_is_an_echo_next_time Demo.env_up Demo.plan_modified
           (Demo.world_edited Demo.plan_hash) w'
           {| res_success := true; res_apple_note_id := "N1"; res_action := "updated";
              res_error := None; res_original_backed_up := true |}).
  - apply (mk_is_Some _ _ eq_refl).
  - vm_compute. reflexivity.
  - reflexivity.
Defined.

(** X19.  [sync_modified_file] always returns a result, never writes to the
    Mirror, leaves [note_state] as it was unless the action is [updated],
    and reports success only for an applied update or for an echo, in which
    case the world is unchanged. *)
Theorem unapplied_change_leaves_state (E : Env) (c : ChangedFile) (w : World) :
  exists r w',
    Reverse.sync_modified_file E c w = (Ok r, w') /\
    fs w' = fs w /\
    (res_action r <> "updated" -> rows_of w' = rows_of w) /\
    (res_success r = true ->
       res_action r = "updated" \/
       (r = echo_result (change_apple_note_id c) /\ w' = w)).
Proof.
  destruct (sync_modified_file_outcome E c w) as (r & w' & Hrun & Hfs & Hcase).
  exists r, w'. split; [exact Hrun|]. split; [exact Hfs|].
  destruct Hcase as [(Hact & _) | (Hact & Hrows & Hok)].
  - split; [done | by left].
  - split; [done | right; by apply Hok].
Qed.

Lemma scan_for_changes_rows (E : Env) (d d' : StateDatabase) (f : FileSystem) :
  note_state d' = note_state d ->
  Watcher.scan_for_changes E d' f = Watcher.scan_for_changes E d f.
Proof.
  intros Heq. unfold Watcher.scan_for_changes, StateDb.get_all_txt_states.
  rewrite Heq. do 2 f_equal. apply map_ext. intros r.
  unfold StateDb.get_note_state. by rewrite Heq.
Qed.

(** X20.  Handling a DELETED change in a run that is not a dry run leaves
    [note_state] and the Mirror as they were, so the next scan reports the
    same changes, that deletion included. *)
Theorem deletion_is_reported_again (E : Env) (st : BidirectionalSyncStats)
    (c : ChangedFile) (w : World) :
  change_type c = DELETED ->
  let w' := (Engine.reverse_change E false st c w).2 in
  rows_of w' = rows_of w /\ fs w' = fs w /\
  Watcher.scan_for_changes E (db w') (fs w') = Watcher.scan_for_changes E (db w) (fs w).
Proof.
  intros Hdel w'.
  assert (rows_of w' = rows_of w) as Hrows.
  { by apply (keeps_view_reverse_deleted E rows_of). }
  assert (fs w' = fs w) as Hfs.
  { by apply (keeps_view_reverse_deleted E fs). }
  split; [exact Hrows|]. split; [exact Hfs|].
  rewrite Hfs. by apply scan_for_changes_rows.
Qed.

Lemma deletion_is_reported_again_witness :
  let w' := (Engine.reverse_change Demo.env_up false Stats.zero Demo.plan_deleted
               Demo.world_deleted).2 in
  Watcher.scan_for_changes Demo.env_up (db w') (fs w') =
  Watcher.scan_for_changes Demo.env_up (db Demo.world_deleted) (fs Demo.world_deleted).
Proof.
  intros w'.
  apply (deletion_is_reported_again Demo.env_up Stats.zero Demo.plan_deleted
           Demo.world_deleted eq_refl).
Defined.

(** X21.  [create_apple_note_from_txt] always returns a result, keeps the
    Mirror, the backup ledger and the cached folder id, and reports success
    only with action [created].  When the file can be read it issues
    exactly one bridge command, [create_note_command]; when it cannot, it
    issues none and fails. *)
Theorem new_file_sends_one_create_command (E : Env) (p folder : string) (w : World) :
  exists r w',
    Reverse.create_apple_note_from_txt E p folder w = (Ok r, w') /\
    fs w' = fs w /\ originals (db w') = originals (db w) /\
    originals_folder_id w' = originals_folder_id w /\
    (res_success r = true -> res_action r = "created") /\
    match Fs.read_text (fs w) p with
    | Some content =>
        trace w' = (trace w ++ [EvBridge (create_note_command E p folder content)])%list
    | None => w' = w /\ res_success r = false
    end.
Proof.
  unfold Reverse.create_apple_note_from_txt, catch, bind, gets. simpl.
  destruct (Fs.read_text (fs w) p) as [content|] eqn:Hread.
  2:{ destruct (Fs.exists_ (fs w) p); simpl; rewrite ?Hread; simpl; eexists _, _;
        (split; [reflexivity|]); repeat split; done. }
  rewrite (read_text_exists _ _ _ Hread). simpl. rewrite Hread. simpl.
  unfold create_note_command.
  destruct (extract_title_from_markdown E content) as [title0 body].
  destruct (PyStr.truthy folder); rewrite run_swift_command_eq;
    (destruct (bridge E (trace w) _) as [o|e]; simpl;
     [ destruct (Json.truthy _); simpl | ]);
    eexists _, _; (split; [reflexivity|]); repeat split; done.
Qed.

(** X22.  Once [_ensure_originals_folder] has returned a truthy folder id,
    calling it again returns the same id without a bridge command; the id is
    cached as the bridge gave it. *)
Theorem originals_folder_is_looked_up_once (E : Env) (w w1 : World) (i : json) :
  Reverse._ensure_originals_folder E w = (Ok i, w1) ->
  Json.truthy i = true ->
  Reverse._ensure_originals_folder E w1 = (Ok i, w1).
Proof.
  intros Hrun Hi.
  assert (originals_folder_id w1 = Some i) as Hcache.
  { revert Hrun. unfold Reverse._ensure_originals_folder, bind, gets. simpl.
    destruct (Json.truthy (default JNull (originals_folder_id w))) eqn:Ht.
    - intros [= <- <-]. destruct (originals_folder_id w); [done|discriminate Ht].
    - rewrite run_swift_command_eq.
      destruct (bridge E (trace w) _) as [o|e]; simpl; [|done].
      destruct (Json.truthy (default JNull (Json.get "found" o))).
      + destruct (Json.get "id" o); simpl; [|done]. by intros [= <- <-].
      + rewrite run_swift_command_eq. simpl.
        destruct (bridge E _ _) as [o'|e']; simpl; [|done].
        destruct (Json.get "id" o'); simpl; [|done]. by intros [= <- <-]. }
  unfold Reverse._ensure_originals_folder, bind, gets. simpl. rewrite Hcache. simpl.
  by rewrite Hi.
Qed.

Lemma originals_folder_is_looked_up_once_witness :
  let w1 := (Reverse._ensure_originals_folder Demo.env_up Demo.world_fresh).2 in
  Reverse._ensure_originals_folder Demo.env_up w1 = (Ok (JStr "F-ORIG"), w1).
Proof.
  intros w1.
  apply (originals_folder_is_looked_up_once Demo.env_up Demo.world_fresh w1 (JStr "F-ORIG")).
  - vm_compute. reflexivity.
  - reflexivity.
Defined.

Section Accounting.
Variable E : Env.
Variable cfg : Config.

Lemma for_each_counts {A S} (body : S -> A -> M S) (P : S -> Z -> Prop) :
  (forall s x w n, P s n -> exists s' w', body s x w = (Ok s', w') /\ P s' (n + 1)) ->
  forall l s w n, P s n ->
    exists s' w', for_each body l s w = (Ok s', w') /\ P s' (n + Z.of_nat (length l)).
Proof.
  intros Hstep. induction l as [|x l IH]; intros s w n HP.
  - exists s, w. split; [done|]. simpl. by rewrite Z.add_0_r.
  - destruct (Hstep s x w n HP) as (s1 & w1 & Hb & HP1).
    destruct (IH s1 w1 (n + 1) HP1) as (s2 & w2 & Hl & HP2).
    exists s2, w2. cbn [for_each]. unfold bind. rewrite Hb. split; [exact Hl|].
    replace (n + Z.of_nat (length (x :: l))) with (n + 1 + Z.of_nat (length l))
      by (cbn [length]; lia).
    exact HP2.
Qed.

(** The results [process_change] can give. *)
Lemma process_change_result (c : ChangedFile) (w : World) :
  exists r w',
    Reverse.process_change E c w = (Ok r, w') /\
    (res_success r = true ->
       res_action r = "updated" \/ res_action r = "deleted" \/
       (res_action r = "skipped" /\ res_original_backed_up r = false)).
Proof.
  unfold Reverse.process_change. destruct (change_type c).
  - destruct (sync_modified_file_outcome E c w) as (r & w' & Hrun & _ & Hcase).
    exists r, w'. split; [exact Hrun|]. intros Hok.
    destruct Hcase as [(Hact & _) | (_ & _ & Hecho)]; [by left|].
    destruct (Hecho Hok) as [-> _]. right. right. done.
  - unfold Reverse.sync_deleted_file, catch, bind.
    destruct (backup_to_originals_effect E (change_apple_note_id c)
                ("Deleted on Supernote: " ++ PyPath.name (change_path c)) w)
      as (b & w1 & pre & -> & _).
    rewrite run_swift_command_eq.
    destruct (bridge E (trace w1) _) as [o|e]; simpl; eexists _, _;
      (split; [reflexivity|]); simpl; intros; try done. right. by left.
Qed.

Lemma count_result_counted (c : ChangedFile) (r : ReverseSyncResult)
    (st : BidirectionalSyncStats) (n : Z) :
  (res_success r = true ->
     res_action r = "updated" \/ res_action r = "deleted" \/
     (res_action r = "skipped" /\ res_original_backed_up r = false)) ->
  counted st n ->
  counted (Engine.count_result c r st) (n + 1) /\
  reverse_created (Engine.count_result c r st) = reverse_created st.
Proof.
  intros Hr (Hn & (Herr & Hc1 & Hc2 & Hb) & Hcr). unfold Engine.count_result.
  destruct (res_success r).
  - destruct (Hr eq_refl) as [-> | [-> | [-> ->]]]; simpl;
      destruct (res_original_backed_up r); unfold counted, balanced, handled in *;
      simpl; repeat split; lia.
  - unfold counted, balanced, handled in *. simpl. rewrite length_app. simpl.
    repeat split; lia.
Qed.

Lemma reverse_change_counted (dry_run : bool) (st : BidirectionalSyncStats)
    (c : ChangedFile) (w : World) (n : Z) :
  counted st n /\ reverse_created st = 0 ->
  exists st' w',
    Engine.reverse_change E dry_run st c w = (Ok st', w') /\
    (counted st' (n + 1) /\ reverse_created st' = 0).
Proof.
  intros [Hc Hz]. pose proof Hc as (Hn & (Herr & Hc1 & Hc2 & Hb) & Hcr).
  unfold Engine.reverse_change. destruct dry_run.
  - eexists _, _. split; [reflexivity|].
    destruct (change_type c); unfold counted, balanced, handled in *; simpl;
      repeat split; lia.
  - unfold bind. destruct (nr_source_changed E c w) as (b & w1 & ->).
    destruct b.
    + eexists _, _. split; [reflexivity|].
      unfold counted, balanced, handled in *; simpl; repeat split; lia.
    + destruct (process_change_result c w1) as (r & w2 & -> & Hr).
      eexists _, _. split; [reflexivity|].
      destruct (count_result_counted c r st n Hr Hc) as [H1 H2].
      split; [exact H1 | congruence].
Qed.

Lemma reverse_new_file_counted (dry_run : bool) (k : Z) (st : BidirectionalSyncStats)
    (p : string) (w : World) (n : Z) :
  counted st n /\ reverse_created st <= n - k ->
  exists st' w',
    Engine.reverse_new_file E cfg dry_run st p w = (Ok st', w') /\
    (counted st' (n + 1) /\ reverse_created st' <= n + 1 - k).
Proof.
  intros [(Hn & (Herr & Hc1 & Hc2 & Hb) & Hcr) Hle].
  unfold Engine.reverse_new_file. destruct dry_run.
  - eexists _, _. split; [reflexivity|].
    unfold counted, balanced, handled in *; simpl; repeat split; lia.
  - unfold bind.
    destruct (nr_create_apple_note_from_txt E p
                (Watcher.get_apple_folder_path (output_base cfg) p) w) as (r & w1 & ->).
    destruct (res_success r); eexists _, _; (split; [reflexivity|]);
      unfold counted, balanced, handled in *; simpl; rewrite ?length_app; simpl;
      repeat split; lia.
Qed.

End Accounting.

(** X23.  [run_reverse_sync] accounts for every item once: modified,
    deleted, skipped, failed and created add up to the number of detected
    changes plus the number of untracked files, the counters are [balanced],
    and [reverse_created] is at most the number of untracked files. *)
Theorem reverse_phase_accounts_for_every_item (E : Env) (cfg : Config) (dry_run : bool)
    (w : World) :
  exists st w',
    Engine.run_reverse_sync E cfg dry_run w = (Ok st, w') /\
    handled st =
      Z.of_nat (length (Watcher.scan_for_changes E (db w) (fs w))) +
      Z.of_nat (length (Watcher.scan_for_new_files (output_base cfg) (db w) (fs w))) /\
    balanced st /\
    0 <= reverse_created st <=
      Z.of_nat (length (Watcher.scan_for_new_files (output_base cfg) (db w) (fs w))).
Proof.
  unfold Engine.run_reverse_sync, bind, gets. simpl.
  set (changes := Watcher.scan_for_changes E (db w) (fs w)).
  destruct (for_each_counts (Engine.reverse_change E dry_run)
              (fun s n => counted s n /\ reverse_created s = 0)
              (fun s x w n => reverse_change_counted E dry_run s x w n)
              changes Stats.zero w 0) as (st1 & w1 & Hloop & Hc1 & Hz1).
  { unfold counted, balanced, handled. simpl. repeat split; lia. }
  pose proof (reverse_changes_keep_tracking E dry_run changes Stats.zero) as [Hfs Htr].
  specialize (Hfs w). specialize (Htr w). rewrite Hloop in Hfs, Htr. simpl in Hfs, Htr.
  rewrite Hloop.
  assert (Watcher.scan_for_new_files (output_base cfg) (db w1) (fs w1) =
          Watcher.scan_for_new_files (output_base cfg) (db w) (fs w)) as ->.
  { unfold Watcher.scan_for_new_files. rewrite Hfs.
    by rewrite (tracked_paths_tracking (db w) (db w1) Htr). }
  set (news := Watcher.scan_for_new_files (output_base cfg) (db w) (fs w)).
  destruct (for_each_counts (Engine.reverse_new_file E cfg dry_run)
              (fun s n => counted s n /\
                          reverse_created s <= n - (0 + Z.of_nat (length changes)))
              (fun s x w n => reverse_new_file_counted E cfg dry_run _ s x w n)
              news st1 w1 (0 + Z.of_nat (length changes)))
    as (st2 & w2 & Hloop2 & (Hn & Hbal & Hpos) & Hle).
  { split; [exact Hc1 | lia]. }
  exists st2, w2. split; [exact Hloop2|].
  split; [lia|]. split; [exact Hbal|]. split; lia.
Qed.

Section Forward.
Variable E : Env.

Ltac settle :=
  unfold run_handled; simpl; rewrite ?length_app; simpl;
  repeat split; intros; first [ congruence | done | lia ].

(** What a pass of the forward loop body that ends normally has done. *)
Lemma process_note_ok (dry_run : bool) (st st1 : RunStats) (item : json) (w w1 : World) :
  Orchestrator.process_note E dry_run st item w = (Ok st1, w1) ->
  exists note id_v,
    item = JObj note /\ Json.get "id" note = Some id_v /\
    trace w1 = trace w /\ originals_folder_id w1 = originals_folder_id w /\
    originals (db w1) = originals (db w) /\
    run_handled st1 = run_handled st + 1 /\ run_total st1 = run_total st /\
    Z.of_nat (length (run_errors st1)) - run_failed st1 =
      Z.of_nat (length (run_errors st)) - run_failed st /\
    (dry_run = true -> w1 = w) /\
    (StateDb.needs_update (db w) (Reverse.jstr E id_v) (Orchestrator._compute_hash E note)
       = false -> w1 = w /\ st1 = skip_one st) /\
    (dry_run = false ->
     StateDb.needs_update (db w1) (Reverse.jstr E id_v) (Orchestrator._compute_hash E note)
       = false).
Proof.
  destruct item as [| | | | |note]; try done.
  unfold Orchestrator.process_note, bind, gets, require.
  destruct (Json.get "id" note) as [id_v|] eqn:Hid; simpl; [|done].
  destruct (StateDb.needs_update (db w) (Reverse.jstr E id_v) _) eqn:Hneed; simpl.
  2:{ intros [= <- <-]. exists note, id_v. settle. }
  destruct (Json.get "name" note) as [name_v|]; simpl; [|done].
  destruct dry_run.
  { intros [= <- <-]. exists note, id_v.
    destruct (StateDb.get_note_state (db w) (Reverse.jstr E id_v)); settle. }
  unfold Orchestrator.run_generator.
  destruct (generate E note (fs w)) as [[r|e] f']; simpl; [|done].
  destruct (jcolumn E "folderPath" "" note) as [folder|]; simpl; [|done].
  destruct (gen_success r); simpl.
  - intros [= <- <-]. exists note, id_v. simpl.
    assert (StateDb.needs_update
              (StateDb.record_success (now_iso E (trace w)) (Reverse.jstr E id_v) folder
                 (Orchestrator._compute_hash E note) (default "None" (gen_output_path r))
                 (gen_type_value r) None TO_SUPERNOTE false (db w))
              (Reverse.jstr E id_v) (Orchestrator._compute_hash E note) = false) as Hs.
    { unfold StateDb.needs_update, StateDb.record_success.
      rewrite (get_insert_or_replace_eq (mkNoteState (Reverse.jstr E id_v) _ _ _ _ _ _ _ _ _ _ _ _)).
      simpl. by rewrite bool_decide_eq_true_2. }
    destruct (StateDb.get_note_state (db w) (Reverse.jstr E id_v)); settle.
  - intros [= <- <-]. exists note, id_v. simpl.
    assert (StateDb.needs_update
              (StateDb.record_failure (now_iso E (trace w)) (Reverse.jstr E id_v) folder
                 (Orchestrator._compute_hash E note) (gen_type_value r) (gen_error r) (db w))
              (Reverse.jstr E id_v) (Orchestrator._compute_hash E note) = false) as Hs.
    { unfold StateDb.needs_update, StateDb.record_failure.
      rewrite (get_insert_or_replace_eq (mkNoteState (Reverse.jstr E id_v) _ _ _ _ _ _ _ _ _ _ _ _)).
      simpl. by rewrite bool_decide_eq_true_2. }
    settle.
Qed.

End Forward.

(** X24.  A note the forward loop body has processed in a run that is not a
    dry run is skipped when it is offered again, without any effect: after a
    generation that succeeded and also after one that failed. *)
Theorem processed_note_is_skipped_next_time (E : Env) (st st1 st2 : RunStats) (item : json)
    (w w1 : World) :
  Orchestrator.process_note E false st item w = (Ok st1, w1) ->
  forall dry_run,
    Orchestrator.process_note E dry_run st2 item w1 = (Ok (skip_one st2), w1).
Proof.
  intros Hrun dry_run.
  destruct (process_note_ok E false st st1 item w w1 Hrun)
    as (note & id_v & -> & Hid & _ & _ & _ & _ & _ & _ & _ & _ & Hsettled).
  specialize (Hsettled eq_refl).
  unfold Orchestrator.process_note, bind, gets, require. rewrite Hid. simpl.
  by rewrite Hsettled.
Qed.

Lemma processed_note_is_skipped_next_time_witness :
  let w1 := (Orchestrator.process_note Demo.env_up false
               (mkRun 1 0 0 0 0 []) (JObj Demo.note_plan) Demo.world_fresh).2 in
  Orchestrator.process_note Demo.env_up false (mkRun 1 0 0 0 0 []) (JObj Demo.note_plan) w1
    = (Ok (skip_one (mkRun 1 0 0 0 0 [])), w1).
Proof.
  intros w1.
  apply (processed_note_is_skipped_next_time Demo.env_up (mkRun 1 0 0 0 0 [])
           (mkRun 1 1 0 0 0 []) (mkRun 1 0 0 0 0 []) (JObj Demo.note_plan)
           Demo.world_fresh w1).
  vm_compute. reflexivity.
Defined.

(** X25.  Right after the forward loop body has processed a note, the
    conflict check of the reverse phase finds no conflict for it when the
    bridge exports the same note: both sides compute the same fingerprint. *)
Theorem no_conflict_right_after_forward (E : Env) (st st1 : RunStats) (note : jobj)
    (id_v : json) (c : ChangedFile) (w w1 : World) :
  Orchestrator.process_note E false st (JObj note) w = (Ok st1, w1) ->
  Json.get "id" note = Some id_v ->
  change_apple_note_id c = Reverse.jstr E id_v ->
  bridge E (trace w1) ["export-note"; change_apple_note_id c; "--html"] = Ok note ->
  Engine.source_changed E c w1 =
    (Ok false,
     {| db := db w1; fs := fs w1; originals_folder_id := originals_folder_id w1;
        trace := trace w1 ++ [EvBridge ["export-note"; change_apple_note_id c; "--html"]] |}).
Proof.
  intros Hrun Hid Hc Hexport.
  destruct (process_note_ok E false st st1 (JObj note) w w1 Hrun)
    as (note' & id_v' & [= <-] & Hid' & _ & _ & _ & _ & _ & _ & _ & _ & Hsettled).
  rewrite Hid in Hid'. injection Hid' as <-.
  specialize (Hsettled eq_refl). rewrite <- Hc in Hsettled.
  unfold StateDb.needs_update in Hsettled.
  unfold Engine.source_changed, bind, gets, catch. simpl.
  destruct (StateDb.get_note_state (db w1) (change_apple_note_id c)) as [stored|]; [|done].
  rewrite run_swift_command_eq, Hexport. simpl.
  unfold Engine._compute_content_hash. unfold Orchestrator._compute_hash in Hsettled.
  apply negb_false_iff, bool_decide_eq_true in Hsettled.
  by rewrite bool_decide_eq_true_2.
Qed.

Lemma no_conflict_right_after_forward_witness :
  let w1 := (Orchestrator.process_note Demo.env_up false
               (mkRun 1 0 0 0 0 []) (JObj Demo.note_plan) Demo.world_fresh).2 in
  Engine.source_changed Demo.env_up Demo.plan_modified w1 =
    (Ok false,
     {| db := db w1; fs := fs w1; originals_folder_id := originals_folder_id w1;
        trace := trace w1 ++ [EvBridge ["export-note"; "N1"; "--html"]] |}).
Proof.
  intros w1.
  apply (no_conflict_right_after_forward Demo.env_up (mkRun 1 0 0 0 0 [])
           (mkRun 1 1 0 0 0 []) Demo.note_plan (JStr "N1") Demo.plan_modified
           Demo.world_fresh w1).
  - vm_compute. reflexivity.
  - reflexivity.
  - reflexivity.
  - reflexivity.
Defined.

Lemma for_each_process_note (E : Env) (dry_run : bool) (l : list json) :
  forall (st st' : RunStats) (w w' : World),
    for_each (Orchestrator.process_note E dry_run) l st w = (Ok st', w') ->
    run_handled st' = run_handled st + Z.of_nat (length l) /\
    run_total st' = run_total st /\
    Z.of_nat (length (run_errors st')) - run_failed st' =
      Z.of_nat (length (run_errors st)) - run_failed st /\
    trace w' = trace w /\ originals_folder_id w' = originals_folder_id w /\
    originals (db w') = originals (db w) /\
    (dry_run = true -> w' = w).
Proof.
  induction l as [|x l IH]; intros st st' w w'; cbn [for_each].
  - intros [= <- <-]. simpl. repeat split; try done; lia.
  - unfold bind.
    destruct (Orchestrator.process_note E dry_run st x w) as [[s1|e] w1] eqn:Hx; [|done].
    intros Hl.
    destruct (process_note_ok E dry_run st s1 x w w1 Hx)
      as (_ & _ & _ & _ & Ht & Hc & Ho & H1 & H2 & H3 & Hd & _).
    destruct (IH s1 st' w1 w' Hl) as (I1 & I2 & I3 & It & Ic & Io & Id).
    cbn [length]. repeat split; try congruence; try lia.
    intros Hdry. rewrite (Id Hdry). by apply Hd.
Qed.

(** X26.  When [Orchestrator.run] returns, created, updated, skipped and
    failed add up to [total], there is one error entry per failure, the only
    bridge command issued is [export-all], and the backup ledger and the
    cached folder id are as before. *)
Theorem forward_accounts_for_every_note (E : Env) (cfg : Config) (dry_run : bool)
    (st : RunStats) (w w' : World) :
  Orchestrator.run E cfg dry_run w = (Ok st, w') ->
  run_handled st = run_total st /\
  Z.of_nat (length (run_errors st)) = run_failed st /\
  trace w' = (trace w ++ [export_all])%list /\
  originals (db w') = originals (db w)  /\
  originals_folder_id w' = originals_folder_id w.
Proof.
  unfold Orchestrator.run, bind, gets. simpl.
  destruct (Fs.exists_ (fs w) (supernote_base cfg)); simpl; [|done].
  unfold Orchestrator._export_apple_notes, bind, gets, log. simpl.
  destruct (bridge E (trace w) _) as [data|e]; simpl; [|done].
  destruct (Orchestrator.exported_notes data _) as [[notes|e] w0] eqn:Hnotes; [|done].
  assert (w0 = {| db := db w; fs := fs w; originals_folder_id := originals_folder_id w;
                  trace := trace w ++ [EvBridge ["export-all"; "--html"; "--attachments"]] |})
    as ->.
  { revert Hnotes. unfold Orchestrator.exported_notes.
    destruct (Json.get "notes" data) as [[| | |s|l|o]|]; try done;
      try (by intros [= _ <-]).
    - destruct s; [by intros [= _ <-] | done].
    - destruct o; [by intros [= _ <-] | done]. }
  intros Hloop.
  destruct (for_each_process_note E dry_run notes _ _ _ _ Hloop)
    as (H1 & H2 & H3 & Ht & Hc & Ho & _).
  unfold run_handled in *. simpl in *. repeat split; try done; try lia.
Qed.

Lemma forward_accounts_for_every_note_witness :
  let out := Orchestrator.run Demo.env_up Demo.cfg false Demo.world_fresh in
  run_handled (mkRun 1 1 0 0 0 []) = run_total (mkRun 1 1 0 0 0 []) /\
  trace out.2 = [export_all].
Proof.
  intros out.
  destruct (forward_accounts_for_every_note Demo.env_up Demo.cfg false (mkRun 1 1 0 0 0 [])
              Demo.world_fresh out.2) as (H1 & _ & H3 & _).
  - vm_compute. reflexivity.
  - split; [exact H1 | exact H3].
Defined.

Lemma process_note_dry_keeps (E : Env) (st : RunStats) (item : json) (w : World) :
  (Orchestrator.process_note E true st item w).2 = w.
Proof.
  destruct item as [| | | | |note]; try done.
  unfold Orchestrator.process_note, bind, gets, require.
  destruct (Json.get "id" note) as [id_v|]; simpl; [|done].
  destruct (StateDb.needs_update (db w) _ _); simpl; [|done].
  by destruct (Json.get "name" note).
Qed.

Lemma for_each_keeps_world {A S} (body : S -> A -> M S) (l : list A) :
  (forall s x w, (body s x w).2 = w) -> forall s w, (for_each body l s w).2 = w.
Proof.
  intros Hb. induction l as [|x l IH]; intros s w; cbn [for_each]; [done|].
  unfold bind. specialize (Hb s x w).
  destruct (body s x w) as [[s1|e] w1]; simpl in Hb; subst w1; [apply IH | done].
Qed.

Lemma run_dry_keeps (E : Env) (cfg : Config) (w : World) :
  let w' := (Orchestrator.run E cfg true w).2 in
  db w' = db w /\ fs w' = fs w /\ originals_folder_id w' = originals_folder_id w /\
  (trace w' = trace w \/ trace w' = (trace w ++ [export_all])%list).
Proof.
  unfold Orchestrator.run, bind, gets. simpl.
  destruct (Fs.exists_ (fs w) (supernote_base cfg)); simpl; [|by repeat split; try left].
  unfold Orchestrator._export_apple_notes, bind, gets, log. simpl.
  destruct (bridge E (trace w) _) as [data|e]; simpl; [|by repeat split; try right].
  destruct (Orchestrator.exported_notes data _) as [[notes|e] w0] eqn:Hnotes.
  - assert (w0 = {| db := db w; fs := fs w; originals_folder_id := originals_folder_id w;
                    trace := trace w ++ [export_all] |}) as ->.
    { revert Hnotes. unfold Orchestrator.exported_notes.
      destruct (Json.get "notes" data) as [[| | |s|l|o]|]; try done;
        try (by intros [= _ <-]).
      - destruct s; [by intros [= _ <-] | done].
      - destruct o; [by intros [= _ <-] | done]. }
    rewrite (for_each_keeps_world _ notes (process_note_dry_keeps E)). simpl.
    by repeat split; try right.
  - assert (w0 = {| db := db w; fs := fs w; originals_folder_id := originals_folder_id w;
                    trace := trace w ++ [export_all] |}) as ->.
    { revert Hnotes. unfold Orchestrator.exported_notes, raise, ret.
      destruct (Json.get "notes" data) as [[| | |s|l|o]|]; try done;
        try (by intros [= _ <-]).
      - destruct s; [done | by intros [= _ <-]].
      - destruct o; [done | by intros [= _ <-]]. }
    simpl. by repeat split; try right.
Qed.

Lemma reverse_dry_run_is_silent (E : Env) (cfg : Config) (w : World) :
  (Engine.run_reverse_sync E cfg true w).2 = w /\
  exists st, (Engine.run_reverse_sync E cfg true w).1 = Ok st.
Proof.
  unfold Engine.run_reverse_sync, bind, gets. simpl.
  rewrite count_changes_step, count_new_files_step. split; [done | by eexists].
Qed.

Section OutputDirectory.
Import PyStr.

Lemma append_assoc (a b c : string) : (a ++ b) ++ c = a ++ b ++ c.
Proof.
  induction a as [|x a IH]; [done|].
  change (String x ((a ++ b) ++ c) = String x (a ++ b ++ c)). by rewrite IH.
Qed.

Lemma occurs_app (c : ascii) (a b : string) :
  occurs c (a ++ b) = occurs c a || occurs c b.
Proof.
  induction a as [|x a IH]; simpl; [done|]. by rewrite IH, orb_assoc.
Qed.

Lemma strip_prefix_Some (pre s r : string) :
  strip_prefix pre s = Some r -> s = pre ++ r.
Proof.
  revert s. induction pre as [|a pre IH]; intros s; simpl.
  - by intros [= ->].
  - destruct s as [|b s]; [done|].
    destruct (Ascii.eqb a b) eqn:Hab; [|done].
    apply Ascii.eqb_eq in Hab. subst b. intros H. by rewrite (IH _ H).
Qed.

Lemma name_of_child (a n : string) :
  occurs "/"%char n = false -> PyPath.name (a ++ String "/"%char n) = n.
Proof. intros Hn. unfold PyPath.name. by apply (last_segment_app "/"%char a n). Qed.

(** The search for the Note directory reads the Mirror and changes nothing. *)
Lemma get_note_directory_eq (base : string) (w : World) :
  Paths.get_note_directory base w = (note_directory_at (fs w) base, w).
Proof.
  unfold Paths.get_note_directory, Paths.get_user_data_path, note_directory_at,
    bind, gets, ret, raise. simpl.
  destruct (Fs.exists_ (fs w) (base ++ "/data")); simpl; [|done].
  destruct (bool_decide (base ++ "/data" ∈ dirs (fs w))); simpl; [|done].
  destruct (find _ _); simpl; [|done].
  by destruct (Fs.exists_ (fs w) _).
Qed.

Lemma exists_add_dir (f : FileSystem) (p x : string) :
  x <> p -> Fs.exists_ (add_dir f p) x = Fs.exists_ f x.
Proof.
  intros Hne. unfold Fs.exists_, add_dir. simpl. f_equal.
  apply bool_decide_ext. rewrite elem_of_app, list_elem_of_singleton.
  split; [intros [Hx|Hx]; [exact Hx | by destruct Hne] | intros Hx; by left].
Qed.

(** Creating the output directory does not change where it is found. *)
Lemma note_directory_at_add_dir (base nd : string) (f : FileSystem) :
  note_directory_at f base = Ok (Some nd) ->
  note_directory_at (add_dir f (nd ++ "/Apple")) base = Ok (Some nd).
Proof.
  unfold note_directory_at.
  set (data := base ++ "/data").
  destruct (Fs.exists_ f data) eqn:Hdata; simpl; [|done].
  destruct (bool_decide (data ∈ dirs f)) eqn:Hdir; simpl; [|done].
  destruct (find _ (Paths.child_dirs f data)) as [item|] eqn:Hfind; simpl; [|done].
  destruct (Fs.exists_ f ((item ++ "/Supernote") ++ "/Note")) eqn:Hnote; [|done].
  intros [= <-].
  set (p := ((item ++ "/Supernote") ++ "/Note") ++ "/Apple").
  assert (forall x, x ++ "/Supernote" <> p) as Hsup.
  { intros x Heq. apply (f_equal PyPath.name) in Heq. unfold p in Heq.
    rewrite (name_of_child x "Supernote" eq_refl) in Heq.
    rewrite (name_of_child _ "Apple" eq_refl) in Heq. discriminate Heq. }
  assert (((item ++ "/Supernote") ++ "/Note") <> p) as Hnd.
  { unfold p. intros Heq. symmetry in Heq. revert Heq. apply append_cons_neq. }
  assert (data <> p) as Hdp.
  { intros Heq. apply find_some in Hfind as [Hin _].
    apply filter_In in Hin as [_ Hc].
    destruct (strip_prefix (data ++ "/") item) as [n|] eqn:Hn; [|done].
    apply strip_prefix_Some in Hn. unfold p in Heq. rewrite Hn in Heq.
    rewrite !append_assoc in Heq. symmetry in Heq. revert Heq. apply append_cons_neq. }
  rewrite (exists_add_dir f p data Hdp), Hdata. simpl.
  assert (bool_decide (data ∈ (dirs f ++ [p])%list) = true) as ->.
  { apply bool_decide_eq_true. apply elem_of_app. left.
    by apply bool_decide_eq_true in Hdir. }
  simpl.
  assert (Paths.child_dirs (add_dir f p) data = Paths.child_dirs f data) as ->.
  { unfold Paths.child_dirs, add_dir. simpl. rewrite List.filter_app. simpl.
    assert (match strip_prefix (data ++ "/") p with
            | Some n => truthy n && negb (occurs "/"%char n)
            | None => false
            end = false) as ->; [|by rewrite app_nil_r].
    pose proof Hfind as Hf. apply find_some in Hf as [Hin _].
    apply filter_In in Hin as [_ Hc].
    destruct (strip_prefix (data ++ "/") item) as [n|] eqn:Hn; [|done].
    apply strip_prefix_Some in Hn.
    assert (p = (data ++ "/") ++ (((n ++ "/Supernote") ++ "/Note") ++ "/Apple")) as ->.
    { unfold p. rewrite Hn. by rewrite !append_assoc. }
    rewrite strip_prefix_app. rewrite !occurs_app. simpl.
    by rewrite !orb_true_r, andb_false_r. }
  assert (find (fun item0 => occurs "@"%char (PyPath.name item0) &&
                             Fs.exists_ (add_dir f p) (item0 ++ "/Supernote"))
               (Paths.child_dirs f data) = Some item) as ->.
  { rewrite <- Hfind. clear Hfind.
    induction (Paths.child_dirs f data) as [|x l IH]; simpl; [done|].
    rewrite (exists_add_dir f p _ (Hsup x)).
    destruct (occurs "@"%char (PyPath.name x) && Fs.exists_ f (x ++ "/Supernote"));
      [done | exact IH]. }
  by rewrite (exists_add_dir f p _ Hnd), Hnote.
Qed.

(** What the constructor's directory step does: it fails and leaves the
    world alone, or it returns the directory [Apple] below the Note
    directory, created when it was not there. *)
Lemma ensure_apple_notes_directory_cases (base : string) (w : World) :
  (exists e, Paths.ensure_apple_notes_directory base w = (Raise e, w)) \/
  (exists nd,
     note_directory_at (fs w) base = Ok (Some nd) /\
     ((((nd ++ "/Apple") ∈ dirs (fs w)) /\
       Paths.ensure_apple_notes_directory base w = (Ok (nd ++ "/Apple"), w)) \/
      (((nd ++ "/Apple") ∉ dirs (fs w)) /\
       Paths.ensure_apple_notes_directory base w =
         (Ok (nd ++ "/Apple"), with_dir w (nd ++ "/Apple"))))).
Proof.
  unfold Paths.ensure_apple_notes_directory, bind.
  rewrite get_note_directory_eq.
  destruct (note_directory_at (fs w) base) as [[nd|]|e];
    [|left; by eexists|left; by eexists].
  unfold Paths.mkdir_exist_ok.
  change (nd ++ "/" ++ "Apple") with (nd ++ "/Apple").
  case_bool_decide as Hin.
  - right. exists nd. split; [done|]. left. done.
  - case_bool_decide; [left; by eexists|].
    case_bool_decide; simpl; [|left; by eexists].
    right. exists nd. split; [done|]. right. done.
Qed.

Lemma ensure_apple_notes_directory_again (base out : string) (w w' : World) :
  Paths.ensure_apple_notes_directory base w = (Ok out, w') ->
  Paths.ensure_apple_notes_directory base w' = (Ok out, w').
Proof.
  intros Hrun.
  destruct (ensure_apple_notes_directory_cases base w)
    as [[e He]|(nd & Hnd & [[Hin He]|[Hin He]])]; rewrite He in Hrun;
    [done| |]; injection Hrun as <- <-; [done|].
  pose proof (note_directory_at_add_dir base nd (fs w) Hnd) as Hnd'.
  unfold Paths.ensure_apple_notes_directory, bind. rewrite get_note_directory_eq.
  unfold with_dir at 1. cbn [fs]. rewrite Hnd'.
  unfold Paths.mkdir_exist_ok. change (nd ++ "/" ++ "Apple") with (nd ++ "/Apple").
  rewrite bool_decide_eq_true_2; [done|].
  unfold with_dir, add_dir. simpl. apply elem_of_app. right. by apply list_elem_of_singleton.
Qed.

End OutputDirectory.

Lemma footprint_refl (base : string) (w : World) : dry_run_footprint base w w.
Proof. unfold dry_run_footprint. repeat split; by left. Qed.

Lemma footprint_after_init (base out : string) (w w1 w' : World) :
  Paths.ensure_apple_notes_directory base w = (Ok out, w1) ->
  db w' = db w1 -> fs w' = fs w1 -> originals_folder_id w' = originals_folder_id w1 ->
  (trace w' = trace w1 \/ trace w' = (trace w1 ++ [export_all])%list) ->
  dry_run_footprint base w w'.
Proof.
  intros Hinit Hdb Hfs Hc Htr.
  destruct (ensure_apple_notes_directory_cases base w)
    as [[e He]|(nd & Hnd & [[Hin He]|[Hin He]])]; rewrite He in Hinit;
    [done| |]; injection Hinit as <- <-.
  - unfold dry_run_footprint. rewrite Hdb, Hfs, Hc. repeat split; try done. by left.
  - unfold dry_run_footprint. rewrite Hdb, Hfs, Hc. simpl. repeat split; try done.
    right. exists nd. done.
Qed.

Lemma init_eq (base backups : string) (w : World) :
  Engine.init base backups w =
  match Paths.ensure_apple_notes_directory base w with
  | (Ok out, w1) =>
      (Ok {| supernote_base := base; output_base := out; backup_dir := backups |}, w1)
  | (Raise e, w1) => (Raise e, w1)
  end.
Proof.
  unfold Engine.init, bind.
  by destruct (Paths.ensure_apple_notes_directory base w) as [[out|e] w1].
Qed.

Lemma orchestrator_init_eq (base : string) (w : World) :
  Orchestrator.init base w =
  match Paths.ensure_apple_notes_directory base w with
  | (Ok out, w1) =>
      (Ok {| supernote_base := base; output_base := out; backup_dir := "" |}, w1)
  | (Raise e, w1) => (Raise e, w1)
  end.
Proof.
  unfold Orchestrator.init, bind.
  by destruct (Paths.ensure_apple_notes_directory base w) as [[out|e] w1].
Qed.

Lemma ensure_raise_keeps (base e : string) (w w1 : World) :
  Paths.ensure_apple_notes_directory base w = (Raise e, w1) -> w1 = w.
Proof.
  intros Hrun.
  destruct (ensure_apple_notes_directory_cases base w)
    as [[e' He]|(nd & Hnd & [[Hin He]|[Hin He]])]; rewrite He in Hrun; congruence.
Qed.

(** X27.  A dry run of the [sync] command, in any direction and with or
    without the backup option, changes neither the database, nor any file of
    the Mirror, nor the cached folder id, and issues at most the one
    [export-all] command.  The one thing it may write is the output
    directory: the constructors create [Apple] below the Note directory when
    it is missing, before the dry-run flag is looked at. *)
Theorem dry_run_changes_nothing (E : Env) (cfg : Config) (direction : Direction)
    (backup : bool) (w : World) :
  dry_run_footprint (supernote_base cfg) w (Cli.sync E cfg direction backup true w).2.
Proof.
  unfold Cli.sync. unfold bind at 1. unfold gets at 1. cbv beta iota.
  destruct (bool_decide (supernote_base cfg ∈ dirs (fs w))); cbn [negb];
    [|apply footprint_refl].
  unfold catch.
  set (base := supernote_base cfg).
  destruct direction.
  - (* forward *)
    unfold bind at 1. rewrite orchestrator_init_eq.
    destruct (Paths.ensure_apple_notes_directory base w) as [[out|e] w1] eqn:Hinit.
    2:{ apply ensure_raise_keeps in Hinit. subst w1. apply footprint_refl. }
    unfold bind.
    pose proof (run_dry_keeps E {| supernote_base := base; output_base := out;
                                   backup_dir := "" |} w1) as Hrun.
    cbv zeta in Hrun. destruct Hrun as (Hdb & Hfs & Hc & Htr).
    destruct (Orchestrator.run E _ true w1) as [[r|e] w2]; simpl in *;
      by apply (footprint_after_init base out w w1 w2).
  - (* reverse *)
    unfold bind at 1. rewrite init_eq.
    destruct (Paths.ensure_apple_notes_directory base w) as [[out|e] w1] eqn:Hinit.
    2:{ apply ensure_raise_keeps in Hinit. subst w1. apply footprint_refl. }
    rewrite andb_false_r. unfold bind, ret.
    destruct (reverse_dry_run_is_silent E
                {| supernote_base := base; output_base := out;
                   backup_dir := backup_dir cfg |} w1) as [Hw [st Hst]].
    destruct (Engine.run_reverse_sync E _ true w1) as [[r|e] w2]; simpl in *; subst w2;
      apply (footprint_after_init base out w w1 w1); try done; by left.
  - (* both *)
    unfold bind at 1. rewrite init_eq.
    destruct (Paths.ensure_apple_notes_directory base w) as [[out|e] w1] eqn:Hinit.
    2:{ apply ensure_raise_keeps in Hinit. subst w1. apply footprint_refl. }
    unfold bind at 1. unfold Engine.run_bidirectional. rewrite andb_false_r.
    unfold bind at 1. unfold ret at 1. cbv beta iota.
    unfold bind at 1.
    destruct (reverse_dry_run_is_silent E
                {| supernote_base := base; output_base := out;
                   backup_dir := backup_dir cfg |} w1) as [Hw [st Hst]].
    destruct (Engine.run_reverse_sync E _ true w1) as [[r|e] w2]; simpl in Hw, Hst;
      subst w2; [|discriminate Hst].
    unfold bind at 1. unfold Engine.run_forward_sync. unfold bind at 1.
    cbn [supernote_base]. rewrite orchestrator_init_eq.
    rewrite (ensure_apple_notes_directory_again base out w w1 Hinit).
    unfold bind.
    pose proof (run_dry_keeps E {| supernote_base := base; output_base := out;
                                   backup_dir := "" |} w1) as Hrun.
    cbv zeta in Hrun. destruct Hrun as (Hdb & Hfs & Hc & Htr).
    destruct (Orchestrator.run E _ true w1) as [[r'|e] w2]; simpl in *;
      by apply (footprint_after_init base out w w1 w2).
Qed.

(** The directory is created indeed: a dry run on a Mirror that has no
    output directory yet leaves it there. *)
Lemma dry_run_creates_the_output_directory :
  let w := Demo.world_unprepared in
  dirs (fs (Cli.sync Demo.env_up Demo.cfg DirReverse false true w).2) =
    (dirs (fs w) ++ [Demo.root])%list.
Proof. vm_compute. reflexivity. Qed.

(** X28.  The statistics [run_bidirectional] returns never report a note
    created by the reverse pass: [reverse_created] is 0 whatever
    [run_reverse_sync] counted. *)
Theorem combined_statistics_drop_created_notes (E : Env) (cfg : Config)
    (dry_run with_backup : bool) (st : BidirectionalSyncStats) (w w' : World) :
  Engine.run_bidirectional E cfg dry_run with_backup w = (Ok st, w') ->
  reverse_created st = 0.
Proof.
  unfold Engine.run_bidirectional, bind.
  set (pre := if with_backup && negb dry_run then _ else _).
  destruct (pre w) as [[u|e] w0]; [|intros [=]].
  destruct (Engine.run_reverse_sync E cfg dry_run w0) as [[rs|e] w1]; [|intros [=]].
  destruct (Engine.run_forward_sync E cfg dry_run w1) as [[fsx|e] w2]; [|intros [=]].
  unfold ret. by intros [= <- _].
Qed.

Lemma combined_statistics_drop_created_notes_witness :
  let out := Engine.run_bidirectional Demo.env_up Demo.cfg false false Demo.world_new_file in
  (exists rs w1,
     Engine.run_reverse_sync Demo.env_up Demo.cfg false Demo.world_new_file = (Ok rs, w1) /\
     reverse_created rs = 1) /\
  exists st, out = (Ok st, out.2) /\ reverse_created st = 0.
Proof.
  intros out. split.
  - eexists _, _. split; [vm_compute; reflexivity | reflexivity].
  - exists {| forward_total := 1; forward_created := 1; forward_updated := 0;
              forward_skipped := 0; forward_failed := 0; reverse_modified := 0;
              reverse_deleted := 0; reverse_created := 0; reverse_skipped := 0;
              reverse_failed := 0; originals_backed_up := 0; conflicts_detected := 0;
              conflicts_resolved_apple_wins := 0; errors := [] |}.
    assert (out = (Ok {| forward_total := 1; forward_created := 1; forward_updated := 0;
              forward_skipped := 0; forward_failed := 0; reverse_modified := 0;
              reverse_deleted := 0; reverse_created := 0; reverse_skipped := 0;
              reverse_failed := 0; originals_backed_up := 0; conflicts_detected := 0;
              conflicts_resolved_apple_wins := 0; errors := [] |}, out.2)) as Hrun.
    { vm_compute. reflexivity. }
    split; [exact Hrun|].
    exact (combined_statistics_drop_created_notes Demo.env_up Demo.cfg false false _
             Demo.world_new_file out.2 Hrun).
Defined.

(** * New files, and conflicts through the forward phase *)

Section NewFiles.
Import PyStr StateDb.










End NewFiles.



Section ForwardAfterConflict.
Variable E : Env.






End ForwardAfterConflict.


